(** * Maximo AI agent and MCP broker

    A shallow embedding of the agent ([app/server.mjs]) and of the MCP server
    that follows it in the same source file, with the properties of the
    tool-orchestrated chat pipeline proved about it.

    Conventions of the embedding:
    - the JavaScript values the two servers handle are JSON documents; they
      are the inductive type [value], with [undefined] added for the fields
      that are absent;
    - a computation that may throw returns a [result]; a route, which also
      makes network calls, is a tree of calls ([io]) that is run against a
      network ([world]) and yields the list of the calls made and the answer;
    - strings are ASCII text (character codes above 127 are carried along
      unchanged), numbers are integers, and the fields of an object are kept
      in the order they were inserted;
    - [JSON.parse], [JSON.stringify], [encodeURIComponent] and
      [URLSearchParams] are parameters ([Platform]).

    The definitions come first, in the order of the source; the theorems
    follow. *)

From Stdlib Require Import ZArith String Ascii List Bool Lia DecimalString.
Import ListNotations.
Open Scope list_scope.
Open Scope string_scope.

Set Warnings "-register-all".

(** ** Exceptions *)

(** A JavaScript computation either returns or throws.  The payload of
    [Throw] is the message of the exception. *)
Inductive result (A : Type) : Type :=
| Ok (a : A)
| Throw (msg : string).
Arguments Ok {A} a.
Arguments Throw {A} msg.

Definition rbind {A B : Type} (m : result A) (f : A -> result B) : result B :=
  match m with
  | Ok a => f a
  | Throw e => Throw e
  end.

Notation "x <- m ;; k" := (rbind m (fun x => k))
  (at level 61, m at next level, right associativity).

(** ** JSON values as JavaScript sees them *)

(** Numbers are restricted to integers (in the range where [String(n)] is
    the plain decimal numeral); objects are association lists in insertion
    order, read by their first binding. *)
Inductive value : Type :=
| JUndef
| JNull
| JBool (b : bool)
| JNum (n : Z)
| JStr (s : string)
| JArr (items : list value)
| JObj (fields : list (string * value)).

Fixpoint lookup (k : string) (fields : list (string * value)) : option value :=
  match fields with
  | [] => None
  | (k', v) :: rest => if String.eqb k k' then Some v else lookup k rest
  end.

(** [v.k] for a [v] that is neither [null] nor [undefined].  Only used with
    the field names the source reads; none of them is a built-in property of
    arrays, strings, numbers or booleans, so those yield [undefined]. *)
Definition prop (v : value) (k : string) : value :=
  match v with
  | JObj fields => match lookup k fields with Some x => x | None => JUndef end
  | _ => JUndef
  end.

Definition nullish (v : value) : bool :=
  match v with
  | JUndef | JNull => true
  | _ => false
  end.

(** [v.k]: a TypeError on [null] and [undefined]. *)
Definition get (v : value) (k : string) : result value :=
  if nullish v then Throw ("TypeError: Cannot read properties of null or undefined (reading '" ++ k ++ "')")
  else Ok (prop v k).

(** [v?.k] *)
Definition oget (v : value) (k : string) : value :=
  if nullish v then JUndef else prop v k.

(** ToBoolean *)
Definition truthy (v : value) : bool :=
  match v with
  | JUndef | JNull => false
  | JBool b => b
  | JNum n => negb (Z.eqb n 0)
  | JStr s => negb (String.eqb s "")
  | JArr _ | JObj _ => true
  end.

(** [a || b] *)
Definition js_or (a b : value) : value := if truthy a then a else b.

(** [a ?? b] *)
Definition js_coalesce (a b : value) : value := if nullish a then b else a.

(** [typeof v === "object"] *)
Definition typeof_object (v : value) : bool :=
  match v with
  | JNull | JArr _ | JObj _ => true
  | _ => false
  end.

(** [Array.isArray(v)] *)
Definition isArray (v : value) : bool :=
  match v with
  | JArr _ => true
  | _ => false
  end.

Definition has_key (k : string) (fields : list (string * value)) : bool :=
  match lookup k fields with Some _ => true | None => false end.

(** [String(v)] (ToString).  A plain object prints as [[object Object]]
    through [Object.prototype.toString]; an object parsed from JSON that has
    an own [toString] field shadows that method with a value that is not
    callable, [valueOf] then returns the object itself, and the conversion
    throws.  An array prints its elements joined by commas, [null] and
    [undefined] elements as the empty string. *)
Fixpoint js_String (v : value) : result string :=
  match v with
  | JUndef => Ok "undefined"
  | JNull => Ok "null"
  | JBool true => Ok "true"
  | JBool false => Ok "false"
  | JNum n => Ok (NilZero.string_of_int (Z.to_int n))
  | JStr s => Ok s
  | JArr items =>
      (fix join (l : list value) : result string :=
         match l with
         | [] => Ok ""
         | x :: rest =>
             sx <- (if nullish x then Ok "" else js_String x) ;;
             match rest with
             | [] => Ok sx
             | _ => srest <- join rest ;; Ok (sx ++ "," ++ srest)
             end
         end) items
  | JObj fields =>
      if has_key "toString" fields
      then Throw "TypeError: Cannot convert object to primitive value"
      else Ok "[object Object]"
  end.

(** ** String built-ins (strings are sequences of ASCII characters) *)

Definition is_ws (c : ascii) : bool :=
  match nat_of_ascii c with
  | 9 | 10 | 11 | 12 | 13 | 32 => true
  | _ => false
  end.

Fixpoint trim_start (s : string) : string :=
  match s with
  | EmptyString => EmptyString
  | String c rest => if is_ws c then trim_start rest else s
  end.

Fixpoint trim_end (s : string) : string :=
  match s with
  | EmptyString => EmptyString
  | String c rest =>
      match trim_end rest with
      | EmptyString => if is_ws c then EmptyString else String c EmptyString
      | r => String c r
      end
  end.

(** [s.trim()] *)
Definition trim (s : string) : string := trim_end (trim_start s).

Definition lower_ascii (c : ascii) : ascii :=
  let n := nat_of_ascii c in
  if ((65 <=? n) && (n <=? 90))%nat then ascii_of_nat (n + 32) else c.

Definition upper_ascii (c : ascii) : ascii :=
  let n := nat_of_ascii c in
  if ((97 <=? n) && (n <=? 122))%nat then ascii_of_nat (n - 32) else c.

Fixpoint map_string (f : ascii -> ascii) (s : string) : string :=
  match s with
  | EmptyString => EmptyString
  | String c rest => String (f c) (map_string f rest)
  end.

(** [s.toLowerCase()], [s.toUpperCase()] on ASCII text, where the case
    mappings of JavaScript are those of the letters A to Z.  A character
    code above 127 is left as it is, where JavaScript applies the Unicode
    mappings; a statement that compares the two cases of a string is
    therefore made for ASCII text only ([ascii_text]). *)
Definition toLowerCase : string -> string := map_string lower_ascii.
Definition toUpperCase : string -> string := map_string upper_ascii.

(** Every character of [s] is an ASCII character. *)
Fixpoint ascii_text (s : string) : bool :=
  match s with
  | EmptyString => true
  | String c rest => (nat_of_ascii c <? 128)%nat && ascii_text rest
  end.

(** [s.startsWith(p)] *)
Fixpoint startsWith (p s : string) : bool :=
  match p with
  | EmptyString => true
  | String a p' =>
      match s with
      | EmptyString => false
      | String b s' => Ascii.eqb a b && startsWith p' s'
      end
  end.

(** [s.replace(/suffix$/, by)]: the suffix, when the string ends with it, is
    replaced; otherwise the string is returned as it is. *)
Fixpoint replace_suffix (suffix by_ s : string) : string :=
  if String.eqb s suffix then by_
  else match s with
       | EmptyString => EmptyString
       | String c rest => String c (replace_suffix suffix by_ rest)
       end.

(** [/suffix$/.test(s)] *)
Fixpoint ends_with (suffix s : string) : bool :=
  if String.eqb s suffix then true
  else match s with
       | EmptyString => false
       | String _ rest => ends_with suffix rest
       end.


(** ** Tool schema normalization ([toOpenAITools], app/server.mjs) *)

(** [v === s] for a string literal [s] *)
Definition is_str (v : value) (s : string) : bool :=
  match v with
  | JStr x => String.eqb x s
  | _ => false
  end.

(** [{ type:"object", properties:{}, additionalProperties:true }] *)
Definition open_schema : value :=
  JObj [("type", JStr "object"); ("properties", JObj []);
        ("additionalProperties", JBool true)].

(** [{ type:"function", function:{ name, description, parameters } }] *)
Definition mk_tool (name description : string) (parameters : value) : value :=
  JObj [("type", JStr "function");
        ("function", JObj [("name", JStr name);
                           ("description", JStr description);
                           ("parameters", parameters)])].

(** [(p && typeof p === "object") ? p : {open schema}] *)
Definition schema_or_default (p : value) : value :=
  if truthy p && typeof_object p then p else open_schema.

(** The test of the first branch of the loop:
    [t && t.type === "function" && t.function && t.function.name]. *)
Definition canonical_shape (t : value) : bool :=
  truthy t && is_str (prop t "type") "function"
  && truthy (prop t "function")
  && truthy (prop (prop t "function") "name").

(** One iteration of the loop of [toOpenAITools]: [Some] is the tool pushed,
    [None] is [continue] without a push. *)
Definition convert_tool (t : value) : result (option value) :=
  if canonical_shape t then
    let f := prop t "function" in
    name <- js_String (prop f "name") ;;
    description <- js_String (js_or (prop f "description") (JStr "")) ;;
    Ok (Some (mk_tool name description (schema_or_default (prop f "parameters"))))
  else
    name0 <- js_String (js_or (oget t "name") (JStr "")) ;;
    let name := trim name0 in
    if String.eqb name "" then Ok None
    else
      description <- js_String (js_or (oget t "description") (JStr "")) ;;
      Ok (Some (mk_tool name description (schema_or_default (oget t "inputSchema")))).

(** The [for (const t of list)] loop; the tools are pushed in the order of
    the records, and an exception leaves the loop. *)
Fixpoint convert_tools (tools : list value) : result (list value) :=
  match tools with
  | [] => Ok []
  | t :: rest =>
      o <- convert_tool t ;;
      out <- convert_tools rest ;;
      Ok (match o with Some tool => tool :: out | None => out end)
  end.

Definition toOpenAITools (rawTools : value) : result (list value) :=
  convert_tools (match rawTools with JArr items => items | _ => [] end).


(** Sample catalog records used in the examples. *)
Definition native_query : value :=
  JObj [("name", JStr " maximo.queryOS "); ("description", JStr "Query");
        ("inputSchema", JObj [("type", JStr "object")])].
Definition ready_list : value :=
  mk_tool "maximo.listOS" "List" (JObj [("type", JStr "object")]).

(** *** What the normalizer promises, in the words of the specification *)

(** A non-null JavaScript object: what the guard
    [p && typeof p === "object"] lets through (arrays included). *)
Definition js_object (p : value) : bool := truthy p && typeof_object p.

(** A JSON object proper: not an array, not [null]. *)
Definition is_record (p : value) : bool :=
  match p with
  | JObj _ => true
  | _ => false
  end.

(** The schema a record carries: [function.parameters] for a record of the
    canonical shape, [inputSchema] for a broker-native one. *)
Definition source_schema (t : value) : value :=
  if canonical_shape t then prop (prop t "function") "parameters"
  else oget t "inputSchema".

(** A record without a usable name: it is not of the canonical shape and
    its [name], printed and trimmed, is empty. *)
Definition lacks_name (t : value) : Prop :=
  canonical_shape t = false /\
  exists s, js_String (js_or (oget t "name") (JStr "")) = Ok s /\ trim s = "".

(** The description a record carries. *)
Definition source_description (t : value) : value :=
  if canonical_shape t then prop (prop t "function") "description"
  else oget t "description".

(** The tool emitted for a kept record: its name is the printed function
    name of a canonical record, the printed and trimmed name of a
    broker-native one, which is not empty; its description is the printed
    description, empty by default; its parameters are the schema of the
    record when that is a non-null object, the open schema otherwise. *)
Definition emitted_for (t tool : value) : Prop :=
  exists name description parameters,
    tool = mk_tool name description parameters
    /\ (if canonical_shape t
        then js_String (prop (prop t "function") "name") = Ok name
        else exists s, js_String (js_or (oget t "name") (JStr "")) = Ok s
                       /\ name = trim s /\ name <> "")
    /\ (forall s, canonical_shape t = true ->
                  prop (prop t "function") "name" = JStr s ->
                  name = s /\ s <> "")
    /\ js_String (js_or (source_description t) (JStr "")) = Ok description
    /\ js_object parameters = true
    /\ (js_object (source_schema t) = true -> parameters = source_schema t)
    /\ (js_object (source_schema t) = false -> parameters = open_schema).

(** The output lists, in the order of the input, one tool per record that
    is not dropped. *)
Inductive kept_in_order : list value -> list value -> Prop :=
| kept_nil : kept_in_order [] []
| kept_drop t l out :
    lacks_name t -> kept_in_order l out -> kept_in_order (t :: l) out
| kept_keep t l out tool :
    emitted_for t tool -> kept_in_order l out ->
    kept_in_order (t :: l) (tool :: out).

(** The claim as the specification words it: whatever the input, each
    emitted tool has a non-empty name and an object schema. *)
Definition wellformed_tool (tool : value) : Prop :=
  exists name description parameters,
    tool = mk_tool name description parameters
    /\ name <> "" /\ is_record parameters = true.

Definition emits_wellformed (rawTools : value) : Prop :=
  forall out, toOpenAITools rawTools = Ok out -> Forall wellformed_tool out.

(** A record in canonical form: the canonical shape (type ["function"] and
    a function name that is not empty), the name being a string. *)
Definition canonical_form (t : value) : Prop :=
  canonical_shape t = true /\
  exists s, prop (prop t "function") "name" = JStr s.

(** A value that prints without looking inside a container. *)
Definition scalar (v : value) : bool :=
  match v with
  | JArr _ | JObj _ => false
  | _ => true
  end.

(** A catalog record whose names and descriptions are scalars. *)
Definition plain_record (t : value) : Prop :=
  scalar (prop (prop t "function") "name") = true
  /\ scalar (prop (prop t "function") "description") = true
  /\ scalar (oget t "name") = true
  /\ scalar (oget t "description") = true.

(** A catalog in which one record carries an array where a schema is
    expected, and one in which the function name is an empty array. *)
Definition array_schema_catalog : value :=
  JArr [JObj [("name", JStr "q"); ("inputSchema", JArr [JNum 1])]].
Definition array_name_catalog : value :=
  JArr [JObj [("type", JStr "function");
              ("function", JObj [("name", JArr [])])]].

(** A catalog in canonical form with more fields than the normalizer
    copies. *)
Definition verbose_catalog : list value :=
  [ready_list;
   JObj [("type", JStr "function"); ("vendor", JStr "acme");
         ("function", JObj [("name", JStr "maximo.queryOS");
                            ("strict", JBool true);
                            ("parameters", JStr "none")])]].

(** ** Ordering tokens ([normalizeOrderBy], app/server.mjs) *)

(** The character class [[a-zA-Z0-9_\.]] *)
Definition is_field_char (c : ascii) : bool :=
  let n := nat_of_ascii c in
  ((48 <=? n) && (n <=? 57) || (65 <=? n) && (n <=? 90)
   || (97 <=? n) && (n <=? 122) || (n =? 95) || (n =? 46))%nat.

(** The longest prefix made of characters of a class, and what follows. *)
Fixpoint span (p : ascii -> bool) (s : string) : string * string :=
  match s with
  | EmptyString => (EmptyString, EmptyString)
  | String c rest =>
      if p c then let (a, b) := span p rest in (String c a, b)
      else (EmptyString, s)
  end.

(** [s.match(/^([a-zA-Z0-9_\.]+)\s+(asc|desc)$/i)]: the two groups.  The
    two classes and the first letters of the direction words are pairwise
    disjoint, so the only way to match is the longest field followed by the
    longest run of white space. *)
Definition match_order (s : string) : option (string * string) :=
  let (field, rest) := span is_field_char s in
  let (ws, dir) := span is_ws rest in
  if negb (String.eqb field "") && negb (String.eqb ws "")
     && (String.eqb (toLowerCase dir) "asc" || String.eqb (toLowerCase dir) "desc")
  then Some (field, dir) else None.

(** The body of [normalizeOrderBy] once its argument is a string. *)
Definition order_token (orderBy : string) : string :=
  let s := trim orderBy in
  if String.eqb s "" then ""
  else if startsWith "+" s || startsWith "-" s then s
  else match match_order s with
       | Some (field, dir) =>
           if String.eqb (toLowerCase dir) "desc" then "-" ++ field
           else "+" ++ field
       | None => "+" ++ s
       end.

Definition normalizeOrderBy (orderBy : value) : result string :=
  s <- js_String (js_or orderBy (JStr "")) ;;
  Ok (order_token s).

(** *** The forms of an ordering, in the words of the specification *)

Fixpoint string_forall (p : ascii -> bool) (s : string) : bool :=
  match s with
  | EmptyString => true
  | String c rest => p c && string_forall p rest
  end.

(** A token that carries its direction marker. *)
Definition prefixed (s : string) : bool :=
  startsWith "+" s || startsWith "-" s.

(** [s] reads [field], white space, then a direction word in any case. *)
Definition direction_form (s field dir : string) : Prop :=
  exists ws,
    s = field ++ ws ++ dir
    /\ field <> "" /\ string_forall is_field_char field = true
    /\ ws <> "" /\ string_forall is_ws ws = true
    /\ (toLowerCase dir = "asc" \/ toLowerCase dir = "desc").

(** The first character, if any, is outside the class. *)
Definition head_fails (p : ascii -> bool) (s : string) : bool :=
  match s with
  | EmptyString => true
  | String c _ => negb (p c)
  end.

(** ** Built-ins that are taken as given *)

(** [JSON.parse] ([None] when it throws), [JSON.stringify],
    [encodeURIComponent] and [URLSearchParams.prototype.toString] belong to
    the platform; the servers are embedded over any implementation of
    them. *)
Class Platform : Type := {
  JSON_parse : string -> option value;
  JSON_stringify : value -> string;
  encodeURIComponent : string -> string;
  URLSearchParams_toString : list (string * string) -> string
}.

(** ** Network calls *)

(** What [await fetch(...)] followed by [await r.text()] gives: a rejection,
    or a status line and a body.  [r.ok] is the status being in 200..299. *)
Inductive fetch_outcome : Type :=
| Rejected (msg : string)
| Response (status : Z) (text : string).

(** A handler is a tree of network calls: it returns, throws, or performs a
    call of type [C] and goes on with its outcome. *)
Inductive io (C A : Type) : Type :=
| Ret (a : A)
| Raise (msg : string)
| Call (c : C) (k : fetch_outcome -> io C A).
Arguments Ret {C A} a.
Arguments Raise {C A} msg.
Arguments Call {C A} c k.

Fixpoint iobind {C A B : Type} (m : io C A) (f : A -> io C B) : io C B :=
  match m with
  | Ret a => f a
  | Raise e => Raise e
  | Call c k => Call c (fun o => iobind (k o) f)
  end.

Notation "x <~ m ;; k" := (iobind m (fun x => k))
  (at level 61, m at next level, right associativity).

Definition lift {C A : Type} (r : result A) : io C A :=
  match r with
  | Ok a => Ret a
  | Throw e => Raise e
  end.

(** The network answers a call knowing the calls made before it. *)
Definition world (C : Type) : Type := list C -> C -> fetch_outcome.

(** Running a handler against a network: the calls made so far, oldest
    first, and the way the handler ends. *)
Fixpoint run {C A : Type} (w : world C) (p : io C A) (made : list C)
  : list C * result A :=
  match p with
  | Ret a => (made, Ok a)
  | Raise e => (made, Throw e)
  | Call c k => run w (k (w made c)) (made ++ [c])%list
  end.

(** The record [fetchJson] returns. *)
Record fetched : Type := {
  f_ok : bool;
  f_status : Z;
  f_text : string;
  f_json : value
}.

Definition fetchJson {P : Platform} {C : Type} (c : C) : io C fetched :=
  Call c (fun o =>
    match o with
    | Rejected msg => Raise msg
    | Response status text =>
        Ret {| f_ok := (200 <=? status)%Z && (status <=? 299)%Z;
               f_status := status;
               f_text := text;
               f_json := match JSON_parse text with
                         | Some j => j
                         | None => JNull
                         end |}
    end).

(** What a route writes with [json(res, status, obj)]. *)
Record http_response : Type := {
  http_status : Z;
  http_body : value
}.

(** [s.slice(0, n)] *)
Fixpoint slice0 (n : nat) (s : string) : string :=
  match n, s with
  | S n', String c rest => String c (slice0 n' rest)
  | _, _ => EmptyString
  end.

(** ** The MCP server: tenants *)

(** The part of [process.env] the MCP server reads. *)
Record environment : Type := {
  MAXIMO_URL : option string;
  MAXIMO_APIKEY : option string;
  DEFAULT_SITEID : option string
}.

(** [process.env.NAME]: a string, or [undefined] when the variable is not
    set. *)
Definition env_value (o : option string) : value :=
  match o with
  | Some s => JStr s
  | None => JUndef
  end.

Definition normMaximoBase (u : value) : result string :=
  s0 <- js_String (js_or u (JStr "")) ;;
  let s := replace_suffix "/" "" (trim s0) in
  if String.eqb s "" then Ok ""
  else if ends_with "/maximo" s then Ok s
  else Ok (s ++ "/maximo").

Definition maximoApiBase (u : value) : result string :=
  b <- normMaximoBase u ;;
  Ok (if String.eqb b "" then "" else replace_suffix "/maximo" "/maximo/api" b).

(** [tenants.find(x => String(x.id) === id)]: the first entry whose printed
    id is [id], [undefined] when there is none; reading [x.id] of a [null]
    entry throws. *)
Fixpoint find_tenant (id : string) (tenants : list value) : result value :=
  match tenants with
  | [] => Ok JUndef
  | x :: rest =>
      xid <- get x "id" ;;
      sid <- js_String xid ;;
      if String.eqb sid id then Ok x else find_tenant id rest
  end.

(** [tenants.find(...id...) || tenants.find(..."default"...) || {}] *)
Definition choose_tenant (tenants : list value) (id : string) : result value :=
  exact <- find_tenant id tenants ;;
  if truthy exact then Ok exact
  else
    fallback <- find_tenant "default" tenants ;;
    Ok (js_or fallback (JObj [])).

Record resolved_tenant : Type := {
  rt_id : string;
  rt_baseUrl : string;
  rt_apiBase : string;
  rt_apiKey : value;
  rt_site : string;
  rt_org : value
}.

Definition resolveTenant (env : environment) (settings tenantId : value)
  : result resolved_tenant :=
  tenants_field <- get settings "tenants" ;;
  let tenants := match tenants_field with JArr items => items | _ => [] end in
  let maximo := prop settings "maximo" in
  def <- js_String (js_or (oget maximo "defaultTenant") (JStr "default")) ;;
  id <- js_String (js_or (js_or tenantId (JStr def)) (JStr "default")) ;;
  t <- choose_tenant tenants id ;;
  let baseUrl :=
    js_or (js_or (js_or (prop t "maximoBaseUrl") (oget maximo "baseUrl"))
                 (env_value (MAXIMO_URL env))) (JStr "") in
  let apiKey :=
    js_or (js_or (env_value (MAXIMO_APIKEY env)) (oget maximo "apiKey"))
          (JStr "") in
  site0 <- js_String
             (js_or (js_or (js_or (prop t "site") (oget maximo "defaultSite"))
                           (env_value (DEFAULT_SITEID env))) (JStr "")) ;;
  let site := toUpperCase site0 in
  base <- normMaximoBase baseUrl ;;
  api <- maximoApiBase baseUrl ;;
  Ok {| rt_id := id; rt_baseUrl := base; rt_apiBase := api;
        rt_apiKey := apiKey; rt_site := site;
        rt_org := js_or (prop t "org") (JStr "") |}.

(** Settings and environments used in the examples. *)
Definition no_env : environment :=
  {| MAXIMO_URL := None; MAXIMO_APIKEY := None; DEFAULT_SITEID := None |}.

Definition secret_env : environment :=
  {| MAXIMO_URL := Some "https://env.example.com/";
     MAXIMO_APIKEY := Some "ENVKEY";
     DEFAULT_SITEID := Some "envsite" |}.

Definition acme : value :=
  JObj [("id", JStr "acme"); ("label", JStr "Acme");
        ("maximoBaseUrl", JStr "https://acme.example.com/maximo/");
        ("org", JStr "EAGLENA"); ("site", JStr "bedford")].

Definition fallback_tenant : value :=
  JObj [("id", JStr "default"); ("label", JStr "");
        ("maximoBaseUrl", JStr ""); ("org", JStr ""); ("site", JStr "")].

Definition global_maximo : value :=
  JObj [("baseUrl", JStr "https://mas.example.com");
        ("apiKey", JStr "FILEKEY"); ("defaultSite", JStr "texas")].

Definition settings_with (tenants : list value) (maximo : value) : value :=
  JObj [("ui", JObj []); ("tenants", JArr tenants); ("maximo", maximo)].

(** *** Tenant resolution in the words of the specification *)

(** The registry of a settings value. *)
Definition registry (settings : value) : list value :=
  match prop settings "tenants" with
  | JArr items => items
  | _ => []
  end.

(** The entry [x] has the id [id]. *)
Definition has_id (id : string) (x : value) : bool :=
  match js_String (prop x "id") with
  | Ok s => String.eqb s id
  | Throw _ => false
  end.

(** Exact match, then the entry with id ["default"], then an empty
    record. *)
Definition first_of (id : string) (tenants : list value) : value :=
  match List.find (has_id id) tenants with
  | Some x => x
  | None =>
      match List.find (has_id "default") tenants with
      | Some x => x
      | None => JObj []
      end
  end.

(** No entry has the id, and none has the id ["default"]. *)
Definition unknown_tenant (id : string) (tenants : list value) : Prop :=
  List.find (has_id id) tenants = None
  /\ List.find (has_id "default") tenants = None.

(** The first value of a list that is not empty (in the sense of [||]), the
    empty string when there is none. *)
Fixpoint first_truthy (candidates : list value) : value :=
  match candidates with
  | [] => JStr ""
  | v :: rest => if truthy v then v else first_truthy rest
  end.

(** A registry entry as the settings screen saves it: an object whose id,
    base URL and site are scalars. *)
Definition tenant_record (x : value) : Prop :=
  is_record x = true
  /\ scalar (prop x "id") = true
  /\ scalar (prop x "maximoBaseUrl") = true
  /\ scalar (prop x "site") = true.

(** A settings object with such a registry and scalar global fields. *)
Definition plain_settings (settings : value) : Prop :=
  is_record settings = true
  /\ Forall tenant_record (registry settings)
  /\ scalar (oget (prop settings "maximo") "defaultTenant") = true
  /\ scalar (oget (prop settings "maximo") "baseUrl") = true
  /\ scalar (oget (prop settings "maximo") "defaultSite") = true.

(** The resolved tenant is empty: no base URL, credential, site or
    organization. *)
Definition empty_resolved (r : resolved_tenant) : Prop :=
  rt_baseUrl r = "" /\ rt_apiBase r = "" /\ rt_apiKey r = JStr ""
  /\ rt_site r = "" /\ rt_org r = JStr "".

(** Nothing is configured globally: neither in the [maximo] section of the
    settings nor in the environment. *)
Definition nothing_global (env : environment) (settings : value) : Prop :=
  truthy (oget (prop settings "maximo") "baseUrl") = false
  /\ truthy (oget (prop settings "maximo") "apiKey") = false
  /\ truthy (oget (prop settings "maximo") "defaultSite") = false
  /\ truthy (env_value (MAXIMO_URL env)) = false
  /\ truthy (env_value (MAXIMO_APIKEY env)) = false
  /\ truthy (env_value (DEFAULT_SITEID env)) = false.

(** The id a resolution works with: the requested one, else the default
    tenant of the settings, else ["default"]. *)
Definition requested_id (settings tenantId : value) (id : string) : Prop :=
  exists def,
    js_String (first_truthy [oget (prop settings "maximo") "defaultTenant";
                             JStr "default"]) = Ok def
    /\ js_String (first_truthy [tenantId; JStr def; JStr "default"]) = Ok id.

(** The fields of the resolved tenant [r] are computed from the registry
    entry [t]: each is the first configured value of its chain, the base URL
    normalized and the site in upper case. *)
Definition resolved_from
  (env : environment) (settings t : value) (r : resolved_tenant) : Prop :=
  let maximo := prop settings "maximo" in
  normMaximoBase
    (first_truthy [prop t "maximoBaseUrl"; oget maximo "baseUrl";
                   env_value (MAXIMO_URL env)]) = Ok (rt_baseUrl r)
  /\ maximoApiBase
       (first_truthy [prop t "maximoBaseUrl"; oget maximo "baseUrl";
                      env_value (MAXIMO_URL env)]) = Ok (rt_apiBase r)
  /\ rt_apiKey r
     = first_truthy [env_value (MAXIMO_APIKEY env); oget maximo "apiKey"]
  /\ (exists s,
         js_String (first_truthy [prop t "site"; oget maximo "defaultSite";
                                  env_value (DEFAULT_SITEID env)]) = Ok s
         /\ rt_site r = toUpperCase s)
  /\ rt_org r = first_truthy [prop t "org"].

(** The claim as the specification words it: an unknown tenant without a
    default entry resolves to an empty tenant. *)
Definition unknown_resolves_empty
  (env : environment) (settings tenantId : value) : Prop :=
  exists r, resolveTenant env settings tenantId = Ok r /\ empty_resolved r.

(** The base URL of the resolved tenant comes from the chosen record [t]
    when that has one, else from the persisted settings, else from the
    environment. *)
Definition base_url_precedence
  (env : environment) (settings t : value) (r : resolved_tenant) : Prop :=
  let tenant_url := prop t "maximoBaseUrl" in
  let file_url := oget (prop settings "maximo") "baseUrl" in
  let env_url := env_value (MAXIMO_URL env) in
  (truthy tenant_url = true -> normMaximoBase tenant_url = Ok (rt_baseUrl r))
  /\ (truthy tenant_url = false -> truthy file_url = true ->
      normMaximoBase file_url = Ok (rt_baseUrl r))
  /\ (truthy tenant_url = false -> truthy file_url = false ->
      normMaximoBase env_url = Ok (rt_baseUrl r)).

(** The credential comes from the environment when that has one, else from
    the persisted settings, else it is empty. *)
Definition credential_precedence
  (env : environment) (settings : value) (r : resolved_tenant) : Prop :=
  let env_key := env_value (MAXIMO_APIKEY env) in
  let file_key := oget (prop settings "maximo") "apiKey" in
  (truthy env_key = true -> rt_apiKey r = env_key)
  /\ (truthy env_key = false -> truthy file_key = true -> rt_apiKey r = file_key)
  /\ (truthy env_key = false -> truthy file_key = false -> rt_apiKey r = JStr "").

(** ** The MCP server: the [/mcp/call] route *)

(** The one kind of call the MCP server makes: a GET on the backend with an
    [accept] header and the credential in the [apikey] header. *)
Inductive backend_call : Type :=
| BackendGet (url : string) (apikey : value).

Definition json (status : Z) (fields : list (string * value)) : http_response :=
  {| http_status := status; http_body := JObj fields |}.

(** The [try { ... } catch (e) { return json(res, 500, ...) }] around a
    route; the detail is the message of the exception. *)
Fixpoint guarded {C : Type} (code : string) (p : io C http_response)
  : io C http_response :=
  match p with
  | Ret a => Ret a
  | Raise e => Ret (json 500 [("error", JStr code); ("detail", JStr e)])
  | Call c k => Call c (fun o => guarded code (k o))
  end.

(** [body ? JSON.parse(body) : {}] *)
Definition parse_body {P : Platform} (body : string) : result value :=
  if String.eqb body "" then Ok (JObj [])
  else match JSON_parse body with
       | Some v => Ok v
       | None => Throw "SyntaxError: Unexpected token in JSON"
       end.

Definition dquote : string := String (ascii_of_nat 34) EmptyString.

(** [String(paramsIn[key] || "").trim()] *)
Definition param (paramsIn : value) (key : string) : result string :=
  s <- js_String (js_or (prop paramsIn key) (JStr "")) ;;
  Ok (trim s).

(** [r.status || 500] *)
Definition status_or_500 (status : Z) : Z :=
  if Z.eqb status 0 then 500%Z else status.

(** The query parameters that are not empty, in the order they are set. *)
Definition set_params (pairs : list (string * string)) : list (string * string) :=
  List.filter (fun kv => negb (String.eqb (snd kv) "")) pairs.

(** The [maximo.queryOS] branch up to the URL it is about to fetch: either
    an answer given at once, or the object structure and the URL. *)
Definition queryOS_url {P : Platform} (tenant : resolved_tenant) (args : value)
  : result (http_response + string * string) :=
  os0 <- js_String (js_or (prop args "os") (JStr "")) ;;
  let os := trim os0 in
  let paramsIn :=
    if truthy (prop args "params") && typeof_object (prop args "params")
    then prop args "params" else JObj [] in
  if String.eqb os "" then Ok (inl (json 400 [("error", JStr "missing_os")]))
  else
    where0 <- param paramsIn "oslc.where" ;;
    let where_ :=
      if negb (String.eqb where0 "") then where0
      else if negb (String.eqb (rt_site tenant) "")
           then "siteid=" ++ dquote ++ rt_site tenant ++ dquote
           else "" in
    select <- param paramsIn "oslc.select" ;;
    orderBy <- param paramsIn "oslc.orderBy" ;;
    pageSize <- param paramsIn "oslc.pageSize" ;;
    let params :=
      set_params [("oslc.where", where_); ("oslc.select", select);
                  ("oslc.orderBy", orderBy); ("oslc.pageSize", pageSize)] in
    Ok (inr (os, rt_apiBase tenant ++ "/os/" ++ encodeURIComponent os ++ "?"
                 ++ URLSearchParams_toString params)).

(** The [trace] field of a successful query. *)
Definition trace_of (url : string) : value :=
  JObj [("request",
         JObj [("method", JStr "GET"); ("url", JStr url);
               ("headers", JObj [("apikey", JStr "***")])])].

Definition queryOS {P : Platform} (tenant : resolved_tenant) (args : value)
  : io backend_call http_response :=
  target <~ lift (queryOS_url tenant args) ;;
  match target with
  | inl answer => Ret answer
  | inr (os, url) =>
      r <~ fetchJson (BackendGet url (rt_apiKey tenant)) ;;
      if negb (f_ok r) || negb (truthy (f_json r))
      then Ret (json (status_or_500 (f_status r))
                     [("error", JStr "maximo_failed");
                      ("detail", JStr (slice0 800 (f_text r)));
                      ("url", JStr url)])
      else Ret (json 200 [("ok", JBool true); ("tenant", JStr (rt_id tenant));
                          ("os", JStr os); ("data", f_json r);
                          ("trace", trace_of url)])
  end.

Definition listOS {P : Platform} (tenant : resolved_tenant)
  : io backend_call http_response :=
  let url := rt_apiBase tenant ++ "/os" in
  r <~ fetchJson (BackendGet url (rt_apiKey tenant)) ;;
  if negb (f_ok r) || negb (truthy (f_json r))
  then Ret (json (status_or_500 (f_status r))
                 [("error", JStr "maximo_failed");
                  ("detail", JStr (slice0 600 (f_text r)));
                  ("url", JStr url)])
  else Ret (json 200 [("ok", JBool true); ("tenant", JStr (rt_id tenant));
                      ("list", f_json r)]).

(** The route, given the settings read from the file and the request
    body. *)
Definition mcp_call {P : Platform}
  (env : environment) (settings : value) (body : string)
  : io backend_call http_response :=
  guarded "mcp_error"
    (parsed <~ lift (parse_body body) ;;
     name0 <~ lift (n <- get parsed "name" ;; js_String (js_or n (JStr ""))) ;;
     let name := trim name0 in
     let args := js_or (prop parsed "args") (JObj []) in
     let tenantId := prop parsed "tenant" in
     tenant <~ lift (resolveTenant env settings tenantId) ;;
     if String.eqb name "" then Ret (json 400 [("error", JStr "missing_tool_name")])
     else if String.eqb (rt_apiBase tenant) "" || negb (truthy (rt_apiKey tenant))
     then Ret (json 400 [("error", JStr "missing_maximo_config");
                         ("detail", JStr "MAXIMO_URL and MAXIMO_APIKEY must be provided (secret/env) or in settings.json.")])
     else if String.eqb name "maximo.listOS" then listOS tenant
     else if String.eqb name "maximo.queryOS" then queryOS tenant args
     else Ret (json 404 [("error", JStr "unknown_tool"); ("name", JStr name)])).

(** *** Runs that differ only in the credential *)

(** Two configurations (environment and settings file) that are the same
    but for the credential: the variable MAXIMO_APIKEY and the field
    [maximo.apiKey]. *)
Definition same_but_credential
  (env1 : environment) (settings1 : value)
  (env2 : environment) (settings2 : value) : Prop :=
  MAXIMO_URL env1 = MAXIMO_URL env2
  /\ DEFAULT_SITEID env1 = DEFAULT_SITEID env2
  /\ nullish settings1 = nullish settings2
  /\ prop settings1 "tenants" = prop settings2 "tenants"
  /\ (forall k, k <> "apiKey" ->
        oget (prop settings1 "maximo") k = oget (prop settings2 "maximo") k).

(** Two resolved tenants that are the same but for the credential. *)
Definition agree_but_key (r1 r2 : resolved_tenant) : Prop :=
  rt_id r1 = rt_id r2 /\ rt_baseUrl r1 = rt_baseUrl r2
  /\ rt_apiBase r1 = rt_apiBase r2 /\ rt_site r1 = rt_site r2
  /\ rt_org r1 = rt_org r2.

(** The answer of a query that succeeded: status 200 and a trace. *)
Definition query_succeeded (resp : http_response) : Prop :=
  http_status resp = 200%Z /\ prop (http_body resp) "trace" <> JUndef.

(** The credential header recorded in the trace of an answer. *)
Definition traced_credential (resp : http_response) : value :=
  prop (prop (prop (prop (http_body resp) "trace") "request") "headers") "apikey".

(** An assistant message that asks for two tools: the arguments of the
    first are cut short, those of the second are the empty string. *)
Definition broken_call : value :=
  JObj [("id", JStr "call_1"); ("type", JStr "function");
        ("function", JObj [("name", JStr "maximo.queryOS");
                           ("arguments", JStr "{os:")])].
Definition bare_call : value :=
  JObj [("id", JStr "call_2"); ("type", JStr "function");
        ("function", JObj [("name", JStr "maximo.listOS");
                           ("arguments", JStr "")])].
Definition sample_assistant : value :=
  JObj [("role", JStr "assistant"); ("content", JNull);
        ("tool_calls", JArr [broken_call; bare_call])].

(** A platform that knows the documents of the examples, by name. *)
Definition sample_parse (text : string) : option value :=
  if String.eqb text "{query}"
  then Some (JObj [("name", JStr "maximo.queryOS"); ("tenant", JStr "acme");
                   ("args", JObj [("os", JStr "mxapiasset");
                                  ("params", JObj [("oslc.pageSize", JNum 5)])])])
  else if String.eqb text "{members}"
  then Some (JObj [("member", JArr [])])
  else if String.eqb text "{chat}"
  then Some (JObj [("provider", JStr "OpenAI"); ("system", JStr "be brief");
                   ("text", JStr " show all assets ")])
  else if String.eqb text "{catalog}"
  then Some (JObj [("tools", JArr [native_query; ready_list])])
  else if String.eqb text "{calls}"
  then Some (JObj [("choices", JArr [JObj [("message", sample_assistant)]])])
  else if String.eqb text "{answer}"
  then Some (JObj [("choices",
                    JArr [JObj [("message",
                                 JObj [("role", JStr "assistant");
                                       ("content", JStr "Found 0 assets.")])]])])
  else if String.eqb text "{}" then Some (JObj [])
  else None.

Definition sample_platform : Platform :=
  {| JSON_parse := sample_parse;
     JSON_stringify := fun _ => "{...}";
     encodeURIComponent := fun s => s;
     URLSearchParams_toString :=
       fun pairs => String.concat "&" (List.map (fun kv => fst kv ++ "=" ++ snd kv) pairs) |}.

(** A backend that serves every request. *)
Definition serving : world backend_call :=
  fun _ _ => Response 200 "{members}".

(** The environment of [secret_env] after the credential was rotated. *)
Definition rotated_env : environment :=
  {| MAXIMO_URL := Some "https://env.example.com/";
     MAXIMO_APIKEY := Some "ROTATED";
     DEFAULT_SITEID := Some "envsite" |}.

(** ** Saving settings ([saveSettingsFromUI], app/server.mjs) *)

(** [obj[k] = v]: the field keeps its place when it exists and is appended
    otherwise. *)
Fixpoint set_field (k : string) (v : value) (fields : list (string * value))
  : list (string * value) :=
  match fields with
  | [] => [(k, v)]
  | (k', v') :: rest =>
      if String.eqb k k' then (k, v) :: rest
      else (k', v') :: set_field k v rest
  end.

(** [delete obj[k]] *)
Definition remove_field (k : string) (fields : list (string * value))
  : list (string * value) :=
  List.filter (fun kv => negb (String.eqb (fst kv) k)) fields.

(** The printed index of an array element or of a character. *)
Definition index_key (i : nat) : string :=
  NilZero.string_of_uint (Nat.to_uint i).

Fixpoint indexed {A : Type} (f : A -> value) (i : nat) (l : list A)
  : list (string * value) :=
  match l with
  | [] => []
  | x :: rest => (index_key i, f x) :: indexed f (S i) rest
  end.

(** The own enumerable properties that [{...v}] copies: the fields of an
    object, the elements of an array and the characters of a string under
    their indices, nothing for the other values.  (JavaScript lists
    integer-like keys first; here a key stays where it was inserted.) *)
Definition own_entries (v : value) : list (string * value) :=
  match v with
  | JObj fields => fields
  | JArr items => indexed (fun x => x) 0 items
  | JStr s => indexed (fun c => JStr (String c EmptyString)) 0 (list_ascii_of_string s)
  | _ => []
  end.

Definition assign (target : list (string * value)) (source : value)
  : list (string * value) :=
  List.fold_left (fun acc kv => set_field (fst kv) (snd kv) acc)
                 (own_entries source) target.

(** [{ ...a, ...b }] *)
Definition spread2 (a b : value) : value := JObj (assign (assign [] a) b).

(** [String(t.k||"").trim()] *)
Definition trimmed_field (t : value) (k : string) : result string :=
  x <- get t k ;;
  s <- js_String (js_or x (JStr "")) ;;
  Ok (trim s).

(** The callback of [payload.tenants.map]. *)
Definition clean_tenant (t : value) : result value :=
  id <- trimmed_field t "id" ;;
  label <- trimmed_field t "label" ;;
  maximoBaseUrl <- trimmed_field t "maximoBaseUrl" ;;
  org <- trimmed_field t "org" ;;
  site <- trimmed_field t "site" ;;
  Ok (JObj [("id", JStr id); ("label", JStr label);
            ("maximoBaseUrl", JStr maximoBaseUrl);
            ("org", JStr org); ("site", JStr site)]).

Fixpoint map_result {A B : Type} (f : A -> result B) (l : list A)
  : result (list B) :=
  match l with
  | [] => Ok []
  | x :: rest => y <- f x ;; ys <- map_result f rest ;; Ok (y :: ys)
  end.

(** [next.k = { ...(next.k||{}), ...payload.k }] when [payload.k] is an
    object. *)
Definition merge_section (k : string) (payload : value)
           (next : list (string * value)) : value :=
  spread2 (js_or (prop (JObj next) k) (JObj [])) (prop payload k).

(** [cur] is the object read from the settings file; the result is the
    object written back to it. *)
Definition saveSettingsFromUI (cur : list (string * value)) (payload : value)
  : result (list (string * value)) :=
  let next := cur in
  if js_object payload then
    let next :=
      if js_object (prop payload "ui")
      then set_field "ui" (merge_section "ui" payload next) next
      else next in
    let next :=
      if js_object (prop payload "maximo")
      then set_field "maximo"
             (JObj (remove_field "apiKey"
                      (own_entries (merge_section "maximo" payload next))))
             next
      else next in
    let next :=
      if js_object (prop payload "mcp")
      then set_field "mcp" (merge_section "mcp" payload next) next
      else next in
    match prop payload "tenants" with
    | JArr items =>
        cleaned <- map_result clean_tenant items ;;
        Ok (set_field "tenants"
              (JArr (List.filter (fun t => truthy (prop t "id")) cleaned))
              next)
    | _ => Ok next
    end
  else Ok next.

(** The file [ensureSettingsFile] creates, for a broker at [mcp_url]. *)
Definition initial_settings (mcp_url : string) : list (string * value) :=
  [("ui", JObj []); ("tenants", JArr []); ("maximo", JObj []);
   ("mcp", JObj [("url", JStr mcp_url); ("enableTools", JBool false)])].

(** A save request and a settings file for the examples. *)
Definition leaky_payload : value :=
  JObj [("ui", JObj [("theme", JStr "dark")]);
        ("ai", JObj [("openai_key", JStr "sk-payload")]);
        ("maximo", JObj [("objectStructure", JStr "mxapiwo");
                         ("apiKey", JStr "PAYLOADKEY")]);
        ("tenants", JArr [JObj [("id", JStr " acme "); ("apiKey", JStr "T")];
                          JObj [("label", JStr "nameless")]])].

Definition seeded_file : list (string * value) :=
  [("ui", JObj []); ("tenants", JArr []); ("maximo", global_maximo)].

(** *** Credentials in a settings file *)

(** The field [k] of the section [sec] of a settings object. *)
Definition section_field (settings : list (string * value)) (sec k : string)
  : option value :=
  match lookup sec settings with
  | Some (JObj fields) => lookup k fields
  | _ => None
  end.




(** A tenant as it is saved: the five fields, with an id that is not
    empty. *)
Definition saved_tenant (t : value) : Prop :=
  exists id label maximoBaseUrl org site,
    t = JObj [("id", JStr id); ("label", JStr label);
              ("maximoBaseUrl", JStr maximoBaseUrl);
              ("org", JStr org); ("site", JStr site)]
    /\ id <> "".


(** ** The agent: providers ([providerConfig], [openaiCompatChat]) *)

Record provider_cfg : Type := {
  cfg_provider : string;
  cfg_key : value;
  cfg_base : string
}.

Definition providerConfig (provider s : value) : result provider_cfg :=
  p0 <- js_String (js_or provider (JStr "openai")) ;;
  let p := toLowerCase p0 in
  s_ai <- get s "ai" ;;
  let ai := js_or s_ai (JObj []) in
  let (key, base) :=
    if String.eqb p "openai"
    then (js_or (prop ai "openai_key") (JStr ""),
          js_or (prop ai "openai_base") (JStr "https://api.openai.com"))
    else if String.eqb p "mistral"
    then (js_or (prop ai "mistral_key") (JStr ""),
          js_or (prop ai "mistral_base") (JStr "https://api.mistral.ai"))
    else if String.eqb p "deepseek"
    then (js_or (prop ai "deepseek_key") (JStr ""),
          js_or (prop ai "deepseek_base") (JStr "https://api.deepseek.com"))
    else (JStr "", JStr "") in
  base0 <- js_String (js_or base (JStr "")) ;;
  Ok {| cfg_provider := p; cfg_key := key;
        cfg_base := replace_suffix "/" "" (trim base0) |}.

(** The body of a completion request before [JSON.stringify].  The
    temperature is kept as the request gave it ([None] when it gave none and
    0.7 is sent); of its conversion to a number only the exception is
    modelled ([js_Number]).  [cb_tools] is [Some] exactly when the body has
    the fields [tools] and [tool_choice]. *)
Record completion_body : Type := {
  cb_model : string;
  cb_temperature : option value;
  cb_messages : list value;
  cb_tools : option (list value)
}.

(** The calls the agent makes, one constructor for each [fetchJson] of the
    chat route: the catalog of the broker, a completion of the provider (URL,
    [authorization] header, body), and a tool invocation on the broker (URL
    and the fields [name], [args] and [tenant] of the body). *)
Inductive agent_call : Type :=
| CatalogFetch (url : string)
| Completion (url authorization : string) (body : completion_body)
| BrokerInvoke (url : string) (name args : value) (tenant : string).

(** [Number(v)], as far as a route depends on it: the conversion of an
    object or an array to a primitive throws exactly where [String(v)] does
    (an own [toString] field shadows the method with a value that is not
    callable, and [valueOf] returns the object itself); the number is not
    computed. *)
Definition js_Number (v : value) : result unit :=
  _ <- js_String v ;; Ok tt.

(** [Number(temperature)] in the body of a completion request; the default
    0.7 is a number already. *)
Definition number_of_temperature (temperature : option value) : result unit :=
  match temperature with
  | None => Ok tt
  | Some t => js_Number t
  end.

Definition openaiCompatChat {P : Platform}
  (cfg : provider_cfg) (model : string) (temperature : option value)
  (messages : list value) (tools : option (list value))
  : io agent_call value :=
  if negb (truthy (cfg_key cfg))
  then Raise ("missing_api_key:" ++ cfg_provider cfg)
  else
    let body :=
      {| cb_model := if String.eqb model "" then "gpt-4o-mini" else model;
         cb_temperature := temperature;
         cb_messages := messages;
         cb_tools := match tools with
                     | Some (t :: ts) => Some (t :: ts)
                     | _ => None
                     end |} in
    _ <~ lift (number_of_temperature temperature) ;;
    key <~ lift (js_String (cfg_key cfg)) ;;
    r <~ fetchJson (Completion (cfg_base cfg ++ "/v1/chat/completions")
                               ("Bearer " ++ key) body) ;;
    if negb (f_ok r) || negb (truthy (f_json r))
    then Raise ("AI request failed (" ++ NilZero.string_of_int (Z.to_int (f_status r))
                ++ "). " ++ slice0 300 (f_text r))
    else Ret (f_json r).

(** ** The agent: the [/api/agent/chat] route *)

(** [v?.[0]] *)
Definition oindex0 (v : value) : value :=
  match v with
  | JArr (x :: _) => x
  | JObj fields => match lookup "0" fields with Some x => x | None => JUndef end
  | JStr (String c _) => JStr (String c EmptyString)
  | _ => JUndef
  end.

(** [out?.choices?.[0]?.message] *)
Definition first_message (out : value) : value :=
  oget (oindex0 (oget out "choices")) "message".

(** [Array.isArray(msg.tool_calls) ? msg.tool_calls : []] *)
Definition tool_calls_of (msg : value) : list value :=
  match prop msg "tool_calls" with
  | JArr items => items
  | _ => []
  end.

(** [try { args = JSON.parse(argsStr); } catch { args = { raw: argsStr }; }]:
    [JSON.parse] prints its argument first, and both the printing and the
    parsing may throw. *)
Definition parse_args {P : Platform} (argsStr : value) : value :=
  match js_String argsStr with
  | Ok s => match JSON_parse s with
            | Some args => args
            | None => JObj [("raw", argsStr)]
            end
  | Throw _ => JObj [("raw", argsStr)]
  end.

(** [{ role:"tool", tool_call_id, content }] *)
Definition tool_message (tool_call_id : value) (content : string) : value :=
  JObj [("role", JStr "tool"); ("tool_call_id", tool_call_id);
        ("content", JStr content)].

(** [cr.json ? JSON.stringify(cr.json) : String(cr.text||"")] *)
Definition result_content {P : Platform} (cr : fetched) : string :=
  if truthy (f_json cr) then JSON_stringify (f_json cr) else f_text cr.

(** The [for (const tc of toolCalls)] loop, [follow] being the messages
    gathered so far. *)
Fixpoint exec_tools {P : Platform} (mcpUrl tenant : string)
         (toolCalls : list value) (follow : list value)
  : io agent_call (list value) :=
  match toolCalls with
  | [] => Ret follow
  | tc :: rest =>
      let name := oget (oget tc "function") "name" in
      let argsStr := js_or (oget (oget tc "function") "arguments") (JStr "{}") in
      let args := parse_args argsStr in
      cr <~ fetchJson (BrokerInvoke (mcpUrl ++ "/mcp/call") name args tenant) ;;
      id <~ lift (get tc "id") ;;
      exec_tools mcpUrl tenant rest
                 (follow ++ [tool_message id (result_content cr)])%list
  end.

(** [String(parsed.provider||"openai").toLowerCase()] *)
Definition requested_provider (parsed : value) : result string :=
  p <- get parsed "provider" ;;
  s <- js_String (js_or p (JStr "openai")) ;;
  Ok (toLowerCase s).

(** [String(v||"").trim()] *)
Definition trimmed (v : value) : result string :=
  s <- js_String (js_or v (JStr "")) ;;
  Ok (trim s).

(** [{ role, content }] *)
Definition chat_message (role content : string) : value :=
  JObj [("role", JStr role); ("content", JStr content)].

(** The catalog step: [tools] stays empty unless tools are enabled and a
    broker URL is configured. *)
Definition fetch_tools {P : Platform} (enableTools : bool) (mcpUrl tenant : string)
  : io agent_call (list value) :=
  if enableTools && negb (String.eqb mcpUrl "") then
    tr <~ fetchJson (CatalogFetch (mcpUrl ++ "/mcp/tools?tenant="
                                   ++ encodeURIComponent tenant)) ;;
    let rawTools :=
      if f_ok tr && truthy (f_json tr) && isArray (prop (f_json tr) "tools")
      then prop (f_json tr) "tools" else JArr [] in
    lift (toOpenAITools rawTools)
  else Ret [].

(** [{ reply: String(content) }] with status 200 *)
Definition reply_with (content : value) : io agent_call http_response :=
  reply <~ lift (js_String content) ;;
  Ret (json 200 [("reply", JStr reply)]).

(** The route after the settings were read: [s] is the value of
    [effectiveSettings()], [MCP_URL_DEFAULT] the constant of that name. *)
Definition agent_chat {P : Platform}
  (MCP_URL_DEFAULT : string) (s : value) (body : string)
  : io agent_call http_response :=
  guarded "server_error"
    (parsed <~ lift (parse_body body) ;;
     provider <~ lift (requested_provider parsed) ;;
     cfg <~ lift (providerConfig (JStr provider) s) ;;
     if negb (truthy (cfg_key cfg))
     then Ret (json 400 [("error", JStr "missing_api_key");
                         ("detail", JStr ("Missing " ++ provider ++ " API key"))])
     else
       model <~ lift (trimmed (prop parsed "model")) ;;
       let temperature :=
         if nullish (prop parsed "temperature") then None
         else Some (prop parsed "temperature") in
       system <~ lift (trimmed (prop parsed "system")) ;;
       textIn <~ lift (trimmed (prop parsed "text")) ;;
       if String.eqb textIn "" then Ret (json 400 [("error", JStr "missing_text")])
       else
         let messages :=
           ((if String.eqb system "" then [] else [chat_message "system" system])
            ++ [chat_message "user" textIn])%list in
         mcpUrl0 <~ lift (js_String (js_or (oget (prop s "mcp") "url")
                                           (JStr MCP_URL_DEFAULT))) ;;
         let mcpUrl := replace_suffix "/" "" (trim mcpUrl0) in
         let enableTools := truthy (oget (prop s "mcp") "enableTools") in
         tenant <~ lift (js_String (js_or (oget (prop s "maximo") "defaultTenant")
                                          (JStr "default"))) ;;
         tools <~ fetch_tools enableTools mcpUrl tenant ;;
         out1 <~ openaiCompatChat cfg model temperature messages
                   (match tools with [] => None | _ => Some tools end) ;;
         let msg := js_or (first_message out1) (JObj []) in
         match tool_calls_of msg with
         | [] => reply_with (js_or (prop msg "content") (JStr ""))
         | toolCalls =>
             follow <~ exec_tools mcpUrl tenant toolCalls (messages ++ [msg])%list ;;
             out2 <~ openaiCompatChat cfg model temperature follow None ;;
             reply_with (js_or (oget (first_message out2) "content") (JStr ""))
         end).

(** *** A scripted turn for the examples *)

Definition is_completion (c : agent_call) : bool :=
  match c with
  | Completion _ _ _ => true
  | _ => false
  end.

Definition is_invoke (c : agent_call) : bool :=
  match c with
  | BrokerInvoke _ _ _ _ => true
  | _ => false
  end.

(** The completions among the calls of a turn. *)
Definition completions (calls : list agent_call) : list agent_call :=
  List.filter is_completion calls.

(** A network in which the broker serves its catalog and its tools, and the
    provider asks for tools first and answers afterwards. *)
Definition scripted : world agent_call :=
  fun made c =>
    match c with
    | CatalogFetch _ => Response 200 "{catalog}"
    | BrokerInvoke _ _ _ _ => Response 200 "{members}"
    | Completion _ _ _ =>
        if List.existsb is_completion made then Response 200 "{answer}"
        else Response 200 "{calls}"
    end.

(** A network in which the broker cannot be reached. *)
Definition broker_down : world agent_call :=
  fun made c =>
    match c with
    | BrokerInvoke _ _ _ _ => Rejected "fetch failed"
    | _ => scripted made c
    end.

Definition chat_settings : value :=
  JObj [("ai", JObj [("openai_key", JStr "sk-test")]);
        ("mcp", JObj [("url", JStr "http://mcp-server:8081/");
                      ("enableTools", JBool true)]);
        ("maximo", JObj [])].

Definition keyless_settings : value :=
  JObj [("ai", JObj [("mistral_key", JStr "m-test")]);
        ("mcp", JObj [("url", JStr "http://mcp-server:8081/");
                      ("enableTools", JBool true)]);
        ("maximo", JObj [])].

Definition sample_messages : list value :=
  [chat_message "system" "be brief"; chat_message "user" "show all assets"].

Definition sample_tools : list value :=
  [mk_tool "maximo.queryOS" "Query" (JObj [("type", JStr "object")]); ready_list].

Definition first_request : agent_call :=
  Completion "https://api.openai.com/v1/chat/completions" "Bearer sk-test"
    {| cb_model := "gpt-4o-mini"; cb_temperature := None;
       cb_messages := sample_messages; cb_tools := Some sample_tools |}.

Definition follow_up_request : agent_call :=
  Completion "https://api.openai.com/v1/chat/completions" "Bearer sk-test"
    {| cb_model := "gpt-4o-mini"; cb_temperature := None;
       cb_messages :=
         (sample_messages
          ++ [sample_assistant;
              tool_message (JStr "call_1") "{...}";
              tool_message (JStr "call_2") "{...}"])%list;
       cb_tools := None |}.

(** *** The turn in the words of the specification *)

(** The assistant message of the answer to a completion request, when the
    answer is a success that can be decoded. *)
Definition assistant_answer {P : Platform} (o : fetch_outcome) : option value :=
  match o with
  | Rejected _ => None
  | Response status text =>
      match JSON_parse text with
      | Some j =>
          if (200 <=? status)%Z && (status <=? 299)%Z && truthy j
          then Some (js_or (first_message j) (JObj []))
          else None
      | None => None
      end
  end.

(** [m] is a tool-result message for the tool call [tc]. *)
Definition result_for (tc m : value) : Prop :=
  prop m "role" = JStr "tool"
  /\ prop m "tool_call_id" = prop tc "id"
  /\ exists content, prop m "content" = JStr content.

(** The argument object sent to the broker for a tool call. *)
Definition invoke_args {P : Platform} (tc : value) : value :=
  parse_args (js_or (oget (oget tc "function") "arguments") (JStr "{}")).

(** The broker answers every invocation (with whatever status). *)
Definition broker_answers (w : world agent_call) : Prop :=
  forall made c, is_invoke c = true -> exists status text, w made c = Response status text.

(** The tool-call requests are records. *)
Definition tool_call_records (toolCalls : list value) : Prop :=
  Forall (fun tc => nullish tc = false) toolCalls.

(** Only the catalog was fetched, if anything. *)
Definition catalog_only (pre : list agent_call) : Prop :=
  pre = [] \/ exists url, pre = [CatalogFetch url].

Definition messages_of (c : agent_call) : list value :=
  match c with
  | Completion _ _ body => cb_messages body
  | _ => []
  end.

Definition tools_of (c : agent_call) : option (list value) :=
  match c with
  | Completion _ _ body => cb_tools body
  | _ => None
  end.

(** What [fetchJson] makes of an answer of the network. *)
Definition fetched_of {P : Platform} (status : Z) (text : string) : fetched :=
  {| f_ok := (200 <=? status)%Z && (status <=? 299)%Z;
     f_status := status;
     f_text := text;
     f_json := match JSON_parse text with
               | Some j => j
               | None => JNull
               end |}.

(** The tool loop in the words of the specification: starting after the
    calls [made], each tool-call request in turn is invoked on the broker at
    [mcpUrl] for [tenant], with its name and its decoded arguments, and what
    the broker answers becomes the content of the tool-result message that
    carries the id of the request. *)
Inductive tool_rounds {P : Platform} (w : world agent_call) (mcpUrl tenant : string)
  : list agent_call -> list value -> list agent_call -> list value -> Prop :=
| rounds_done made :
    tool_rounds w mcpUrl tenant made [] [] []
| rounds_step made tc rest status text invokes results :
    let call := BrokerInvoke (mcpUrl ++ "/mcp/call")
                  (oget (oget tc "function") "name") (invoke_args tc) tenant in
    w made call = Response status text ->
    tool_rounds w mcpUrl tenant (made ++ [call])%list rest invokes results ->
    tool_rounds w mcpUrl tenant made (tc :: rest) (call :: invokes)
      (tool_message (prop tc "id") (result_content (fetched_of status text))
       :: results).

(** Two completion requests go to the same provider in the same way: same
    URL, same credential, same model and same temperature. *)
Definition same_provider (c1 c2 : agent_call) : Prop :=
  match c1, c2 with
  | Completion url1 auth1 body1, Completion url2 auth2 body2 =>
      url1 = url2 /\ auth1 = auth2
      /\ cb_model body1 = cb_model body2
      /\ cb_temperature body1 = cb_temperature body2
  | _, _ => False
  end.

(** The calls of a chat turn, oldest first.  A turn makes no completion
    request; or one, when the request fails or its answer asks for no tool;
    or one followed by tool invocations that fail, which happens only when
    the broker does not answer or a tool-call request is not a record; or
    one, the tool invocations, and one follow-up to the same provider that
    offers no tool and replays the messages of the first request, the
    assistant message and one tool result per tool call, in order, each
    with what the broker answered to the invocation of that call. *)
Inductive turn_calls {P : Platform} (w : world agent_call)
  : list agent_call -> Prop :=
| turn_before_completion pre :
    catalog_only pre -> turn_calls w pre
| turn_single_completion pre c1 :
    catalog_only pre -> is_completion c1 = true ->
    (assistant_answer (w pre c1) = None
     \/ exists msg, assistant_answer (w pre c1) = Some msg
                    /\ tool_calls_of msg = []) ->
    turn_calls w (pre ++ [c1])
| turn_tools_failed pre c1 invokes msg :
    catalog_only pre -> is_completion c1 = true ->
    assistant_answer (w pre c1) = Some msg -> tool_calls_of msg <> [] ->
    Forall (fun c => is_invoke c = true) invokes ->
    ~ (broker_answers w /\ tool_call_records (tool_calls_of msg)) ->
    turn_calls w (pre ++ c1 :: invokes)
| turn_follow_up pre c1 invokes c2 msg results mcpUrl tenant :
    catalog_only pre -> is_completion c1 = true ->
    assistant_answer (w pre c1) = Some msg -> tool_calls_of msg <> [] ->
    Forall (fun c => is_invoke c = true) invokes ->
    is_completion c2 = true ->
    tools_of c2 = None ->
    messages_of c2 = (messages_of c1 ++ msg :: results)%list ->
    Forall2 result_for (tool_calls_of msg) results ->
    tool_rounds w mcpUrl tenant (pre ++ [c1])%list (tool_calls_of msg)
                invokes results ->
    same_provider c1 c2 ->
    turn_calls w (pre ++ c1 :: invokes ++ [c2]).

(** The messages a turn starts from: the system prompt of the request when
    it has one, then the text of the user, both trimmed. *)
Definition turn_messages (system textIn : string) : list value :=
  ((if String.eqb system "" then [] else [chat_message "system" system])
   ++ [chat_message "user" textIn])%list.

(** The first completion request of the turn on [body] carries the system
    prompt and the text of that request. *)
Definition first_messages {P : Platform} (body : string) (c1 : agent_call) : Prop :=
  exists parsed system textIn,
    parse_body body = Ok parsed
    /\ trimmed (prop parsed "system") = Ok system
    /\ trimmed (prop parsed "text") = Ok textIn
    /\ textIn <> ""
    /\ messages_of c1 = turn_messages system textIn.

(** The claim as the specification words it, for the turn on [body]: when
    the answer to the first completion request carries tool-call requests, a
    follow-up completion is requested. *)
Definition tool_calls_followed_up {P : Platform} (w : world agent_call)
           (MCP_URL_DEFAULT : string) (s : value) (body : string) : Prop :=
  forall pre c1 post msg,
    fst (run w (agent_chat MCP_URL_DEFAULT s body) []) = (pre ++ c1 :: post)%list ->
    completions pre = [] -> is_completion c1 = true ->
    assistant_answer (w pre c1) = Some msg ->
    tool_calls_of msg <> [] ->
    completions post <> [].


(** ** Further properties: their vocabulary *)

(** A backend base in normal form: empty, or ending with [/maximo]. *)
Definition normal_base (b : string) : Prop :=
  b = "" \/ exists p, b = p ++ "/maximo".

(** Every value the handler may return satisfies [Q], whatever the network
    answers. *)
Fixpoint returns_only {C A : Type} (Q : A -> Prop) (p : io C A) : Prop :=
  match p with
  | Ret a => Q a
  | Raise _ => True
  | Call _ k => forall o, returns_only Q (k o)
  end.

(** Every call the handler may make satisfies [Q], whatever the network
    answers. *)
Fixpoint calls_only {C A : Type} (Q : C -> Prop) (p : io C A) : Prop :=
  match p with
  | Ret _ | Raise _ => True
  | Call c k => Q c /\ forall o, calls_only Q (k o)
  end.

(** The handler does not throw, whatever the network answers. *)
Fixpoint never_raises {C A : Type} (p : io C A) : Prop :=
  match p with
  | Ret _ => True
  | Raise _ => False
  | Call _ k => forall o, never_raises (k o)
  end.

(** The answers of the chat route. *)
Inductive chat_response : http_response -> Prop :=
| chat_reply reply :
    chat_response (json 200 [("reply", JStr reply)])
| chat_missing_key detail :
    chat_response (json 400 [("error", JStr "missing_api_key");
                             ("detail", JStr detail)])
| chat_missing_text :
    chat_response (json 400 [("error", JStr "missing_text")])
| chat_server_error detail :
    chat_response (json 500 [("error", JStr "server_error");
                             ("detail", JStr detail)]).

(** A call of a turn that offers no tools: not a fetch of the catalog, and
    no [tools] field in a completion request. *)
Definition offers_no_tools (c : agent_call) : Prop :=
  match c with
  | CatalogFetch _ => False
  | Completion _ _ body => cb_tools body = None
  | BrokerInvoke _ _ _ _ => True
  end.

(** The provider names that have a configuration. *)
Definition known_provider (p : string) : bool :=
  String.eqb p "openai" || String.eqb p "mistral" || String.eqb p "deepseek".

(** The invocation made for a tool-call request. *)
Definition invoke_of {P : Platform} (mcpUrl tenant : string) (tc : value)
  : agent_call :=
  BrokerInvoke (mcpUrl ++ "/mcp/call") (oget (oget tc "function") "name")
               (invoke_args tc) tenant.

(** [p] is a prefix of [s]. *)
Definition is_prefix (p s : string) : Prop := exists rest, s = p ++ rest.

Definition settings_without_tools : value :=
  JObj [("ai", JObj [("openai_key", JStr "sk-test")]);
        ("mcp", JObj [("url", JStr "http://mcp-server:8081/");
                      ("enableTools", JBool false)]);
        ("maximo", JObj [])].

(** The documents of the further examples, by name, on top of those of
    [sample_platform]. *)
Definition extra_parse (text : string) : option value :=
  if String.eqb text "{claude}"
  then Some (JObj [("provider", JStr "Anthropic"); ("text", JStr "hello")])
  else sample_parse text.

Definition extra_platform : Platform :=
  {| JSON_parse := extra_parse;
     JSON_stringify := fun _ => "{...}";
     encodeURIComponent := fun s => s;
     URLSearchParams_toString :=
       fun pairs => String.concat "&" (List.map (fun kv => fst kv ++ "=" ++ snd kv) pairs) |}.

(** ** The MCP server: its catalog ([mcpToOpenAITools], [/mcp/tools]) *)

(** The callback of [arr.map] in [mcpToOpenAITools]. *)
Definition mcp_tool (t : value) : result value :=
  n <- get t "name" ;;
  name <- js_String (js_or n (JStr "")) ;;
  description <- js_String (js_or (prop t "description") (JStr "")) ;;
  Ok (mk_tool name description (schema_or_default (prop t "inputSchema"))).

Definition mcpToOpenAITools (tools : value) : result (list value) :=
  mapped <- map_result mcp_tool
              (match tools with JArr items => items | _ => [] end) ;;
  Ok (List.filter (fun x => truthy (prop (prop x "function") "name")) mapped).

Definition listOS_schema : value :=
  JObj [("type", JStr "object"); ("properties", JObj []);
        ("additionalProperties", JBool false)].

Definition queryOS_schema : value :=
  JObj [("type", JStr "object");
        ("properties",
         JObj [("os",
                JObj [("type", JStr "string");
                      ("description",
                       JStr "Object Structure name (e.g., mxapiasset, mxapiwo)")]);
               ("params",
                JObj [("type", JStr "object");
                      ("description",
                       JStr "OSLC query params (oslc.where, oslc.select, oslc.orderBy, oslc.pageSize)")])]);
        ("required", JArr [JStr "os"]);
        ("additionalProperties", JBool false)].

Definition MCP_NATIVE_TOOLS : value :=
  JArr [JObj [("name", JStr "maximo.listOS");
              ("description", JStr "List object structures (/os).");
              ("inputSchema", listOS_schema)];
        JObj [("name", JStr "maximo.queryOS");
              ("description", JStr "Query an object structure with OSLC params.");
              ("inputSchema", queryOS_schema)]].

(** The [/mcp/tools] route. *)
Definition mcp_tools : io backend_call http_response :=
  guarded "mcp_error"
    (tools <~ lift (mcpToOpenAITools MCP_NATIVE_TOOLS) ;;
     Ret (json 200 [("tools", JArr tools)])).

(** The object of overrides a query may carry:
    [(args.params && typeof args.params==="object") ? args.params : {}]. *)
Definition params_in (args : value) : value :=
  if js_object (prop args "params") then prop args "params" else JObj [].

(** The keys of the backend query. *)
Definition query_keys : list string :=
  ["oslc.where"; "oslc.select"; "oslc.orderBy"; "oslc.pageSize"].

(** The answer of the MCP server to a backend call that failed. *)
Definition backend_failure (status : Z) (excerpt url : string) : http_response :=
  json (status_or_500 status)
       [("error", JStr "maximo_failed"); ("detail", JStr excerpt);
        ("url", JStr url)].

(** A request for a tool the MCP server does not have. *)
Definition unknown_tool_body : value :=
  JObj [("name", JStr " maximo.deleteOS "); ("tenant", JStr "acme")].

Definition mcp_parse (text : string) : option value :=
  if String.eqb text "{delete}" then Some unknown_tool_body
  else sample_parse text.

Definition mcp_platform : Platform :=
  {| JSON_parse := mcp_parse;
     JSON_stringify := fun _ => "{...}";
     encodeURIComponent := fun s => s;
     URLSearchParams_toString :=
       fun pairs => String.concat "&" (List.map (fun kv => fst kv ++ "=" ++ snd kv) pairs) |}.

(** A backend that refuses every request. *)
Definition refusing : world backend_call :=
  fun _ _ => Response 401 "unauthorized".

(** ** The agent: environment overrides ([applyEnvOverrides]) *)

Module AppEnv.
(** The part of [process.env] that [applyEnvOverrides] reads. *)
Record t : Type := {
  OPENAI_API_KEY : option string;
  OPENAI_BASE : option string;
  MISTRAL_API_KEY : option string;
  MISTRAL_BASE : option string;
  DEEPSEEK_API_KEY : option string;
  DEEPSEEK_BASE : option string;
  MAXIMO_URL : option string;
  MAXIMO_APIKEY : option string;
  DEFAULT_SITEID : option string;
  DEFAULT_TENANT : option string;
  MCP_URL : option string;
  MCP_ENABLE_TOOLS : option string
}.
End AppEnv.

(** [target[k] = v] in a module (strict mode): the field of an object is
    set; [null], [undefined] and the primitive values throw a TypeError.  A
    named property set on an array has no counterpart in [value]: that case
    is outside the embedding (the outer [None]). *)
Definition assign_prop (target : value) (k : string) (v : value)
  : option (result value) :=
  match target with
  | JObj fields => Some (Ok (JObj (set_field k v fields)))
  | JArr _ => None
  | _ => Some (Throw ("TypeError: Cannot create property '" ++ k ++ "'"))
  end.

Definition mbind {A B : Type} (m : option (result A))
           (f : A -> option (result B)) : option (result B) :=
  match m with
  | Some (Ok a) => f a
  | Some (Throw e) => Some (Throw e)
  | None => None
  end.

(** [if (process.env.NAME) out.sec.k = conv(process.env.NAME)] *)
Definition override (out : value) (rule : string * string * option value)
  : option (result value) :=
  let '(sec, k, setting) := rule in
  match setting with
  | Some v =>
      mbind (assign_prop (prop out sec) k v)
            (fun section => assign_prop out sec section)
  | None => Some (Ok out)
  end.

(** The value an environment variable gives, when it is set and not
    empty. *)
Definition env_setting (conv : string -> value) (e : option string) : option value :=
  match e with
  | Some v => if String.eqb v "" then None else Some (conv v)
  | None => None
  end.

(** [String(v).toLowerCase()==="true"] *)
Definition parse_flag (v : string) : value :=
  JBool (String.eqb (toLowerCase v) "true").

(** The overrides, in the order of the source. *)
Definition overrides (env : AppEnv.t) : list (string * string * option value) :=
  [("ai", "openai_key", env_setting JStr (AppEnv.OPENAI_API_KEY env));
   ("ai", "openai_base", env_setting JStr (AppEnv.OPENAI_BASE env));
   ("ai", "mistral_key", env_setting JStr (AppEnv.MISTRAL_API_KEY env));
   ("ai", "mistral_base", env_setting JStr (AppEnv.MISTRAL_BASE env));
   ("ai", "deepseek_key", env_setting JStr (AppEnv.DEEPSEEK_API_KEY env));
   ("ai", "deepseek_base", env_setting JStr (AppEnv.DEEPSEEK_BASE env));
   ("maximo", "baseUrl", env_setting JStr (AppEnv.MAXIMO_URL env));
   ("maximo", "apiKey", env_setting JStr (AppEnv.MAXIMO_APIKEY env));
   ("maximo", "defaultSite", env_setting JStr (AppEnv.DEFAULT_SITEID env));
   ("maximo", "defaultTenant", env_setting JStr (AppEnv.DEFAULT_TENANT env));
   ("mcp", "url", env_setting JStr (AppEnv.MCP_URL env));
   ("mcp", "enableTools", env_setting parse_flag (AppEnv.MCP_ENABLE_TOOLS env))].

Fixpoint apply_overrides (out : value)
         (rules : list (string * string * option value)) : option (result value) :=
  match rules with
  | [] => Some (Ok out)
  | rule :: rest => mbind (override out rule) (fun out' => apply_overrides out' rest)
  end.

(** [out.sec = out.sec || {}] *)
Definition default_section (out : value) (sec : string) : option (result value) :=
  match get out sec with
  | Ok cur => assign_prop out sec (js_or cur (JObj []))
  | Throw e => Some (Throw e)
  end.

Definition applyEnvOverrides (env : AppEnv.t) (s : value) : option (result value) :=
  let out := s in
  mbind (default_section out "ai") (fun out =>
  mbind (default_section out "maximo") (fun out =>
  mbind (default_section out "mcp") (fun out =>
  mbind (assign_prop out "tenants"
           (if isArray (prop out "tenants") then prop out "tenants" else JArr []))
        (fun out => apply_overrides out (overrides env))))).

(** A section of the settings file as the agent writes it: an object, or
    nothing. *)
Definition plain_section (v : value) : Prop :=
  is_record v = true \/ truthy v = false.

(** An environment with a provider key, a backend URL and the tools flag. *)
Definition deployed_env : AppEnv.t :=
  {| AppEnv.OPENAI_API_KEY := Some "sk-env"; AppEnv.OPENAI_BASE := None;
     AppEnv.MISTRAL_API_KEY := None; AppEnv.MISTRAL_BASE := Some "";
     AppEnv.DEEPSEEK_API_KEY := None; AppEnv.DEEPSEEK_BASE := None;
     AppEnv.MAXIMO_URL := Some "https://env.example.com";
     AppEnv.MAXIMO_APIKEY := Some "ENVKEY";
     AppEnv.DEFAULT_SITEID := None; AppEnv.DEFAULT_TENANT := None;
     AppEnv.MCP_URL := None; AppEnv.MCP_ENABLE_TOOLS := Some "Yes" |}.

Definition stored_settings : list (string * value) :=
  [("ui", JObj []); ("tenants", JArr [acme]);
   ("maximo", JObj [("baseUrl", JStr "https://file.example.com");
                    ("defaultSite", JStr "texas")]);
   ("mcp", JObj [("url", JStr "http://mcp-server:8081");
                 ("enableTools", JBool true)]);
   ("ai", JObj [("openai_key", JStr "sk-file");
                ("mistral_key", JStr "m-file")])].

(** The sections [applyEnvOverrides] turns into objects. *)
Definition override_sections : list string := ["ai"; "maximo"; "mcp"].

(** The three sections of a settings object are objects. *)
Definition sections_ready (fields : list (string * value)) : Prop :=
  forall sec, In sec override_sections -> exists g, lookup sec fields = Some (JObj g).

(** The field a rule sets. *)
Definition rule_key (rule : string * string * option value) : string * string :=
  (fst (fst rule), snd (fst rule)).

(** The variable that holds the key of a provider. *)
Definition env_provider_key (env : AppEnv.t) (p : string) : option string :=
  if String.eqb p "openai" then AppEnv.OPENAI_API_KEY env
  else if String.eqb p "mistral" then AppEnv.MISTRAL_API_KEY env
  else if String.eqb p "deepseek" then AppEnv.DEEPSEEK_API_KEY env
  else None.

(** ** The agent: the [/api/models] route *)

(** The one call of the route: the list of models of a provider, with the
    [authorization] header. *)
Inductive models_call : Type :=
| ModelsFetch (url authorization : string).

Definition curated_openai : value :=
  JArr [JStr "gpt-4o-mini"; JStr "gpt-4o"; JStr "gpt-4.1-mini"; JStr "gpt-4.1"].

(** [curated[provider]] as it is serialized.  The table is an object
    literal, so the names [__proto__] and [constructor] reach
    [Object.prototype] (which serializes as the empty object) and the
    function [Object]; the latter has no counterpart in [value] and is
    handled in [models_field]. *)
Definition curated (provider : string) : value :=
  if String.eqb provider "openai" then curated_openai
  else if String.eqb provider "mistral"
  then JArr [JStr "mistral-large-latest"; JStr "mistral-small-latest";
             JStr "open-mistral-nemo"]
  else if String.eqb provider "deepseek"
  then JArr [JStr "deepseek-chat"; JStr "deepseek-reasoner"]
  else if String.eqb provider "__proto__" then JObj []
  else JUndef.

(** The field [models: curated[provider]||curated.openai] of an answer: a
    function is truthy and is left out by [JSON.stringify]. *)
Definition curated_field (provider : string) : list (string * value) :=
  if String.eqb provider "constructor" then []
  else [("models", js_or (curated provider) curated_openai)].

(** [r.json.data.map(x=>x.id).filter(Boolean)], an empty list when
    [r.json.data] is not an array. *)
Definition model_ids (json_ : value) : result (list value) :=
  match prop json_ "data" with
  | JArr items =>
      ids <- map_result (fun x => get x "id") items ;;
      Ok (List.filter truthy ids)
  | _ => Ok []
  end.

Definition api_models {P : Platform} (s : value) (body : string)
  : io models_call http_response :=
  guarded "server_error"
    (parsed <~ lift (parse_body body) ;;
     provider <~ lift (requested_provider parsed) ;;
     cfg <~ lift (providerConfig (JStr provider) s) ;;
     if negb (truthy (cfg_key cfg))
     then Ret (json 200 (curated_field provider
                         ++ [("warning", JStr "missing_api_key")])%list)
     else
       key <~ lift (js_String (cfg_key cfg)) ;;
       r <~ fetchJson (ModelsFetch (cfg_base cfg ++ "/v1/models") ("Bearer " ++ key)) ;;
       if negb (f_ok r) || negb (truthy (f_json r))
       then Ret (json 200 (curated_field provider
                           ++ [("warning",
                                JStr ("models_failed_"
                                      ++ NilZero.string_of_int (Z.to_int (f_status r))))])%list)
       else
         ids <~ lift (model_ids (f_json r)) ;;
         Ret (json 200 (match ids with
                        | [] => curated_field provider
                        | _ => [("models", JArr ids)]
                        end))).


(** ** The agent: the guard of [serveStatic] *)

(** [p.replace(/\.\./g, "")]: every pair of dots is removed, from left to
    right. *)
Fixpoint remove_dotdot (p : string) : string :=
  match p with
  | EmptyString => EmptyString
  | String c rest =>
      match rest with
      | String c' rest' =>
          if Ascii.eqb c "." && Ascii.eqb c' "." then remove_dotdot rest'
          else String c (remove_dotdot rest)
      | EmptyString => String c EmptyString
      end
  end.

(** The string has two dots in a row somewhere. *)
Fixpoint has_dotdot (p : string) : bool :=
  match p with
  | EmptyString => false
  | String c rest =>
      match rest with
      | String c' _ => (Ascii.eqb c "." && Ascii.eqb c' ".") || has_dotdot rest
      | EmptyString => false
      end
  end.

(** ** The agent: the [/api/maximo/query] route *)

(** [s.split(",")] *)
Fixpoint split_comma (s : string) : list string :=
  match s with
  | EmptyString => [EmptyString]
  | String c rest =>
      if Ascii.eqb c ","
      then EmptyString :: split_comma rest
      else match split_comma rest with
           | piece :: pieces => String c piece :: pieces
           | [] => [String c EmptyString]
           end
  end.

Definition default_select : string :=
  "assetnum,description,siteid,location,status,assettype,changedate".

(** [select.split(",").map(x=>x.trim()).filter(Boolean)] *)
Definition columns : list string :=
  List.filter (fun x => negb (String.eqb x ""))
              (List.map trim (split_comma default_select)).

(** [r.json.member || r.json["rdfs:member"] || []], when it is an array. *)
Definition members (json_ : value) : list value :=
  match js_or (js_or (prop json_ "member") (prop json_ "rdfs:member")) (JArr []) with
  | JArr items => items
  | _ => []
  end.

(** [Object.fromEntries(cols.map(c => [c, o?.[c] ?? ""]))] (the columns
    are distinct). *)
Definition table_row (o : value) : value :=
  JObj (List.map (fun c => (c, js_coalesce (oget o c) (JStr ""))) columns).

Definition table_rows (json_ : value) : list value :=
  List.map table_row (members json_).

Definition maximo_query {P : Platform} (s : value) (body : string)
  : io backend_call http_response :=
  guarded "server_error"
    (parsed <~ lift (parse_body body) ;;
     maximo <~ lift (get s "maximo") ;;
     let baseUrl := oget maximo "baseUrl" in
     let apiKey := oget maximo "apiKey" in
     if negb (truthy baseUrl) || negb (truthy apiKey)
     then Ret (json 400 [("error", JStr "missing_maximo_config");
                         ("detail", JStr "Set MAXIMO_URL and MAXIMO_APIKEY as env/secret.")])
     else
       api <~ lift (maximoApiBase baseUrl) ;;
       os <~ lift (x <- get parsed "os" ;;
                   o <- js_String (js_or x (JStr "mxapiasset")) ;;
                   Ok (trim o)) ;;
       site0 <~ lift (js_String (js_or (oget maximo "defaultSite") (JStr ""))) ;;
       let site := toUpperCase site0 in
       let where_ :=
         if negb (String.eqb site "") then "siteid=" ++ dquote ++ site ++ dquote
         else "" in
       orderBy <~ lift (normalizeOrderBy (JStr "-changedate")) ;;
       let params :=
         ((if negb (String.eqb where_ "") then [("oslc.where", where_)] else [])
          ++ [("oslc.select", default_select); ("oslc.orderBy", orderBy);
              ("oslc.pageSize", "100")])%list in
       let url := api ++ "/os/" ++ encodeURIComponent os ++ "?"
                  ++ URLSearchParams_toString params in
       r <~ fetchJson (BackendGet url apiKey) ;;
       if negb (f_ok r) || negb (truthy (f_json r))
       then Ret (json (status_or_500 (f_status r))
                      [("error", JStr "maximo_failed");
                       ("detail", JStr (slice0 600 (f_text r)));
                       ("url", JStr url)])
       else
         let data := table_rows (f_json r) in
         Ret (json 200
                [("summary",
                  JStr ("Retrieved " ++ index_key (List.length data)
                        ++ " row(s) from Maximo."));
                 ("table",
                  JObj [("title", JStr ("Results · " ++ os));
                        ("columns", JArr (List.map JStr columns));
                        ("rows", JArr data)])])).

(** A row of the table: one value for each column, in the order of the
    columns, none of them [null] or [undefined]. *)
Definition complete_row (row : value) : Prop :=
  exists fields,
    row = JObj fields
    /\ List.map fst fields = columns
    /\ Forall (fun kv => nullish (snd kv) = false) fields.

(** The answer is a table of complete rows, with their number in the
    summary. *)
Definition complete_table (resp : http_response) : Prop :=
  exists rows,
    prop (prop (http_body resp) "table") "rows" = JArr rows
    /\ Forall complete_row rows
    /\ prop (http_body resp) "summary"
       = JStr ("Retrieved " ++ index_key (List.length rows) ++ " row(s) from Maximo.").

Definition direct_settings : value :=
  JObj [("maximo", JObj [("baseUrl", JStr "https://mas.example.com/");
                         ("apiKey", JStr "KEY"); ("defaultSite", JStr "bedford")])].

Definition assets_parse (text : string) : option value :=
  if String.eqb text "{assets}"
  then Some (JObj [("member",
                    JArr [JObj [("assetnum", JStr "1001"); ("status", JNull);
                                ("extra", JNum 1)];
                          JNull])])
  else sample_parse text.

Definition assets_platform : Platform :=
  {| JSON_parse := assets_parse;
     JSON_stringify := fun _ => "{...}";
     encodeURIComponent := fun s => s;
     URLSearchParams_toString :=
       fun pairs => String.concat "&" (List.map (fun kv => fst kv ++ "=" ++ snd kv) pairs) |}.

Module StringExamples.
Example trim_both : trim "  a b	 " = "a b".
Proof. reflexivity. Qed.
Example trim_blank : trim "   " = "".
Proof. reflexivity. Qed.
Example strip_slash : replace_suffix "/" "" "http://h/" = "http://h".
Proof. reflexivity. Qed.
Example strip_one_slash : replace_suffix "/" "" "http://h//" = "http://h/".
Proof. reflexivity. Qed.
Example upper : toUpperCase "Bedford-1" = "BEDFORD-1".
Proof. reflexivity. Qed.
Example string_of_array :
  js_String (JArr [JStr "a"; JNull; JNum 12; JArr []]) = Ok "a,,12,".
Proof. reflexivity. Qed.
Example string_of_empty_array : js_String (JArr []) = Ok "".
Proof. reflexivity. Qed.
End StringExamples.

Module NormalizerExamples.

Example mixed_catalog :
  toOpenAITools (JArr [native_query; JNull; JObj [("name", JStr "  ")];
                       ready_list; JObj [("name", JNum 7)]])
  = Ok [mk_tool "maximo.queryOS" "Query" (JObj [("type", JStr "object")]);
        ready_list;
        mk_tool "7" "" open_schema].
Proof. reflexivity. Qed.

Example not_an_array : toOpenAITools (JObj [("tools", JArr [])]) = Ok [].
Proof. reflexivity. Qed.

Example array_schema_kept :
  toOpenAITools (JArr [JObj [("name", JStr "q"); ("inputSchema", JArr [JNum 1])]])
  = Ok [mk_tool "q" "" (JArr [JNum 1])].
Proof. reflexivity. Qed.

Example array_name_prints_empty :
  toOpenAITools (JArr [JObj [("type", JStr "function");
                             ("function", JObj [("name", JArr [])])]])
  = Ok [mk_tool "" "" open_schema].
Proof. reflexivity. Qed.

Example description_that_cannot_print :
  toOpenAITools (JArr [JObj [("name", JStr "q");
                             ("description", JObj [("toString", JNum 1)])]])
  = Throw "TypeError: Cannot convert object to primitive value".
Proof. reflexivity. Qed.
End NormalizerExamples.

(** ** The normalizer *)

Lemma js_object_schema_or_default (p : value) :
  js_object (schema_or_default p) = true.
Proof.
  unfold schema_or_default, js_object.
  destruct (truthy p && typeof_object p) eqn:E; [exact E | reflexivity].
Qed.

Lemma schema_or_default_object (p : value) :
  js_object p = true -> schema_or_default p = p.
Proof. unfold schema_or_default, js_object. intros ->. reflexivity. Qed.

Lemma schema_or_default_other (p : value) :
  js_object p = false -> schema_or_default p = open_schema.
Proof. unfold schema_or_default, js_object. intros ->. reflexivity. Qed.

Lemma schema_or_default_twice (p : value) :
  schema_or_default (schema_or_default p) = schema_or_default p.
Proof. apply schema_or_default_object, js_object_schema_or_default. Qed.

Lemma rbind_Ok {A B : Type} (m : result A) (f : A -> result B) (b : B) :
  rbind m f = Ok b -> exists a, m = Ok a /\ f a = Ok b.
Proof. destruct m as [a|e]; simpl; intros H; [eauto | discriminate]. Qed.

Ltac bind_inv H :=
  let x := fresh "x" in
  let Hx := fresh "Hx" in
  apply rbind_Ok in H; destruct H as (x & Hx & H).

Lemma truthy_JStr (s : string) : truthy (JStr s) = true <-> s <> "".
Proof.
  simpl. rewrite negb_true_iff. apply String.eqb_neq.
Qed.

Lemma convert_tool_kept (t tool : value) :
  convert_tool t = Ok (Some tool) -> emitted_for t tool.
Proof.
  unfold convert_tool, emitted_for, source_schema, source_description.
  destruct (canonical_shape t) eqn:Hshape; intros H.
  - apply rbind_Ok in H. destruct H as (name & Hname & H).
    apply rbind_Ok in H. destruct H as (description & Hdescr & H).
    injection H as <-.
    exists name, description,
      (schema_or_default (prop (prop t "function") "parameters")).
    split; [reflexivity|]. split; [exact Hname|]. split.
    { intros s _ Hs. rewrite Hs in Hname. injection Hname as <-.
      split; [reflexivity|].
      unfold canonical_shape in Hshape. rewrite !andb_true_iff in Hshape.
      destruct Hshape as (_ & Hn). rewrite Hs in Hn. now apply truthy_JStr. }
    split; [exact Hdescr|]. split; [apply js_object_schema_or_default|].
    split; intros Ho;
      [now apply schema_or_default_object | now apply schema_or_default_other].
  - apply rbind_Ok in H. destruct H as (s & Hs & H).
    destruct (String.eqb (trim s) "") eqn:Hblank; [discriminate|].
    apply rbind_Ok in H. destruct H as (description & Hdescr & H).
    injection H as <-.
    exists (trim s), description, (schema_or_default (oget t "inputSchema")).
    split; [reflexivity|]. split.
    { exists s. repeat split; [exact Hs | now apply String.eqb_neq]. }
    split; [discriminate|].
    split; [exact Hdescr|]. split; [apply js_object_schema_or_default|].
    split; intros Ho;
      [now apply schema_or_default_object | now apply schema_or_default_other].
Qed.

Lemma convert_tool_dropped (t : value) :
  convert_tool t = Ok None -> lacks_name t.
Proof.
  unfold convert_tool, lacks_name.
  destruct (canonical_shape t) eqn:Hshape; intros H.
  - bind_inv H. bind_inv H. discriminate.
  - split; [reflexivity|]. bind_inv H. exists x. split; [assumption|].
    destruct (String.eqb (trim x) "") eqn:Hname.
    + now apply String.eqb_eq.
    + bind_inv H. discriminate.
Qed.

Lemma convert_tools_kept_in_order (l out : list value) :
  convert_tools l = Ok out -> kept_in_order l out.
Proof.
  revert out. induction l as [|t l IH]; simpl; intros out H.
  - injection H as <-. constructor.
  - bind_inv H. bind_inv H. injection H as <-.
    destruct x as [tool|].
    + apply kept_keep; [now apply convert_tool_kept | now apply IH].
    + apply kept_drop; [now apply convert_tool_dropped | now apply IH].
Qed.

Lemma js_String_scalar (v : value) :
  scalar v = true -> exists s, js_String v = Ok s.
Proof.
  destruct v as [| |[|]|n|s|l|f]; simpl; intros H;
    try discriminate; eauto.
Qed.

Lemma scalar_js_or (a : value) :
  scalar a = true -> scalar (js_or a (JStr "")) = true.
Proof. unfold js_or. destruct (truthy a); auto. Qed.

Lemma convert_tool_returns (t : value) :
  plain_record t -> exists o, convert_tool t = Ok o.
Proof.
  intros (Hfn & Hfd & Hn & Hd). unfold convert_tool.
  destruct (canonical_shape t).
  - destruct (js_String_scalar _ Hfn) as (n & ->).
    destruct (js_String_scalar _ (scalar_js_or _ Hfd)) as (d & ->).
    simpl. eauto.
  - destruct (js_String_scalar _ (scalar_js_or _ Hn)) as (n & ->).
    simpl. destruct (String.eqb (trim n) ""); [eauto|].
    destruct (js_String_scalar _ (scalar_js_or _ Hd)) as (d & ->).
    simpl. eauto.
Qed.

(** The normalizer returns on every catalog whose names and descriptions
    are scalars, and on everything that is not an array. *)
Lemma toOpenAITools_returns (rawTools : value) :
  (forall items, rawTools = JArr items -> Forall plain_record items) ->
  exists out, toOpenAITools rawTools = Ok out.
Proof.
  unfold toOpenAITools. destruct rawTools; try (simpl; eauto; fail).
  intros H. specialize (H _ eq_refl).
  induction H as [|t l Ht _ IH]; simpl; [eauto|].
  destruct (convert_tool_returns t Ht) as (o & ->).
  destruct IH as (out & ->). simpl. eauto.
Qed.

(** C4, as amended.  Whenever the normalizer returns, its output lists, in
    the order of the input, one tool per record that has a usable name.  Each
    tool has type ["function"], a string name, a string description and a
    [parameters] field that is a non-null JavaScript object: the schema of
    the record, untouched, when that is a non-null object (an array passes),
    and the open object schema otherwise.  The name is not empty for a
    broker-native record and for a canonical record whose name is a string.
    The records left out are those that are not of the canonical shape and
    whose name prints as blank. *)
Theorem toOpenAITools_kept_in_order (rawTools : value) (out : list value) :
  toOpenAITools rawTools = Ok out ->
  kept_in_order (match rawTools with JArr items => items | _ => [] end) out.
Proof. apply convert_tools_kept_in_order. Qed.

Lemma toOpenAITools_kept_in_order_witness :
  kept_in_order [native_query; JNull; ready_list]
    [mk_tool "maximo.queryOS" "Query" (JObj [("type", JStr "object")]);
     ready_list].
Proof.
  apply (toOpenAITools_kept_in_order (JArr [native_query; JNull; ready_list])).
  reflexivity.
Defined.

(** C4 as stated fails: an array given as schema is emitted as the
    [parameters] of the tool, and a function name that is an empty array
    yields a tool whose name is the empty string. *)
Lemma toOpenAITools_not_always_wellformed :
  ~ emits_wellformed array_schema_catalog /\
  ~ emits_wellformed array_name_catalog.
Proof.
  split; intros H; specialize (H _ eq_refl);
    inversion H as [|tool rest (n & d & p & Heq & Hn & Hp) _]; subst;
    injection Heq as <- <- <-.
  - discriminate Hp.
  - now apply Hn.
Qed.

Lemma canonical_shape_mk_tool (n d : string) (p : value) :
  n <> "" -> canonical_shape (mk_tool n d p) = true.
Proof. intros Hn. unfold canonical_shape. simpl. now apply truthy_JStr. Qed.

Lemma convert_tool_mk_tool (n d : string) (p : value) :
  n <> "" -> js_object p = true ->
  convert_tool (mk_tool n d p) = Ok (Some (mk_tool n d p)).
Proof.
  intros Hn Hp. unfold convert_tool.
  rewrite (@canonical_shape_mk_tool n d p Hn). simpl.
  rewrite (schema_or_default_object _ Hp).
  unfold js_or. simpl. now destruct (String.eqb_spec d "") as [->|_].
Qed.

Lemma kept_canonical_fixed (l out : list value) :
  kept_in_order l out -> Forall canonical_form l -> convert_tools out = Ok out.
Proof.
  induction 1 as [|t l out (Hno & _) _ IH|t l out tool Hem _ IH];
    intros Hall; [reflexivity| |]; inversion Hall as [|? ? (Hc & s & Hs) Hl]; subst.
  - congruence.
  - destruct Hem as (n & d & p & -> & _ & Hname & _ & Hp & _).
    destruct (Hname s Hc Hs) as (-> & Hne).
    simpl convert_tools. rewrite (@convert_tool_mk_tool s d p Hne Hp).
    simpl. now rewrite (IH Hl).
Qed.

(** C8.  On a sequence of records in canonical form, normalizing the
    normalized sequence gives the normalized sequence again. *)
Theorem toOpenAITools_idempotent (x : list value) :
  Forall canonical_form x ->
  (out <- toOpenAITools (JArr x) ;; toOpenAITools (JArr out))
  = toOpenAITools (JArr x).
Proof.
  intros Hx. destruct (toOpenAITools (JArr x)) as [out|e] eqn:E; [|reflexivity].
  simpl. unfold toOpenAITools in *.
  apply kept_canonical_fixed with (l := x); [|assumption].
  now apply convert_tools_kept_in_order.
Qed.

Lemma toOpenAITools_idempotent_witness :
  Forall canonical_form verbose_catalog /\
  (out <- toOpenAITools (JArr verbose_catalog) ;; toOpenAITools (JArr out))
  = Ok [ready_list; mk_tool "maximo.queryOS" "" open_schema].
Proof.
  assert (H : Forall canonical_form verbose_catalog).
  { unfold verbose_catalog.
    constructor; [|constructor; [|constructor]];
      (split; [reflexivity | eexists; reflexivity]). }
  split; [exact H|].
  rewrite (toOpenAITools_idempotent _ H). reflexivity.
Defined.

(** ** Ordering tokens *)

Module OrderExamples.
Example desc_word : normalizeOrderBy (JStr "changedate desc") = Ok "-changedate".
Proof. reflexivity. Qed.
Example desc_word_upper : normalizeOrderBy (JStr "changedate   DESC") = Ok "-changedate".
Proof. reflexivity. Qed.
Example asc_word : normalizeOrderBy (JStr "asset.num Asc") = Ok "+asset.num".
Proof. reflexivity. Qed.
Example marked : normalizeOrderBy (JStr "-changedate") = Ok "-changedate".
Proof. reflexivity. Qed.
Example bare : normalizeOrderBy (JStr "changedate") = Ok "+changedate".
Proof. reflexivity. Qed.
Example two_fields : normalizeOrderBy (JStr "a, b desc") = Ok "+a, b desc".
Proof. reflexivity. Qed.
Example blank : normalizeOrderBy (JStr "   ") = Ok "".
Proof. reflexivity. Qed.
Example missing : normalizeOrderBy JUndef = Ok "".
Proof. reflexivity. Qed.
Example padded_mark : normalizeOrderBy (JStr " -a ") = Ok "-a".
Proof. reflexivity. Qed.
End OrderExamples.

Section TrimFacts.

Lemma trim_start_head (s : string) : head_fails is_ws (trim_start s) = true.
Proof.
  induction s as [|c s IH]; simpl; [reflexivity|].
  destruct (is_ws c) eqn:E; [exact IH | simpl; now rewrite E].
Qed.

Lemma trim_start_fixed (s : string) :
  head_fails is_ws s = true -> trim_start s = s.
Proof.
  destruct s as [|c s]; simpl; [reflexivity|].
  now destruct (is_ws c).
Qed.

Lemma trim_end_head (s : string) :
  head_fails is_ws s = true -> head_fails is_ws (trim_end s) = true.
Proof.
  destruct s as [|c s]; simpl; [reflexivity|]. intros H.
  destruct (trim_end s); simpl; [|exact H].
  destruct (is_ws c) eqn:W; [reflexivity | simpl; now rewrite W].
Qed.

Lemma trim_end_cons (c : ascii) (s : string) :
  trim_end s <> "" -> trim_end (String c s) = String c (trim_end s).
Proof. simpl. destruct (trim_end s); [congruence | reflexivity]. Qed.

Lemma trim_end_twice (s : string) : trim_end (trim_end s) = trim_end s.
Proof.
  induction s as [|c s IH]; simpl; [reflexivity|].
  destruct (trim_end s) as [|c' r] eqn:E.
  - destruct (is_ws c) eqn:W; simpl; [reflexivity | now rewrite W].
  - rewrite trim_end_cons; rewrite IH; congruence.
Qed.

Lemma trim_twice (s : string) : trim (trim s) = trim s.
Proof.
  unfold trim.
  rewrite (trim_start_fixed (trim_end (trim_start s))).
  - apply trim_end_twice.
  - apply trim_end_head, trim_start_head.
Qed.

Lemma trim_end_no_ws (s : string) :
  string_forall (fun c => negb (is_ws c)) s = true -> trim_end s = s.
Proof.
  induction s as [|c s IH]; simpl; [reflexivity|].
  rewrite andb_true_iff, negb_true_iff. intros (Hc & Hs).
  rewrite (IH Hs). destruct s; [now rewrite Hc | reflexivity].
Qed.

Lemma trim_marked (c : ascii) (s : string) :
  is_ws c = false -> trim_end s = s -> s <> "" ->
  trim (String c s) = String c s.
Proof.
  intros Hc Hs Hne. unfold trim. simpl trim_start. rewrite Hc.
  rewrite trim_end_cons; rewrite Hs; congruence.
Qed.

End TrimFacts.

Section SpanFacts.
Variable p : ascii -> bool.

Lemma span_forall (s a b : string) :
  span p s = (a, b) ->
  s = a ++ b /\ string_forall p a = true /\ head_fails p b = true.
Proof.
  revert a b. induction s as [|c s IH]; simpl; intros a b H.
  - injection H as <- <-. auto.
  - destruct (p c) eqn:Hc.
    + destruct (span p s) as [a' b'] eqn:E. injection H as <- <-.
      destruct (IH _ _ eq_refl) as (-> & Ha & Hb).
      simpl. rewrite Hc. auto.
    + injection H as <- <-. simpl. rewrite Hc. auto.
Qed.

Lemma span_app (a b : string) :
  string_forall p a = true -> head_fails p b = true -> span p (a ++ b) = (a, b).
Proof.
  intros Ha Hb. induction a as [|c a IH]; simpl in *.
  - destruct b as [|c b]; simpl in *; [reflexivity|].
    apply negb_true_iff in Hb. now rewrite Hb.
  - apply andb_true_iff in Ha. destruct Ha as (Hc & Ha).
    rewrite Hc, (IH Ha). reflexivity.
Qed.

End SpanFacts.

Lemma field_char_not_ws (c : ascii) : is_field_char c = true -> is_ws c = false.
Proof.
  destruct c as [[] [] [] [] [] [] [] []]; intros H;
    try reflexivity; discriminate H.
Qed.

Lemma ws_not_field_char (c : ascii) : is_ws c = true -> is_field_char c = false.
Proof.
  intros H. destruct (is_field_char c) eqn:E; [|reflexivity].
  apply field_char_not_ws in E. congruence.
Qed.

Lemma direction_word_head (dir : string) :
  toLowerCase dir = "asc" \/ toLowerCase dir = "desc" ->
  dir <> "" /\ head_fails is_ws dir = true.
Proof.
  destruct dir as [|c dir]; simpl; [intros [H|H]; discriminate H|].
  intros H. split; [discriminate|].
  assert (Hc : lower_ascii c = "a"%char \/ lower_ascii c = "d"%char).
  { destruct H as [H|H]; injection H; auto. }
  clear H. destruct c as [[] [] [] [] [] [] [] []];
    try reflexivity; destruct Hc as [Hc|Hc]; discriminate Hc.
Qed.

Lemma field_no_ws (field : string) :
  string_forall is_field_char field = true ->
  string_forall (fun c => negb (is_ws c)) field = true.
Proof.
  induction field as [|c s IH]; simpl; [reflexivity|].
  rewrite !andb_true_iff. intros (Hc & Hs).
  split; [now rewrite (field_char_not_ws _ Hc) | now apply IH].
Qed.

Lemma match_order_sound (s field dir : string) :
  match_order s = Some (field, dir) -> direction_form s field dir.
Proof.
  unfold match_order, direction_form.
  destruct (span is_field_char s) as [f rest] eqn:E1.
  destruct (span is_ws rest) as [ws d] eqn:E2.
  destruct (span_forall _ _ _ _ E1) as (-> & Hf & _).
  destruct (span_forall _ _ _ _ E2) as (-> & Hws & _).
  destruct (negb (String.eqb f "") && negb (String.eqb ws "")
            && (String.eqb (toLowerCase d) "asc" || String.eqb (toLowerCase d) "desc"))
    eqn:Hguard; [|discriminate].
  intros H. injection H as <- <-.
  rewrite !andb_true_iff, !negb_true_iff, orb_true_iff in Hguard.
  destruct Hguard as ((Hf0 & Hws0) & Hd).
  exists ws. repeat split; try assumption.
  - now apply String.eqb_neq.
  - now apply String.eqb_neq.
  - rewrite !String.eqb_eq in Hd. exact Hd.
Qed.

Lemma match_order_complete (s field dir : string) :
  direction_form s field dir -> match_order s = Some (field, dir).
Proof.
  intros (ws & -> & Hf0 & Hf & Hws0 & Hws & Hd). unfold match_order.
  destruct (direction_word_head dir Hd) as (_ & Hhead).
  rewrite (span_app is_field_char field (ws ++ dir) Hf).
  - rewrite (span_app is_ws ws dir Hws Hhead).
    apply String.eqb_neq in Hf0, Hws0. rewrite Hf0, Hws0. simpl.
    destruct Hd as [Hd|Hd]; rewrite Hd; reflexivity.
  - destruct ws as [|c ws]; [congruence|]. simpl in *.
    apply andb_true_iff in Hws. destruct Hws as (Hc & _).
    now rewrite (ws_not_field_char _ Hc).
Qed.

Lemma prefixed_nonempty (s : string) : prefixed s = true -> s <> "".
Proof. intros H ->. discriminate H. Qed.

Lemma direction_form_unmarked (s field dir : string) :
  direction_form s field dir -> s <> "" /\ prefixed s = false.
Proof.
  intros (ws & -> & Hf0 & Hf & _).
  destruct field as [|c field]; [congruence|]. split; [discriminate|].
  simpl in Hf. apply andb_true_iff in Hf. destruct Hf as (Hc & _).
  clear -Hc. destruct c as [[] [] [] [] [] [] [] []];
    try reflexivity; discriminate Hc.
Qed.

Lemma order_token_marked (s : string) :
  prefixed (trim s) = true -> order_token s = trim s.
Proof.
  intros H. unfold order_token.
  pose proof (prefixed_nonempty _ H) as Hne. apply String.eqb_neq in Hne.
  rewrite Hne. unfold prefixed in H. now rewrite H.
Qed.

Lemma order_token_direction (s field dir : string) :
  direction_form (trim s) field dir ->
  order_token s
  = (if String.eqb (toLowerCase dir) "desc" then "-" else "+") ++ field.
Proof.
  intros H. unfold order_token.
  destruct (direction_form_unmarked _ _ _ H) as (Hne & Hun).
  apply String.eqb_neq in Hne. rewrite Hne.
  unfold prefixed in Hun. rewrite Hun.
  rewrite (match_order_complete _ _ _ H).
  now destruct (String.eqb (toLowerCase dir) "desc").
Qed.

Lemma order_token_other (s : string) :
  trim s <> "" -> prefixed (trim s) = false ->
  (forall field dir, ~ direction_form (trim s) field dir) ->
  order_token s = "+" ++ trim s.
Proof.
  intros Hne Hun Hno. unfold order_token.
  apply String.eqb_neq in Hne. rewrite Hne.
  unfold prefixed in Hun. rewrite Hun.
  destruct (match_order (trim s)) as [[field dir]|] eqn:E; [|reflexivity].
  exfalso. apply (Hno field dir). now apply match_order_sound.
Qed.

(** Every token produced is empty or marked, and has no white space around
    it. *)
Lemma order_token_shape (s : string) :
  trim (order_token s) = order_token s
  /\ (order_token s = "" \/ prefixed (order_token s) = true).
Proof.
  unfold order_token.
  destruct (String.eqb (trim s) "") eqn:E0; [now auto|].
  apply String.eqb_neq in E0.
  destruct (startsWith "+" (trim s) || startsWith "-" (trim s)) eqn:Ep.
  - split; [apply trim_twice | now right].
  - assert (Hend : trim_end (trim s) = trim s) by apply trim_end_twice.
    destruct (match_order (trim s)) as [[field dir]|] eqn:E.
    + destruct (match_order_sound _ _ _ E) as (ws & _ & Hf0 & Hf & _).
      pose proof (trim_end_no_ws _ (field_no_ws _ Hf)) as Hfield.
      destruct (String.eqb (toLowerCase dir) "desc");
        (split; [apply trim_marked; [reflexivity | assumption | assumption]
                | right; reflexivity]).
    + split; [apply trim_marked; [reflexivity | assumption | assumption]
             | right; reflexivity].
Qed.

Lemma order_token_twice (s : string) :
  order_token (order_token s) = order_token s.
Proof.
  destruct (order_token_shape s) as (Htrim & [H0|Hp]).
  - rewrite H0. reflexivity.
  - rewrite <- Htrim at 2. apply order_token_marked. now rewrite Htrim.
Qed.

Lemma normalizeOrderBy_string (s : string) :
  normalizeOrderBy (JStr s) = Ok (order_token s).
Proof.
  unfold normalizeOrderBy, js_or. simpl.
  now destruct (String.eqb_spec s "") as [->|_].
Qed.

(** C6.  The conversion of an ordering into a token returns on every
    string.  White space around the ordering is trimmed first; then a token
    that starts with [+] or [-] is returned as it is, a field followed by a
    direction word in any case becomes the field marked with [-] for desc
    and [+] for asc, and any other ordering that is not blank is returned
    marked with [+].  The three orderings of the specification convert as
    documented, and converting a converted token changes nothing. *)
Theorem normalizeOrderBy_conversion :
  (forall s, exists t, normalizeOrderBy (JStr s) = Ok t)
  /\ (forall s, prefixed (trim s) = true ->
        normalizeOrderBy (JStr s) = Ok (trim s))
  /\ (forall s field dir, direction_form (trim s) field dir ->
        normalizeOrderBy (JStr s)
        = Ok ((if String.eqb (toLowerCase dir) "desc" then "-" else "+")
              ++ field))
  /\ (forall s, trim s <> "" -> prefixed (trim s) = false ->
        (forall field dir, ~ direction_form (trim s) field dir) ->
        normalizeOrderBy (JStr s) = Ok ("+" ++ trim s))
  /\ normalizeOrderBy (JStr "changedate desc") = Ok "-changedate"
  /\ normalizeOrderBy (JStr "-changedate") = Ok "-changedate"
  /\ normalizeOrderBy (JStr "changedate") = Ok "+changedate"
  /\ (forall s t, normalizeOrderBy (JStr s) = Ok t ->
        normalizeOrderBy (JStr t) = Ok t).
Proof.
  repeat split; try reflexivity.
  - intros s. rewrite normalizeOrderBy_string. eauto.
  - intros s H. rewrite normalizeOrderBy_string. f_equal.
    now apply order_token_marked.
  - intros s field dir H. rewrite normalizeOrderBy_string. f_equal.
    now apply order_token_direction.
  - intros s H1 H2 H3. rewrite normalizeOrderBy_string. f_equal.
    now apply order_token_other.
  - intros s t. rewrite !normalizeOrderBy_string. intros H.
    injection H as <-. f_equal. apply order_token_twice.
Qed.

Lemma normalizeOrderBy_conversion_witness :
  normalizeOrderBy (JStr " -wonum ") = Ok "-wonum"
  /\ normalizeOrderBy (JStr "status   DeSc") = Ok "-status"
  /\ normalizeOrderBy (JStr "siteid, wonum") = Ok "+siteid, wonum"
  /\ normalizeOrderBy (JStr "+siteid, wonum") = Ok "+siteid, wonum".
Proof.
  destruct normalizeOrderBy_conversion
    as (_ & Hmarked & Hdir & Hother & _ & _ & _ & Htwice).
  split; [|split; [|split]].
  - apply (Hmarked " -wonum "). reflexivity.
  - apply (Hdir "status   DeSc" "status" "DeSc").
    exists "   ". repeat split; try discriminate. now right.
  - apply (Hother "siteid, wonum").
    + discriminate.
    + reflexivity.
    + intros field dir H. apply match_order_complete in H. discriminate H.
  - apply (Htwice "siteid, wonum"). reflexivity.
Defined.

(** ** Tenant resolution *)

Module TenantExamples.
Example exact_match :
  resolveTenant no_env (settings_with [fallback_tenant; acme] global_maximo)
                (JStr "acme")
  = Ok {| rt_id := "acme";
          rt_baseUrl := "https://acme.example.com/maximo";
          rt_apiBase := "https://acme.example.com/maximo/api";
          rt_apiKey := JStr "FILEKEY"; rt_site := "BEDFORD";
          rt_org := JStr "EAGLENA" |}.
Proof. reflexivity. Qed.

Example falls_to_default :
  resolveTenant secret_env (settings_with [fallback_tenant; acme] global_maximo)
                (JStr "other")
  = Ok {| rt_id := "other";
          rt_baseUrl := "https://mas.example.com/maximo";
          rt_apiBase := "https://mas.example.com/maximo/api";
          rt_apiKey := JStr "ENVKEY"; rt_site := "TEXAS";
          rt_org := JStr "" |}.
Proof. reflexivity. Qed.

Example nothing_configured :
  resolveTenant no_env (settings_with [acme] (JObj [])) (JStr "other")
  = Ok {| rt_id := "other"; rt_baseUrl := ""; rt_apiBase := "";
          rt_apiKey := JStr ""; rt_site := ""; rt_org := JStr "" |}.
Proof. reflexivity. Qed.

Example null_entry_throws :
  exists msg,
    resolveTenant no_env (settings_with [JNull] (JObj [])) (JStr "other")
    = Throw msg.
Proof. eexists. reflexivity. Qed.
End TenantExamples.

Lemma scalar_js_or2 (a b : value) :
  scalar a = true -> scalar b = true -> scalar (js_or a b) = true.
Proof. unfold js_or. now destruct (truthy a). Qed.

Lemma scalar_env_value (o : option string) : scalar (env_value o) = true.
Proof. now destruct o. Qed.

Lemma first_truthy_three (a b c : value) :
  js_or (js_or (js_or a b) c) (JStr "") = first_truthy [a; b; c].
Proof.
  unfold js_or. simpl.
  destruct (truthy a) eqn:Ha; [now rewrite !Ha|].
  destruct (truthy b) eqn:Hb; [now rewrite !Hb|].
  destruct (truthy c) eqn:Hc; reflexivity.
Qed.

Lemma first_truthy_two (a b : value) :
  js_or (js_or a b) (JStr "") = first_truthy [a; b].
Proof.
  unfold js_or. simpl.
  destruct (truthy a) eqn:Ha; [now rewrite !Ha|].
  destruct (truthy b) eqn:Hb; reflexivity.
Qed.

Lemma first_truthy_skip (a : value) (rest : list value) :
  truthy a = false -> first_truthy (a :: rest) = first_truthy rest.
Proof. simpl. now intros ->. Qed.

Lemma find_tenant_records (id : string) (tenants : list value) :
  Forall tenant_record tenants ->
  find_tenant id tenants
  = Ok (match List.find (has_id id) tenants with
        | Some x => x
        | None => JUndef
        end).
Proof.
  induction 1 as [|x l (Hrec & Hid & _) _ IH]; [reflexivity|].
  cbn [find_tenant List.find]. unfold get, has_id.
  destruct x; try discriminate Hrec. cbn [nullish rbind].
  destruct (js_String_scalar _ Hid) as (s & Hs). rewrite Hs. cbn [rbind].
  destruct (String.eqb s id); [reflexivity | exact IH].
Qed.

Lemma find_tenant_record (id : string) (tenants : list value) (x : value) :
  Forall tenant_record tenants ->
  List.find (has_id id) tenants = Some x -> tenant_record x.
Proof.
  intros Hall Hfind. apply List.find_some in Hfind.
  rewrite Forall_forall in Hall. now apply Hall.
Qed.

Lemma choose_tenant_first_of (id : string) (tenants : list value) :
  Forall tenant_record tenants ->
  choose_tenant tenants id = Ok (first_of id tenants).
Proof.
  intros Hall. unfold choose_tenant, first_of.
  rewrite (find_tenant_records id tenants Hall). simpl.
  destruct (List.find (has_id id) tenants) as [x|] eqn:E.
  - destruct (find_tenant_record _ _ _ Hall E) as (Hrec & _).
    destruct x; try discriminate Hrec. reflexivity.
  - simpl. rewrite (find_tenant_records "default" tenants Hall). simpl.
    destruct (List.find (has_id "default") tenants) as [x|] eqn:E'; [|reflexivity].
    destruct (find_tenant_record _ _ _ Hall E') as (Hrec & _).
    destruct x; try discriminate Hrec. reflexivity.
Qed.

Lemma first_of_fields (id : string) (tenants : list value) :
  Forall tenant_record tenants ->
  scalar (prop (first_of id tenants) "maximoBaseUrl") = true
  /\ scalar (prop (first_of id tenants) "site") = true.
Proof.
  intros Hall. unfold first_of.
  destruct (List.find (has_id id) tenants) as [x|] eqn:E.
  - now destruct (find_tenant_record _ _ _ Hall E) as (_ & _ & ? & ?).
  - destruct (List.find (has_id "default") tenants) as [x|] eqn:E'.
    + now destruct (find_tenant_record _ _ _ Hall E') as (_ & _ & ? & ?).
    + now split.
Qed.

Lemma first_of_unknown (id : string) (tenants : list value) :
  unknown_tenant id tenants -> first_of id tenants = JObj [].
Proof. intros (H1 & H2). unfold first_of. now rewrite H1, H2. Qed.

Lemma normMaximoBase_returns (u : value) :
  scalar u = true -> exists b, normMaximoBase u = Ok b.
Proof.
  intros Hu. unfold normMaximoBase.
  destruct (js_String_scalar _ (scalar_js_or _ Hu)) as (s & ->). simpl.
  destruct (String.eqb _ ""); [eauto|].
  destruct (ends_with _ _); eauto.
Qed.

Lemma maximoApiBase_of_base (u : value) (b : string) :
  normMaximoBase u = Ok b ->
  maximoApiBase u
  = Ok (if String.eqb b "" then "" else replace_suffix "/maximo" "/maximo/api" b).
Proof. unfold maximoApiBase. now intros ->. Qed.

Lemma get_Ok (v x : value) (k : string) :
  get v k = Ok x -> nullish v = false /\ x = prop v k.
Proof.
  unfold get. destruct (nullish v); [discriminate|].
  intros H. injection H as <-. auto.
Qed.

(** What a resolution that returns has computed, in terms of the record it
    chose. *)
Lemma resolveTenant_inv (env : environment) (settings tenantId : value)
      (r : resolved_tenant) :
  resolveTenant env settings tenantId = Ok r ->
  exists t site0,
    choose_tenant (registry settings) (rt_id r) = Ok t
    /\ normMaximoBase
         (first_truthy [prop t "maximoBaseUrl";
                        oget (prop settings "maximo") "baseUrl";
                        env_value (MAXIMO_URL env)]) = Ok (rt_baseUrl r)
    /\ rt_apiBase r
       = (if String.eqb (rt_baseUrl r) "" then ""
          else replace_suffix "/maximo" "/maximo/api" (rt_baseUrl r))
    /\ rt_apiKey r
       = first_truthy [env_value (MAXIMO_APIKEY env);
                       oget (prop settings "maximo") "apiKey"]
    /\ js_String
         (first_truthy [prop t "site";
                        oget (prop settings "maximo") "defaultSite";
                        env_value (DEFAULT_SITEID env)]) = Ok site0
    /\ rt_site r = toUpperCase site0
    /\ rt_org r = js_or (prop t "org") (JStr "").
Proof.
  unfold resolveTenant. intros H.
  apply rbind_Ok in H. destruct H as (tf & Htf & H).
  apply get_Ok in Htf. destruct Htf as (_ & ->).
  apply rbind_Ok in H. destruct H as (def & _ & H).
  apply rbind_Ok in H. destruct H as (id & _ & H).
  apply rbind_Ok in H. destruct H as (t & Ht & H).
  apply rbind_Ok in H. destruct H as (site0 & Hsite & H).
  apply rbind_Ok in H. destruct H as (base & Hbase & H).
  apply rbind_Ok in H. destruct H as (api & Hapi & H).
  injection H as <-. cbn [rt_id rt_baseUrl rt_apiBase rt_apiKey rt_site rt_org].
  rewrite (maximoApiBase_of_base _ _ Hbase) in Hapi. injection Hapi as <-.
  rewrite first_truthy_three in Hsite, Hbase. rewrite first_truthy_two.
  exists t, site0. repeat split; assumption.
Qed.

(** Resolution returns on plain settings. *)
Lemma resolveTenant_returns (env : environment) (settings tenantId : value) :
  plain_settings settings -> scalar tenantId = true ->
  exists r, resolveTenant env settings tenantId = Ok r.
Proof.
  intros (Hrec & Hall & Hdef & Hbase & Hsite) Hid. unfold resolveTenant.
  destruct settings; try discriminate Hrec.
  unfold get. cbn [nullish rbind].
  fold (registry (JObj fields)).
  set (maximo := prop (JObj fields) "maximo") in *.
  destruct (js_String_scalar _ (scalar_js_or2 _ (JStr "default") Hdef eq_refl))
    as (def & ->). cbn [rbind].
  destruct (js_String_scalar
              (js_or (js_or tenantId (JStr def)) (JStr "default"))) as (id & ->).
  { now repeat apply scalar_js_or2. }
  cbn [rbind]. rewrite (choose_tenant_first_of id _ Hall). cbn [rbind].
  destruct (first_of_fields id _ Hall) as (Htb & Hts).
  destruct (js_String_scalar
              (js_or (js_or (js_or (prop (first_of id (registry (JObj fields))) "site")
                                   (oget maximo "defaultSite"))
                            (env_value (DEFAULT_SITEID env))) (JStr "")))
    as (site0 & ->).
  { repeat apply scalar_js_or2; auto using scalar_env_value. }
  cbn [rbind].
  destruct (normMaximoBase_returns
              (js_or (js_or (js_or (prop (first_of id (registry (JObj fields))) "maximoBaseUrl")
                                   (oget maximo "baseUrl"))
                            (env_value (MAXIMO_URL env))) (JStr "")))
    as (base & Hb).
  { repeat apply scalar_js_or2; auto using scalar_env_value. }
  rewrite Hb. cbn [rbind]. rewrite (maximoApiBase_of_base _ _ Hb). cbn [rbind].
  eauto.
Qed.

Lemma normMaximoBase_js_or (u : value) :
  normMaximoBase (js_or u (JStr "")) = normMaximoBase u.
Proof.
  unfold normMaximoBase. f_equal. f_equal. unfold js_or.
  destruct (truthy u) eqn:E; [now rewrite E | reflexivity].
Qed.

(** The id a resolution that returns has worked with. *)
Lemma resolveTenant_id (env : environment) (settings tenantId : value)
      (r : resolved_tenant) :
  resolveTenant env settings tenantId = Ok r ->
  requested_id settings tenantId (rt_id r).
Proof.
  unfold resolveTenant. intros H.
  apply rbind_Ok in H. destruct H as (tf & _ & H).
  apply rbind_Ok in H. destruct H as (def & Hdef & H).
  apply rbind_Ok in H. destruct H as (id & Hid & H).
  apply rbind_Ok in H. destruct H as (t & _ & H).
  apply rbind_Ok in H. destruct H as (site0 & _ & H).
  apply rbind_Ok in H. destruct H as (base & _ & H).
  apply rbind_Ok in H. destruct H as (api & _ & H).
  injection H as <-. cbn [rt_id].
  exists def. split.
  - replace (first_truthy [oget (prop settings "maximo") "defaultTenant";
                           JStr "default"])
      with (js_or (oget (prop settings "maximo") "defaultTenant") (JStr "default"));
      [exact Hdef|].
    unfold js_or. cbn [first_truthy].
    now destruct (truthy (oget (prop settings "maximo") "defaultTenant")).
  - replace (first_truthy [tenantId; JStr def; JStr "default"])
      with (js_or (js_or tenantId (JStr def)) (JStr "default")); [exact Hid|].
    unfold js_or. cbn [first_truthy].
    destruct (truthy tenantId) eqn:Ht; [now rewrite Ht|].
    now destruct (negb (String.eqb def "")).
Qed.

(** C3, as amended.  On plain settings resolution returns.  The id it works
    with is the requested one, else the default tenant of the settings, else
    ["default"]; the record it works from is the first entry with that id,
    else the first entry with id ["default"], else an empty record; and
    every field of the resolved tenant is computed from that record and the
    global configuration, the first configured value winning.  When the id
    is unknown and there is no default entry, the organization is empty and
    the other fields fall back on what is configured globally: the base URL
    on the settings then the environment, the credential on the environment
    then the settings, the site (in upper case) on the settings then the
    environment.  The resolved tenant is empty when nothing is configured
    globally either. *)
Theorem resolveTenant_order (env : environment) (settings tenantId : value) :
  plain_settings settings -> scalar tenantId = true ->
  (forall id,
      choose_tenant (registry settings) id = Ok (first_of id (registry settings)))
  /\ exists r,
      resolveTenant env settings tenantId = Ok r
      /\ requested_id settings tenantId (rt_id r)
      /\ resolved_from env settings
           (first_of (rt_id r) (registry settings)) r
      /\ (unknown_tenant (rt_id r) (registry settings) ->
          rt_org r = JStr ""
          /\ normMaximoBase
               (first_truthy [oget (prop settings "maximo") "baseUrl";
                              env_value (MAXIMO_URL env)]) = Ok (rt_baseUrl r)
          /\ rt_apiKey r
             = first_truthy [env_value (MAXIMO_APIKEY env);
                             oget (prop settings "maximo") "apiKey"]
          /\ (exists s,
                 js_String
                   (first_truthy [oget (prop settings "maximo") "defaultSite";
                                  env_value (DEFAULT_SITEID env)]) = Ok s
                 /\ rt_site r = toUpperCase s)
          /\ (nothing_global env settings -> empty_resolved r)).
Proof.
  intros Hplain Hid.
  assert (Hall : Forall tenant_record (registry settings)) by apply Hplain.
  split; [intros id; now apply choose_tenant_first_of|].
  destruct (resolveTenant_returns env settings tenantId Hplain Hid) as (r & Hr).
  exists r. split; [exact Hr|].
  split; [now apply (resolveTenant_id env)|].
  destruct (resolveTenant_inv _ _ _ _ Hr)
    as (t & site0 & Ht & Hbase & Hapi & Hkey & Hsite & Hsite' & Horg).
  rewrite (choose_tenant_first_of _ _ Hall) in Ht. injection Ht as <-.
  split.
  { unfold resolved_from. cbn zeta. split; [exact Hbase|].
    split; [rewrite (maximoApiBase_of_base _ _ Hbase), Hapi; reflexivity|].
    split; [exact Hkey|]. split; [exists site0; split; assumption|].
    rewrite Horg. unfold js_or. cbn [first_truthy].
    now destruct (truthy (prop (first_of (rt_id r) (registry settings)) "org")). }
  intros Hunknown.
  rewrite (first_of_unknown _ _ Hunknown) in *.
  rewrite first_truthy_skip in Hbase, Hsite by reflexivity.
  split; [exact Horg|]. split; [exact Hbase|]. split; [exact Hkey|].
  split; [exists site0; split; assumption|].
  intros (Hb & Hk & Hs & Heu & Hek & Hes). unfold empty_resolved.
  rewrite !first_truthy_skip in * by assumption. cbn in Hbase, Hsite.
  injection Hbase as Hbase. injection Hsite as <-.
  rewrite Hapi, Hkey, Hsite', <- Hbase, Horg. repeat split.
Qed.

Lemma resolveTenant_order_witness :
  (exists r,
      resolveTenant no_env (settings_with [acme] (JObj [])) (JStr "other") = Ok r
      /\ empty_resolved r)
  /\ exists r,
      resolveTenant secret_env (settings_with [fallback_tenant; acme] global_maximo)
                    (JStr "acme") = Ok r
      /\ resolved_from secret_env (settings_with [fallback_tenant; acme] global_maximo)
           acme r.
Proof.
  split.
  - destruct (resolveTenant_order no_env (settings_with [acme] (JObj []))
                (JStr "other")) as (_ & r & Hr & _ & _ & Hunknown).
    + repeat split; try reflexivity. repeat constructor.
    + reflexivity.
    + exists r. split; [exact Hr|].
      vm_compute in Hr. injection Hr as <-.
      apply Hunknown; repeat split.
  - destruct (resolveTenant_order secret_env
                (settings_with [fallback_tenant; acme] global_maximo)
                (JStr "acme")) as (_ & r & Hr & _ & Hfrom & _).
    + repeat split; try reflexivity. repeat constructor.
    + reflexivity.
    + exists r. split; [exact Hr|].
      vm_compute in Hr. injection Hr as <-. exact Hfrom.
Defined.

(** C3 as stated fails: with an unknown tenant and no default entry, the
    base URL, the credential and the site of the [maximo] section are
    resolved, so the resolved tenant is not empty. *)
Lemma unknown_tenant_not_empty :
  unknown_tenant "other" (registry (settings_with [acme] global_maximo))
  /\ ~ unknown_resolves_empty no_env (settings_with [acme] global_maximo)
                              (JStr "other").
Proof.
  split; [split; reflexivity|].
  intros (r & Hr & Hbase & _). vm_compute in Hr. injection Hr as <-.
  discriminate Hbase.
Qed.

(** C10.  For the base URL the tenant record wins over the persisted
    settings, which win over the environment variable MAXIMO_URL; for the
    credential the environment variable MAXIMO_APIKEY wins over the
    persisted settings. *)
Theorem resolveTenant_precedence
        (env : environment) (settings tenantId : value) (r : resolved_tenant) :
  resolveTenant env settings tenantId = Ok r ->
  exists t,
    choose_tenant (registry settings) (rt_id r) = Ok t
    /\ base_url_precedence env settings t r
    /\ credential_precedence env settings r.
Proof.
  intros Hr.
  destruct (resolveTenant_inv _ _ _ _ Hr)
    as (t & site0 & Ht & Hbase & _ & Hkey & _).
  exists t. split; [exact Ht|]. split.
  - unfold base_url_precedence. cbn zeta. repeat split.
    + intros H1. cbn [first_truthy] in Hbase. now rewrite H1 in Hbase.
    + intros H1 H2. cbn [first_truthy] in Hbase. now rewrite H1, H2 in Hbase.
    + intros H1 H2. rewrite !first_truthy_skip in Hbase by assumption.
      rewrite <- Hbase. symmetry. apply normMaximoBase_js_or.
  - unfold credential_precedence. cbn zeta. rewrite Hkey. cbn [first_truthy].
    repeat split.
    + now intros ->.
    + now intros -> ->.
    + now intros -> ->.
Qed.

Lemma resolveTenant_precedence_witness :
  exists t,
    base_url_precedence secret_env
      (settings_with [fallback_tenant; acme] global_maximo) t
      {| rt_id := "acme";
         rt_baseUrl := "https://acme.example.com/maximo";
         rt_apiBase := "https://acme.example.com/maximo/api";
         rt_apiKey := JStr "ENVKEY"; rt_site := "BEDFORD";
         rt_org := JStr "EAGLENA" |}.
Proof.
  destruct (resolveTenant_precedence secret_env
              (settings_with [fallback_tenant; acme] global_maximo)
              (JStr "acme") _ eq_refl) as (t & _ & H & _).
  exists t. exact H.
Defined.

(** ** The trace of a query *)

Module QueryExamples.
Example query_answer :
  run serving
      (@mcp_call sample_platform secret_env
                 (settings_with [acme] global_maximo) "{query}") []
  = ([BackendGet
        ("https://acme.example.com/maximo/api/os/mxapiasset?oslc.where=siteid="
         ++ dquote ++ "BEDFORD" ++ dquote ++ "&oslc.pageSize=5")
        (JStr "ENVKEY")],
     Ok (json 200
           [("ok", JBool true); ("tenant", JStr "acme");
            ("os", JStr "mxapiasset"); ("data", JObj [("member", JArr [])]);
            ("trace",
             trace_of ("https://acme.example.com/maximo/api/os/mxapiasset?oslc.where=siteid="
         ++ dquote ++ "BEDFORD" ++ dquote ++ "&oslc.pageSize=5"))])).
Proof. reflexivity. Qed.
End QueryExamples.

Lemma resolveTenant_same_but_credential
      (env1 env2 : environment) (s1 s2 tenantId : value)
      (r1 r2 : resolved_tenant) :
  same_but_credential env1 s1 env2 s2 ->
  resolveTenant env1 s1 tenantId = Ok r1 ->
  resolveTenant env2 s2 tenantId = Ok r2 ->
  agree_but_key r1 r2.
Proof.
  intros (Hurl & Hsite & Hnull & Hten & Hmax). unfold resolveTenant, get.
  rewrite <- Hnull, <- Hten, <- Hurl, <- Hsite.
  rewrite <- !(Hmax "defaultTenant"), <- !(Hmax "baseUrl"),
    <- !(Hmax "defaultSite") by discriminate.
  destruct (nullish s1); [discriminate|]. cbn [rbind].
  destruct (js_String _) as [def|]; [|discriminate]. cbn [rbind].
  destruct (js_String _) as [id|]; [|discriminate]. cbn [rbind].
  destruct (choose_tenant _ _) as [t|]; [|discriminate]. cbn [rbind].
  destruct (js_String _) as [site0|]; [|discriminate]. cbn [rbind].
  destruct (normMaximoBase _) as [base|]; [|discriminate]. cbn [rbind].
  destruct (maximoApiBase _) as [api|]; [|discriminate]. cbn [rbind].
  intros H1 H2. injection H1 as <-. injection H2 as <-.
  repeat split.
Qed.

Section QueryTrace.
Context {P : Platform}.

Lemma queryOS_url_agree (t1 t2 : resolved_tenant) (args : value) :
  agree_but_key t1 t2 -> queryOS_url t1 args = queryOS_url t2 args.
Proof.
  intros (_ & _ & Hapi & Hsite & _). unfold queryOS_url.
  now rewrite Hapi, Hsite.
Qed.

Ltac no_trace H :=
  cbn [run guarded iobind lift] in H; injection H as _ <-;
  now (exfalso; match goal with Ht : _ <> JUndef |- _ => apply Ht end).

(** An answer with a trace comes from the query branch, and its trace is
    that of the URL the branch computed. *)
Lemma mcp_call_trace (env : environment) (settings : value) (body : string)
      (w : world backend_call) (calls : list backend_call)
      (resp : http_response) :
  run w (mcp_call env settings body) [] = (calls, Ok resp) ->
  prop (http_body resp) "trace" <> JUndef ->
  exists parsed tenant os url,
    parse_body body = Ok parsed
    /\ resolveTenant env settings (prop parsed "tenant") = Ok tenant
    /\ queryOS_url tenant (js_or (prop parsed "args") (JObj [])) = Ok (inr (os, url))
    /\ prop (http_body resp) "trace" = trace_of url.
Proof.
  unfold mcp_call. intros H Ht.
  destruct (parse_body body) as [parsed|] eqn:Hparse; [|no_trace H].
  cbn [lift iobind] in H.
  destruct (n <- get parsed "name";; js_String (js_or n (JStr "")))
    as [name0|]; [|no_trace H].
  cbn [lift iobind] in H.
  destruct (resolveTenant env settings (prop parsed "tenant"))
    as [tenant|] eqn:Hten; [|no_trace H].
  cbn [lift iobind] in H.
  destruct (String.eqb (trim name0) ""); [no_trace H|].
  destruct (_ || _); [no_trace H|].
  destruct (String.eqb (trim name0) "maximo.listOS").
  { unfold listOS, fetchJson in H. cbn [run guarded iobind] in H.
    destruct (w _ _); [no_trace H|]. cbn [run guarded iobind] in H.
    destruct (_ || _); no_trace H. }
  destruct (String.eqb (trim name0) "maximo.queryOS"); [|no_trace H].
  unfold queryOS in H.
  destruct (queryOS_url tenant _) as [[answer|[os url]]|] eqn:Hurl;
    [| |no_trace H].
  { cbn [lift iobind guarded run] in H. injection H as _ <-.
    exfalso. revert Ht. unfold queryOS_url in Hurl.
    destruct (js_String _); [|discriminate]. cbn [rbind] in Hurl.
    destruct (String.eqb _ "").
    - injection Hurl as <-. intros Ht. now apply Ht.
    - unfold param in Hurl.
      repeat (destruct (js_String _); [|discriminate]; cbn [rbind] in Hurl).
      discriminate. }
  exists parsed, tenant, os, url. repeat split; try assumption.
  unfold fetchJson in H. cbn [lift iobind guarded run] in H.
  destruct (w _ _); [no_trace H|]. cbn [run guarded iobind] in H.
  destruct (_ || _); [no_trace H|].
  cbn [run guarded] in H. injection H as _ <-. reflexivity.
Qed.

(** C9.  When a query succeeds, the credential header of its trace is the
    mask ["***"], and two successful runs of the same request under
    configurations that differ only in the credential return the same
    trace. *)
Theorem queryOS_trace_masked
        (env1 env2 : environment) (settings1 settings2 : value)
        (body : string) (w1 w2 : world backend_call)
        (calls1 calls2 : list backend_call) (resp1 resp2 : http_response) :
  same_but_credential env1 settings1 env2 settings2 ->
  run w1 (mcp_call env1 settings1 body) [] = (calls1, Ok resp1) ->
  run w2 (mcp_call env2 settings2 body) [] = (calls2, Ok resp2) ->
  query_succeeded resp1 -> query_succeeded resp2 ->
  traced_credential resp1 = JStr "***"
  /\ prop (http_body resp1) "trace" = prop (http_body resp2) "trace".
Proof.
  intros Hsame Hrun1 Hrun2 (_ & Ht1) (_ & Ht2).
  destruct (mcp_call_trace _ _ _ _ _ _ Hrun1 Ht1)
    as (parsed & t1 & os1 & url1 & Hp1 & Hres1 & Hurl1 & Htr1).
  destruct (mcp_call_trace _ _ _ _ _ _ Hrun2 Ht2)
    as (parsed' & t2 & os2 & url2 & Hp2 & Hres2 & Hurl2 & Htr2).
  rewrite Hp1 in Hp2. injection Hp2 as <-.
  pose proof (resolveTenant_same_but_credential _ _ _ _ _ _ _ Hsame Hres1 Hres2)
    as Hagree.
  rewrite (queryOS_url_agree _ _ _ Hagree) in Hurl1.
  rewrite Hurl1 in Hurl2. injection Hurl2 as _ <-.
  unfold traced_credential. rewrite Htr1, Htr2. split; reflexivity.
Qed.

End QueryTrace.

Lemma queryOS_trace_masked_witness :
  exists resp1 resp2,
    snd (run serving
             (@mcp_call sample_platform secret_env
                        (settings_with [acme] global_maximo) "{query}") [])
    = Ok resp1
    /\ snd (run serving
                (@mcp_call sample_platform rotated_env
                           (settings_with [acme] global_maximo) "{query}") [])
       = Ok resp2
    /\ traced_credential resp1 = JStr "***"
    /\ prop (http_body resp1) "trace" = prop (http_body resp2) "trace".
Proof.
  eexists. eexists. split; [reflexivity|]. split; [reflexivity|].
  eapply (@queryOS_trace_masked sample_platform secret_env rotated_env
            (settings_with [acme] global_maximo)
            (settings_with [acme] global_maximo)
            "{query}" serving serving).
  - repeat split.
  - reflexivity.
  - reflexivity.
  - split; [reflexivity | discriminate].
  - split; [reflexivity | discriminate].
Defined.

(** ** Saving settings *)

Module SaveExamples.
Example payload_credentials_dropped :
  saveSettingsFromUI (initial_settings "http://mcp-server:8081") leaky_payload
  = Ok [("ui", JObj [("theme", JStr "dark")]);
        ("tenants", JArr [JObj [("id", JStr "acme"); ("label", JStr "");
                                ("maximoBaseUrl", JStr ""); ("org", JStr "");
                                ("site", JStr "")]]);
        ("maximo", JObj [("objectStructure", JStr "mxapiwo")]);
        ("mcp", JObj [("url", JStr "http://mcp-server:8081");
                      ("enableTools", JBool false)])].
Proof. reflexivity. Qed.

Example seeded_credential_survives :
  saveSettingsFromUI seeded_file (JObj [("ui", JObj [("theme", JStr "dark")])])
  = Ok [("ui", JObj [("theme", JStr "dark")]); ("tenants", JArr []);
        ("maximo", global_maximo)].
Proof. reflexivity. Qed.

Example null_tenant_throws :
  exists msg,
    saveSettingsFromUI seeded_file (JObj [("tenants", JArr [JNull])]) = Throw msg.
Proof. eexists. reflexivity. Qed.
End SaveExamples.

Lemma lookup_set_field_same (k : string) (v : value) (fields : list (string * value)) :
  lookup k (set_field k v fields) = Some v.
Proof.
  induction fields as [|[k' v'] rest IH]; simpl.
  - now rewrite String.eqb_refl.
  - destruct (String.eqb k k') eqn:E; simpl; rewrite ?E; [|exact IH].
    now rewrite String.eqb_refl.
Qed.

Lemma lookup_set_field_other (k k' : string) (v : value)
      (fields : list (string * value)) :
  k <> k' -> lookup k (set_field k' v fields) = lookup k fields.
Proof.
  intros Hne. induction fields as [|[k0 v0] rest IH]; simpl.
  - apply String.eqb_neq in Hne. now rewrite Hne.
  - destruct (String.eqb k' k0) eqn:E; simpl.
    + apply String.eqb_eq in E. subst k0.
      apply String.eqb_neq in Hne. now rewrite Hne.
    + now rewrite IH.
Qed.

Lemma lookup_remove_field (k : string) (fields : list (string * value)) :
  lookup k (remove_field k fields) = None.
Proof.
  induction fields as [|[k' v'] rest IH]; simpl; [reflexivity|].
  destruct (String.eqb k' k) eqn:E; simpl; [exact IH|].
  rewrite String.eqb_sym, E. exact IH.
Qed.

Lemma map_result_Forall {A B : Type} (f : A -> result B) (Q : B -> Prop)
      (l : list A) (out : list B) :
  (forall x y, f x = Ok y -> Q y) ->
  map_result f l = Ok out -> Forall Q out.
Proof.
  intros Hf. revert out. induction l as [|x l IH]; simpl; intros out H.
  - injection H as <-. constructor.
  - bind_inv H. bind_inv H. injection H as <-.
    constructor; [now apply (Hf x) | now apply IH].
Qed.

Lemma clean_tenant_fields (t c : value) :
  clean_tenant t = Ok c ->
  exists id label maximoBaseUrl org site,
    c = JObj [("id", JStr id); ("label", JStr label);
              ("maximoBaseUrl", JStr maximoBaseUrl);
              ("org", JStr org); ("site", JStr site)].
Proof.
  unfold clean_tenant. intros H.
  do 5 bind_inv H. injection H as <-. eauto 6.
Qed.

Lemma kept_tenants_saved (cleaned : list value) :
  Forall (fun c => exists id label maximoBaseUrl org site,
              c = JObj [("id", JStr id); ("label", JStr label);
                        ("maximoBaseUrl", JStr maximoBaseUrl);
                        ("org", JStr org); ("site", JStr site)]) cleaned ->
  Forall saved_tenant (List.filter (fun t => truthy (prop t "id")) cleaned).
Proof.
  induction 1 as [|c l (id & label & url & org & site & ->) _ IH];
    simpl; [constructor|].
  destruct (negb (String.eqb id "")) eqn:E; [|exact IH].
  constructor; [|exact IH].
  exists id, label, url, org, site. split; [reflexivity|].
  apply negb_true_iff in E. now apply String.eqb_neq.
Qed.

(** The steps of a save that returns. *)
Lemma saveSettingsFromUI_inv (cur : list (string * value)) (payload : value)
      (written : list (string * value)) :
  saveSettingsFromUI cur payload = Ok written ->
  (js_object payload = false /\ written = cur)
  \/ (js_object payload = true /\
      exists n1 n2 n3,
        (n1 = cur \/ exists v, n1 = set_field "ui" v cur)
        /\ ((js_object (prop payload "maximo") = false /\ n2 = n1)
            \/ (js_object (prop payload "maximo") = true /\
                exists f, n2 = set_field "maximo" (JObj (remove_field "apiKey" f)) n1))
        /\ (n3 = n2 \/ exists v, n3 = set_field "mcp" v n2)
        /\ ((isArray (prop payload "tenants") = false /\ written = n3)
            \/ (exists items cleaned,
                   prop payload "tenants" = JArr items
                   /\ map_result clean_tenant items = Ok cleaned
                   /\ written
                      = set_field "tenants"
                          (JArr (List.filter (fun t => truthy (prop t "id")) cleaned))
                          n3))).
Proof.
  unfold saveSettingsFromUI.
  destruct (js_object payload); [|intros H; injection H as <-; now left].
  intros H. right. split; [reflexivity|].
  set (n1 := if js_object (prop payload "ui")
             then set_field "ui" (merge_section "ui" payload cur) cur
             else cur) in *.
  set (n2 := if js_object (prop payload "maximo")
             then set_field "maximo" _ n1 else n1) in *.
  set (n3 := if js_object (prop payload "mcp")
             then set_field "mcp" (merge_section "mcp" payload n2) n2
             else n2) in *.
  exists n1, n2, n3. repeat split.
  - subst n1. destruct (js_object (prop payload "ui")); eauto.
  - subst n2. destruct (js_object (prop payload "maximo")); eauto.
  - subst n3. destruct (js_object (prop payload "mcp")); eauto.
  - destruct (prop payload "tenants") as [| | | | |items|];
      try (injection H as <-; now left).
    right. bind_inv H. injection H as <-. eauto.
Qed.



Lemma saveSettingsFromUI_tenants
      (cur : list (string * value)) (payload : value)
      (written : list (string * value)) (items : list value) :
  saveSettingsFromUI cur payload = Ok written ->
  js_object payload = true -> prop payload "tenants" = JArr items ->
  exists kept,
    lookup "tenants" written = Some (JArr kept) /\ Forall saved_tenant kept.
Proof.
  intros H Hp Hitems.
  destruct (saveSettingsFromUI_inv _ _ _ H)
    as [(Hp' & _)|(_ & n1 & n2 & n3 & _ & _ & _ & H4)]; [congruence|].
  destruct H4 as [(Harr & _)|(items' & cleaned & _ & Hmap & ->)].
  - rewrite Hitems in Harr. discriminate Harr.
  - eexists. split; [apply lookup_set_field_same|].
    apply kept_tenants_saved.
    apply (map_result_Forall clean_tenant _ items' cleaned); [|exact Hmap].
    apply clean_tenant_fields.
Qed.




(** ** The chat turn *)

Module ChatExamples.
Example turn_with_tools :
  run scripted
      (@agent_chat sample_platform "http://mcp-server:8081" chat_settings "{chat}") []
  = ([CatalogFetch "http://mcp-server:8081/mcp/tools?tenant=default";
      first_request;
      BrokerInvoke "http://mcp-server:8081/mcp/call" (JStr "maximo.queryOS")
                   (JObj [("raw", JStr "{os:")]) "default";
      BrokerInvoke "http://mcp-server:8081/mcp/call" (JStr "maximo.listOS")
                   (JObj []) "default";
      follow_up_request],
     Ok (json 200 [("reply", JStr "Found 0 assets.")])).
Proof. reflexivity. Qed.

Example turn_without_key :
  run scripted
      (@agent_chat sample_platform "http://mcp-server:8081" keyless_settings "{chat}") []
  = ([], Ok (json 400 [("error", JStr "missing_api_key");
                       ("detail", JStr "Missing openai API key")])).
Proof. reflexivity. Qed.

Example turn_with_broker_down :
  run broker_down
      (@agent_chat sample_platform "http://mcp-server:8081" chat_settings "{chat}") []
  = ([CatalogFetch "http://mcp-server:8081/mcp/tools?tenant=default";
      first_request;
      BrokerInvoke "http://mcp-server:8081/mcp/call" (JStr "maximo.queryOS")
                   (JObj [("raw", JStr "{os:")]) "default"],
     Ok (json 500 [("error", JStr "server_error");
                   ("detail", JStr "fetch failed")])).
Proof. reflexivity. Qed.
End ChatExamples.

Section RunFacts.
Context {C : Type}.

Lemma run_bind {A B : Type} (w : world C) (m : io C A) (k : A -> io C B)
      (made : list C) :
  run w (iobind m k) made
  = match run w m made with
    | (made', Ok a) => run w (k a) made'
    | (made', Throw e) => (made', Throw e)
    end.
Proof.
  revert made. induction m as [a|e|c k' IH]; intros made; simpl; auto.
Qed.

Lemma run_guarded (w : world C) (code : string) (p : io C http_response)
      (made : list C) :
  run w (guarded code p) made
  = (fst (run w p made),
     Ok (match snd (run w p made) with
         | Ok a => a
         | Throw e => json 500 [("error", JStr code); ("detail", JStr e)]
         end)).
Proof.
  revert made. induction p as [a|e|c k IH]; intros made; simpl; auto.
Qed.

Lemma run_lift {A : Type} (w : world C) (r : result A) (made : list C) :
  run w (lift r) made = (made, r).
Proof. now destruct r. Qed.

Lemma run_extends {A : Type} (w : world C) (p : io C A) (made : list C) :
  exists new, fst (run w p made) = (made ++ new)%list.
Proof.
  revert made. induction p as [a|e|c k IH]; intros made; simpl.
  - exists []. now rewrite app_nil_r.
  - exists []. now rewrite app_nil_r.
  - destruct (IH (w made c) (made ++ [c])%list) as (new & ->).
    exists (c :: new). now rewrite <- app_assoc.
Qed.

End RunFacts.

Section ToolLoop.
Context {P : Platform}.
Variable w : world agent_call.
Variables mcpUrl tenant : string.

Lemma run_fetchJson (c : agent_call) (made : list agent_call) :
  run w (fetchJson c) made
  = ((made ++ [c])%list,
     match w made c with
     | Rejected msg => Throw msg
     | Response status text =>
         Ok {| f_ok := (200 <=? status)%Z && (status <=? 299)%Z;
               f_status := status; f_text := text;
               f_json := match JSON_parse text with
                         | Some j => j
                         | None => JNull
                         end |}
     end).
Proof. unfold fetchJson. simpl. now destruct (w made c). Qed.

(** One step of the loop: the invocation is made; the loop goes on when it
    is answered and the tool call has an id to read. *)
Lemma run_exec_tools_cons (tc : value) (rest follow : list value)
      (made : list agent_call) :
  let call := BrokerInvoke (mcpUrl ++ "/mcp/call")
                (oget (oget tc "function") "name") (invoke_args tc) tenant in
  run w (exec_tools mcpUrl tenant (tc :: rest) follow) made
  = match w made call with
    | Rejected msg => ((made ++ [call])%list, Throw msg)
    | Response status text =>
        match get tc "id" with
        | Throw e => ((made ++ [call])%list, Throw e)
        | Ok id =>
            run w (exec_tools mcpUrl tenant rest
                     (follow ++ [tool_message id
                        (result_content
                           {| f_ok := (200 <=? status)%Z && (status <=? 299)%Z;
                              f_status := status; f_text := text;
                              f_json := match JSON_parse text with
                                        | Some j => j
                                        | None => JNull
                                        end |})])%list)
                (made ++ [call])%list
        end
    end.
Proof.
  cbn zeta. cbn [exec_tools]. rewrite run_bind, run_fetchJson.
  fold (invoke_args tc).
  destruct (w made _); [reflexivity|].
  rewrite run_bind, run_lift. now destruct (get tc "id").
Qed.

Lemma exec_tools_calls (toolCalls follow : list value)
      (made calls : list agent_call) (r : result (list value)) :
  run w (exec_tools mcpUrl tenant toolCalls follow) made = (calls, r) ->
  exists invokes,
    calls = (made ++ invokes)%list
    /\ Forall (fun c => is_invoke c = true) invokes
    /\ (forall follow', r = Ok follow' ->
          exists results,
            follow' = (follow ++ results)%list
            /\ Forall2 result_for toolCalls results).
Proof.
  revert follow made. induction toolCalls as [|tc rest IH]; intros follow made.
  - simpl. intros H. injection H as <- <-. exists []. rewrite app_nil_r.
    repeat split; [constructor|]. intros follow' H. injection H as <-.
    exists []. rewrite app_nil_r. split; [reflexivity | constructor].
  - rewrite run_exec_tools_cons. cbn zeta.
    destruct (w made _) as [msg|status text].
    { intros H. injection H as <- <-. eexists [_]. repeat split.
      - now repeat constructor.
      - discriminate. }
    destruct (get tc "id") as [id|e] eqn:Hid.
    2:{ intros H. injection H as <- <-. eexists [_]. repeat split.
        - now repeat constructor.
        - discriminate. }
    intros H. destruct (IH _ _ H) as (invokes & -> & Hinv & Hres).
    eexists (_ :: invokes). rewrite <- app_assoc. repeat split.
    + constructor; [reflexivity | exact Hinv].
    + intros follow' Hr. destruct (Hres _ Hr) as (results & -> & Hall).
      eexists (_ :: results). rewrite <- app_assoc. split; [reflexivity|].
      constructor; [|exact Hall].
      apply get_Ok in Hid. destruct Hid as (_ & ->).
      repeat split. simpl. eauto.
Qed.

Lemma exec_tools_returns (toolCalls follow : list value)
      (made : list agent_call) :
  broker_answers w -> tool_call_records toolCalls ->
  exists follow', snd (run w (exec_tools mcpUrl tenant toolCalls follow) made) = Ok follow'.
Proof.
  intros Hw Hrec. revert follow made.
  induction Hrec as [|tc rest Htc _ IH]; intros follow made.
  - simpl. eauto.
  - rewrite run_exec_tools_cons. cbn zeta.
    destruct (Hw made (BrokerInvoke (mcpUrl ++ "/mcp/call")
                         (oget (oget tc "function") "name") (invoke_args tc) tenant)
                 eq_refl) as (status & text & ->).
    unfold get. rewrite Htc. apply IH.
Qed.

(** A loop that returns has gone through every round. *)
Lemma exec_tools_rounds (toolCalls follow follow' : list value)
      (made calls : list agent_call) :
  run w (exec_tools mcpUrl tenant toolCalls follow) made = (calls, Ok follow') ->
  exists invokes results,
    calls = (made ++ invokes)%list
    /\ follow' = (follow ++ results)%list
    /\ tool_rounds w mcpUrl tenant made toolCalls invokes results.
Proof.
  revert follow made. induction toolCalls as [|tc rest IH]; intros follow made.
  - simpl. intros H. injection H as <- <-. exists [], [].
    rewrite !app_nil_r. repeat split. constructor.
  - rewrite run_exec_tools_cons. cbn zeta.
    destruct (w made _) as [msg|status text] eqn:Hw; [discriminate|].
    destruct (get tc "id") as [id|e] eqn:Hid; [|discriminate].
    intros H. destruct (IH _ _ H) as (invokes & results & -> & -> & Hrounds).
    apply get_Ok in Hid. destruct Hid as (_ & ->).
    eexists (_ :: invokes), (_ :: results). rewrite <- !app_assoc.
    split; [reflexivity|]. split; [reflexivity|].
    apply rounds_step; [exact Hw | exact Hrounds].
Qed.


End ToolLoop.

Section ChatTurn.
Context {P : Platform}.
Variable w : world agent_call.

Lemma run_openaiCompatChat (cfg : provider_cfg) (model : string)
      (temperature : option value) (messages : list value)
      (tools : option (list value)) (made : list agent_call) :
  truthy (cfg_key cfg) = true ->
  (exists e, run w (openaiCompatChat cfg model temperature messages tools) made
             = (made, Throw e)
             /\ (number_of_temperature temperature = Throw e
                 \/ js_String (cfg_key cfg) = Throw e))
  \/ exists key c,
      number_of_temperature temperature = Ok tt
      /\ js_String (cfg_key cfg) = Ok key
      /\ (exists tools', 
            c = Completion (cfg_base cfg ++ "/v1/chat/completions") ("Bearer " ++ key)
                  {| cb_model := if String.eqb model "" then "gpt-4o-mini" else model;
                     cb_temperature := temperature;
                     cb_messages := messages;
                     cb_tools := tools' |})
      /\ is_completion c = true /\ messages_of c = messages
      /\ tools_of c = match tools with
                      | Some (t :: ts) => Some (t :: ts)
                      | _ => None
                      end
      /\ ((exists e, run w (openaiCompatChat cfg model temperature messages tools) made
                     = ((made ++ [c])%list, Throw e)
                     /\ assistant_answer (w made c) = None)
          \/ exists out,
              run w (openaiCompatChat cfg model temperature messages tools) made
              = ((made ++ [c])%list, Ok out)
              /\ assistant_answer (w made c)
                 = Some (js_or (first_message out) (JObj []))).
Proof.
  intros Hkey. unfold openaiCompatChat. rewrite Hkey. cbn [negb].
  rewrite run_bind, run_lift.
  destruct (number_of_temperature temperature) as [[]|e]; [|left; eauto].
  cbn beta iota. rewrite run_bind, run_lift.
  destruct (js_String (cfg_key cfg)) as [key|e]; [|left; eauto].
  right.
  exists key,
    (Completion (cfg_base cfg ++ "/v1/chat/completions") ("Bearer " ++ key)
       {| cb_model := if String.eqb model "" then "gpt-4o-mini" else model;
          cb_temperature := temperature;
          cb_messages := messages;
          cb_tools := match tools with
                      | Some (t :: ts) => Some (t :: ts)
                      | _ => None
                      end |}).
  split; [reflexivity|]. split; [reflexivity|].
  split; [eexists; reflexivity|].
  split; [reflexivity|]. split; [reflexivity|].
  split; [reflexivity|].
  rewrite run_bind, run_fetchJson. unfold assistant_answer.
  destruct (w made _) as [msg|status text];
    [left; eexists; split; reflexivity|].
  cbn [f_ok f_json f_status f_text].
  destruct (JSON_parse text) as [j|].
  - destruct ((200 <=? status)%Z && (status <=? 299)%Z); cbn [negb orb andb].
    + destruct (truthy j); cbn [negb];
        [right; exists j; split; reflexivity
        |left; eexists; split; reflexivity].
    + left; eexists; split; reflexivity.
  - left. cbn [truthy negb]. rewrite orb_true_r.
    eexists; split; reflexivity.
Qed.

Lemma run_fetch_tools (enableTools : bool) (mcpUrl tenant : string) :
  exists pre r,
    run w (fetch_tools enableTools mcpUrl tenant) [] = (pre, r)
    /\ catalog_only pre.
Proof.
  unfold fetch_tools, catalog_only.
  destruct (enableTools && negb (String.eqb mcpUrl "")).
  - rewrite run_bind, run_fetchJson.
    destruct (w [] _) as [msg|status text].
    + do 2 eexists. split; [reflexivity | right; eexists; reflexivity].
    + cbn beta iota. rewrite run_lift.
      do 2 eexists. split; [reflexivity | right; eexists; reflexivity].
  - simpl. do 2 eexists. split; [reflexivity | now left].
Qed.

End ChatTurn.

Section ChatShape.
Context {P : Platform}.
Variable w : world agent_call.

Lemma run_reply_with (content : value) (made : list agent_call) :
  fst (run w (reply_with content) made) = made.
Proof.
  unfold reply_with. rewrite run_bind, run_lift.
  now destruct (js_String content).
Qed.

Ltac pure_step :=
  rewrite run_bind, run_lift;
  match goal with
  | |- context [match ?r with Ok _ => _ | Throw _ => _ end] =>
      let x := fresh "x" in
      destruct r as [x|] eqn:?; cbn beta iota;
      [|cbn [fst]; apply turn_before_completion; now left]
  end.

(** The calls of a turn that has reached the first completion request. *)
Lemma completion_rounds (cfg : provider_cfg) (model : string)
      (temperature : option value) (messages tools : list value)
      (mcpUrl tenant : string) (pre : list agent_call) :
  truthy (cfg_key cfg) = true -> catalog_only pre ->
  turn_calls w
    (fst (run w
            (out1 <~ openaiCompatChat cfg model temperature messages
                       (match tools with [] => None | _ => Some tools end) ;;
             let msg := js_or (first_message out1) (JObj []) in
             match tool_calls_of msg with
             | [] => reply_with (js_or (prop msg "content") (JStr ""))
             | toolCalls =>
                 follow <~ exec_tools mcpUrl tenant toolCalls (messages ++ [msg])%list ;;
                 out2 <~ openaiCompatChat cfg model temperature follow None ;;
                 reply_with (js_or (oget (first_message out2) "content") (JStr ""))
             end) pre)).
Proof.
  intros Hkey Hpre. rewrite run_bind.
  destruct (run_openaiCompatChat w cfg model temperature messages
              (match tools with [] => None | _ => Some tools end) pre Hkey)
    as [(e & -> & _)
       |(key & c1 & Hn & Hk & (tools1 & Hs1) & Hc1 & Hm1 & _
          & [(e & -> & Hans)|(out & -> & Hans)])].
  - cbn [fst]. now apply turn_before_completion.
  - cbn [fst]. apply turn_single_completion; auto.
  - cbn beta iota zeta.
    set (msg := js_or (first_message out) (JObj [])) in *.
    destruct (tool_calls_of msg) as [|tc tcs] eqn:Hcalls.
    { rewrite run_reply_with. apply turn_single_completion; eauto. }
    rewrite <- Hcalls. rewrite run_bind.
    destruct (run w (exec_tools mcpUrl tenant (tool_calls_of msg)
                       (messages ++ [msg])%list) (pre ++ [c1])%list)
      as [calls1 r] eqn:Hloop.
    destruct (exec_tools_calls w mcpUrl tenant _ _ _ _ _ Hloop)
      as (invokes & Hcalls1 & Hinv & Hres).
    assert (Hne : tool_calls_of msg <> []) by (rewrite Hcalls; discriminate).
    assert (Hflat : forall post,
               (((pre ++ [c1]) ++ invokes) ++ post
                = pre ++ c1 :: invokes ++ post)%list).
    { intros post. now rewrite <- !app_assoc. }
    destruct r as [follow|e]; subst calls1.
    + rewrite run_bind.
      destruct (run_openaiCompatChat w cfg model temperature follow None
                  ((pre ++ [c1]) ++ invokes)%list Hkey)
        as [(e & _ & [Hthrow|Hthrow])
           |(key' & c2 & _ & Hk' & (tools2 & Hs2) & Hc2 & Hm2 & Ht2 & Hrun2)];
        [congruence|congruence|].
      destruct (Hres follow eq_refl) as (results & -> & Hall).
      destruct (exec_tools_rounds w mcpUrl tenant _ _ _ _ _ Hloop)
        as (invokes' & results' & Hi & Hr & Hrounds).
      apply app_inv_head in Hi. apply app_inv_head in Hr. subst invokes' results'.
      assert (Hsame : same_provider c1 c2).
      { rewrite Hs1, Hs2. assert (key' = key) by congruence. subst key'.
        repeat split. }
      assert (Hfst : fst (match run w (openaiCompatChat cfg model temperature
                                         ((messages ++ [msg]) ++ results)%list None)
                                  ((pre ++ [c1]) ++ invokes)%list with
                          | (made', Ok a) =>
                              run w (reply_with
                                       (js_or (oget (first_message a) "content")
                                              (JStr ""))) made'
                          | (made', Throw e) => (made', Throw e)
                          end)
                     = (pre ++ c1 :: invokes ++ [c2])%list).
      { destruct Hrun2 as [(e & -> & _)|(out2 & -> & _)]; cbn beta iota;
          rewrite ?run_reply_with; cbn [fst]; apply Hflat. }
      rewrite Hfst.
      apply turn_follow_up with (msg := msg) (results := results)
                                (mcpUrl := mcpUrl) (tenant := tenant); auto.
      rewrite Hm2, Hm1, <- app_assoc. reflexivity.
    + cbn [fst]. rewrite <- (app_nil_r ((pre ++ [c1]) ++ invokes)), Hflat, app_nil_r.
      apply turn_tools_failed with (msg := msg); auto.
      intros (Hw & Hrec).
      destruct (exec_tools_returns w mcpUrl tenant _ (messages ++ [msg])%list
                  (pre ++ [c1])%list Hw Hrec) as (follow' & Hok).
      rewrite Hloop in Hok. discriminate Hok.
Qed.

Lemma agent_chat_calls (MCP_URL_DEFAULT : string) (s : value) (body : string) :
  turn_calls w (fst (run w (agent_chat MCP_URL_DEFAULT s body) [])).
Proof.
  unfold agent_chat. rewrite run_guarded. cbn [fst].
  do 3 pure_step.
  destruct (truthy (cfg_key x1)) eqn:Hkey; cbn [negb];
    [|cbn [run fst]; apply turn_before_completion; now left].
  do 3 pure_step.
  destruct (String.eqb x4 "");
    [cbn [run fst]; apply turn_before_completion; now left|].
  do 2 pure_step.
  rewrite run_bind.
  destruct (run_fetch_tools w (truthy (oget (prop s "mcp") "enableTools"))
              (replace_suffix "/" "" (trim x5)) x6) as (pre & r & -> & Hpre).
  destruct r as [tools|e]; [|cbn [fst]; now apply turn_before_completion].
  now apply completion_rounds.
Qed.

End ChatShape.

Lemma completions_app (l1 l2 : list agent_call) :
  completions (l1 ++ l2) = (completions l1 ++ completions l2)%list.
Proof. apply List.filter_app. Qed.

Lemma completions_catalog (pre : list agent_call) :
  catalog_only pre -> completions pre = [].
Proof. intros [->|(url & ->)]; reflexivity. Qed.

Lemma completions_invokes (invokes : list agent_call) :
  Forall (fun c => is_invoke c = true) invokes -> completions invokes = [].
Proof.
  induction 1 as [|c l Hc _ IH]; [reflexivity|].
  destruct c; try discriminate Hc. exact IH.
Qed.

Lemma completions_one (c : agent_call) :
  is_completion c = true -> completions [c] = [c].
Proof. unfold completions. simpl. now intros ->. Qed.

(** The first completion of a list of calls splits it in one way only. *)
Lemma first_completion_unique (p1 p2 q1 q2 : list agent_call) (c1 c2 : agent_call) :
  (p1 ++ c1 :: q1 = p2 ++ c2 :: q2)%list ->
  completions p1 = [] -> completions p2 = [] ->
  is_completion c1 = true -> is_completion c2 = true ->
  p1 = p2 /\ c1 = c2 /\ q1 = q2.
Proof.
  revert p2. induction p1 as [|a p1 IH]; intros [|b p2] Heq H1 H2 Hc1 Hc2;
    cbn [app] in Heq; injection Heq as -> Heq.
  - auto.
  - unfold completions in H2. cbn [filter] in H2. rewrite Hc1 in H2. discriminate H2.
  - unfold completions in H1. cbn [filter] in H1. rewrite Hc2 in H1. discriminate H1.
  - unfold completions in H1, H2. cbn [filter] in H1, H2.
    destruct (is_completion b); [discriminate H1|].
    destruct (IH p2 Heq H1 H2 Hc1 Hc2) as (-> & -> & ->). auto.
Qed.

Section TurnFacts.
Context {P : Platform}.
Variable w : world agent_call.

Lemma turn_calls_at_most_two (calls : list agent_call) :
  turn_calls w calls -> (length (completions calls) <= 2)%nat.
Proof.
  intros H. destruct H as [pre Hpre|pre c1 Hpre Hc1 _
                           |pre c1 invokes msg Hpre Hc1 _ _ Hinv _
                           |pre c1 invokes c2 msg results mcpUrl tenant
                              Hpre Hc1 _ _ Hinv Hc2 _ _ _ _ _].
  - rewrite (completions_catalog _ Hpre). simpl. lia.
  - rewrite completions_app, (completions_catalog _ Hpre), (completions_one _ Hc1).
    simpl. lia.
  - change (c1 :: invokes) with ([c1] ++ invokes)%list.
    rewrite !completions_app, (completions_catalog _ Hpre),
      (completions_one _ Hc1), (completions_invokes _ Hinv). simpl. lia.
  - change (c1 :: invokes ++ [c2])%list with ([c1] ++ invokes ++ [c2])%list.
    rewrite !completions_app, (completions_catalog _ Hpre),
      (completions_one _ Hc1), (completions_invokes _ Hinv),
      (completions_one _ Hc2). simpl. lia.
Qed.

Lemma turn_calls_follow_up (calls pre post : list agent_call)
      (c1 msg : _) :
  turn_calls w calls ->
  calls = (pre ++ c1 :: post)%list ->
  completions pre = [] -> is_completion c1 = true ->
  assistant_answer (w pre c1) = Some msg ->
  tool_calls_of msg <> [] ->
  broker_answers w -> tool_call_records (tool_calls_of msg) ->
  exists invokes c2 results,
    post = (invokes ++ [c2])%list
    /\ completions invokes = []
    /\ is_completion c2 = true
    /\ tools_of c2 = None
    /\ messages_of c2 = (messages_of c1 ++ msg :: results)%list
    /\ Forall2 result_for (tool_calls_of msg) results
    /\ same_provider c1 c2
    /\ exists mcpUrl tenant,
        tool_rounds w mcpUrl tenant (pre ++ [c1])%list (tool_calls_of msg)
                    invokes results.
Proof.
  intros H Hcalls Hpre Hc1 Hans Hne Hw Hrec.
  destruct H as [pre0 Hpre0|pre0 c0 Hpre0 Hc0 Hnone
                 |pre0 c0 invokes msg0 Hpre0 Hc0 Hans0 _ Hinv Hnot
                 |pre0 c0 invokes c2 msg0 results mcpUrl tenant
                    Hpre0 Hc0 Hans0 _ Hinv Hc2 Ht2 Hm2 Hall Hrounds Hsame].
  - exfalso. apply completions_catalog in Hpre0.
    rewrite Hcalls, completions_app in Hpre0.
    change (c1 :: post) with ([c1] ++ post)%list in Hpre0.
    rewrite completions_app, (completions_one _ Hc1), Hpre in Hpre0.
    discriminate Hpre0.
  - exfalso.
    destruct (first_completion_unique _ _ _ _ _ _ Hcalls
                (completions_catalog _ Hpre0) Hpre Hc0 Hc1) as (-> & -> & _).
    destruct Hnone as [Hnone|(m & Hm & Hempty)]; congruence.
  - exfalso.
    destruct (first_completion_unique _ _ _ _ _ _ Hcalls
                (completions_catalog _ Hpre0) Hpre Hc0 Hc1) as (-> & -> & _).
    apply Hnot. split; [exact Hw|]. congruence.
  - destruct (first_completion_unique _ _ _ _ _ _ Hcalls
                (completions_catalog _ Hpre0) Hpre Hc0 Hc1) as (-> & -> & Hpost).
    assert (msg0 = msg) by congruence. subst msg0.
    exists invokes, c2, results.
    split; [now rewrite Hpost|]. split; [now apply completions_invokes|].
    split; [exact Hc2|]. split; [exact Ht2|]. split; [exact Hm2|].
    split; [exact Hall|]. split; [exact Hsame|].
    exists mcpUrl, tenant. exact Hrounds.
Qed.

End TurnFacts.

(** The first completion request of a turn carries the messages built from
    the request. *)
Lemma agent_chat_first_messages {P : Platform} (w : world agent_call)
      (MCP_URL_DEFAULT : string) (s : value) (body : string)
      (pre post : list agent_call) (c1 : agent_call) :
  fst (run w (agent_chat MCP_URL_DEFAULT s body) []) = (pre ++ c1 :: post)%list ->
  completions pre = [] -> is_completion c1 = true ->
  first_messages body c1.
Proof.
  intros Hcalls Hpre Hc1.
  assert (Hnil : @nil agent_call = (pre ++ c1 :: post)%list -> first_messages body c1).
  { intros H. now destruct pre. }
  assert (Hcat : forall pre0, catalog_only pre0 -> pre0 = (pre ++ c1 :: post)%list ->
                              first_messages body c1).
  { intros pre0 H0 H. apply completions_catalog in H0. exfalso.
    rewrite H, completions_app in H0.
    change (c1 :: post) with ([c1] ++ post)%list in H0.
    rewrite completions_app, (completions_one _ Hc1) in H0.
    apply app_eq_nil in H0. destruct H0 as (_ & H0). discriminate H0. }
  unfold agent_chat in Hcalls. rewrite run_guarded in Hcalls. cbn [fst] in Hcalls.
  rewrite run_bind, run_lift in Hcalls.
  destruct (parse_body body) as [parsed|] eqn:Hparse; [|cbn [fst] in Hcalls; now apply Hnil].
  cbn beta iota in Hcalls. rewrite run_bind, run_lift in Hcalls.
  destruct (requested_provider parsed) as [provider|];
    [|cbn [fst] in Hcalls; now apply Hnil].
  cbn beta iota in Hcalls. rewrite run_bind, run_lift in Hcalls.
  destruct (providerConfig (JStr provider) s) as [cfg|];
    [|cbn [fst] in Hcalls; now apply Hnil].
  cbn beta iota in Hcalls.
  destruct (truthy (cfg_key cfg)) eqn:Hkey; cbn [negb] in Hcalls;
    [|cbn [run fst] in Hcalls; now apply Hnil].
  rewrite run_bind, run_lift in Hcalls.
  destruct (trimmed (prop parsed "model")) as [model|];
    [|cbn [fst] in Hcalls; now apply Hnil].
  cbn beta iota zeta in Hcalls. rewrite run_bind, run_lift in Hcalls.
  destruct (trimmed (prop parsed "system")) as [system|] eqn:Hsystem;
    [|cbn [fst] in Hcalls; now apply Hnil].
  cbn beta iota in Hcalls. rewrite run_bind, run_lift in Hcalls.
  destruct (trimmed (prop parsed "text")) as [textIn|] eqn:Htext;
    [|cbn [fst] in Hcalls; now apply Hnil].
  cbn beta iota in Hcalls.
  destruct (String.eqb textIn "") eqn:Hblank;
    [cbn [run fst] in Hcalls; now apply Hnil|].
  apply String.eqb_neq in Hblank.
  rewrite run_bind, run_lift in Hcalls.
  destruct (js_String (js_or (oget (prop s "mcp") "url") (JStr MCP_URL_DEFAULT)))
    as [mcpUrl0|]; [|cbn [fst] in Hcalls; now apply Hnil].
  cbn beta iota in Hcalls. rewrite run_bind, run_lift in Hcalls.
  destruct (js_String (js_or (oget (prop s "maximo") "defaultTenant") (JStr "default")))
    as [tenant|]; [|cbn [fst] in Hcalls; now apply Hnil].
  cbn beta iota in Hcalls. rewrite run_bind in Hcalls.
  destruct (run_fetch_tools w (truthy (oget (prop s "mcp") "enableTools"))
              (replace_suffix "/" "" (trim mcpUrl0)) tenant)
    as (pre0 & r & Hft & Hpre0).
  rewrite Hft in Hcalls.
  destruct r as [tools|e]; [|cbn [fst] in Hcalls; now apply (Hcat pre0)].
  rewrite run_bind in Hcalls.
  fold (turn_messages system textIn) in Hcalls.
  destruct (run_openaiCompatChat w cfg model
              (if nullish (prop parsed "temperature") then None
               else Some (prop parsed "temperature"))
              (turn_messages system textIn)
              (match tools with [] => None | _ => Some tools end) pre0 Hkey)
    as [(e & Hrun & _)
       |(key & c & _ & _ & _ & Hc & Hm & _ & [(e & Hrun & _)|(out & Hrun & _)])];
    rewrite Hrun in Hcalls.
  - cbn [fst] in Hcalls. now apply (Hcat pre0).
  - cbn [fst] in Hcalls.
    change (pre0 ++ [c])%list with (pre0 ++ c :: [])%list in Hcalls.
    destruct (first_completion_unique _ _ _ _ _ _ Hcalls
                (completions_catalog _ Hpre0) Hpre Hc Hc1) as (_ & -> & _).
    exists parsed, system, textIn. auto.
  - match type of Hcalls with
    | fst (run w ?k _) = _ =>
        destruct (run_extends w k (pre0 ++ [c])%list) as (new & Hnew)
    end.
    rewrite Hnew, <- app_assoc in Hcalls. cbn [app] in Hcalls.
    destruct (first_completion_unique _ _ _ _ _ _ Hcalls
                (completions_catalog _ Hpre0) Hpre Hc Hc1) as (_ & -> & _).
    exists parsed, system, textIn. auto.
Qed.

(** C1, as amended.  Whatever the network answers, a chat turn makes at
    most two completion requests, and its calls have one of the four shapes
    of [turn_calls].  The first completion request carries the system prompt
    (when the request has one) and the text of the user.  When its answer
    carries tool-call requests, none of them [null], and the broker answers
    every invocation, the calls that follow are the tool invocations, one
    for each request in order, and then exactly one completion request: it
    goes to the same provider, offers no tool catalog, and its messages are
    those of the first request, the assistant message and one tool result
    per tool call, in order, each with what the broker answered to the
    invocation of that call.  Nothing is requested after it, whatever its
    answer. *)
Theorem chat_turn_completions {P : Platform} (w : world agent_call)
        (MCP_URL_DEFAULT : string) (s : value) (body : string) :
  let calls := fst (run w (agent_chat MCP_URL_DEFAULT s body) []) in
  (length (completions calls) <= 2)%nat
  /\ turn_calls w calls
  /\ (forall pre c1 post,
         calls = (pre ++ c1 :: post)%list ->
         completions pre = [] -> is_completion c1 = true ->
         first_messages body c1)
  /\ forall pre c1 post msg,
      calls = (pre ++ c1 :: post)%list ->
      completions pre = [] -> is_completion c1 = true ->
      assistant_answer (w pre c1) = Some msg ->
      tool_calls_of msg <> [] ->
      broker_answers w -> tool_call_records (tool_calls_of msg) ->
      exists invokes c2 results,
        post = (invokes ++ [c2])%list
        /\ completions invokes = []
        /\ is_completion c2 = true
        /\ tools_of c2 = None
        /\ messages_of c2 = (messages_of c1 ++ msg :: results)%list
        /\ Forall2 result_for (tool_calls_of msg) results
        /\ same_provider c1 c2
        /\ exists mcpUrl tenant,
            tool_rounds w mcpUrl tenant (pre ++ [c1])%list (tool_calls_of msg)
                        invokes results.
Proof.
  cbn zeta.
  pose proof (agent_chat_calls w MCP_URL_DEFAULT s body) as Hshape.
  split; [now apply (turn_calls_at_most_two w)|].
  split; [exact Hshape|].
  split; [intros pre c1 post; apply agent_chat_first_messages|].
  intros pre c1 post msg. now apply turn_calls_follow_up.
Qed.

Lemma chat_turn_completions_witness :
  first_messages (P := sample_platform) "{chat}" first_request
  /\ exists invokes c2 results,
      [BrokerInvoke "http://mcp-server:8081/mcp/call" (JStr "maximo.queryOS")
                    (JObj [("raw", JStr "{os:")]) "default";
       BrokerInvoke "http://mcp-server:8081/mcp/call" (JStr "maximo.listOS")
                    (JObj []) "default";
       follow_up_request] = (invokes ++ [c2])%list
      /\ completions invokes = []
      /\ is_completion c2 = true
      /\ tools_of c2 = None
      /\ messages_of c2 = (messages_of first_request ++ sample_assistant :: results)%list
      /\ Forall2 result_for (tool_calls_of sample_assistant) results
      /\ same_provider first_request c2
      /\ exists mcpUrl tenant,
          tool_rounds (P := sample_platform) scripted mcpUrl tenant
            [CatalogFetch "http://mcp-server:8081/mcp/tools?tenant=default";
             first_request]
            (tool_calls_of sample_assistant) invokes results.
Proof.
  destruct (@chat_turn_completions sample_platform scripted
              "http://mcp-server:8081" chat_settings "{chat}") as (_ & _ & Hfirst & H).
  split.
  - apply (Hfirst [CatalogFetch "http://mcp-server:8081/mcp/tools?tenant=default"]
             first_request
             [BrokerInvoke "http://mcp-server:8081/mcp/call" (JStr "maximo.queryOS")
                           (JObj [("raw", JStr "{os:")]) "default";
              BrokerInvoke "http://mcp-server:8081/mcp/call" (JStr "maximo.listOS")
                           (JObj []) "default";
              follow_up_request]); reflexivity.
  - apply (H [CatalogFetch "http://mcp-server:8081/mcp/tools?tenant=default"]
             first_request).
    + reflexivity.
    + reflexivity.
    + reflexivity.
    + reflexivity.
    + discriminate.
    + intros made c Hc. destruct c; try discriminate Hc. do 2 eexists. reflexivity.
    + repeat constructor.
Defined.

(** C1 as stated fails: when the broker cannot be reached, the turn ends
    after the first tool invocation, although the answer to the first
    completion request carried tool-call requests; no follow-up completion
    is requested. *)
Lemma tool_calls_not_followed_up :
  ~ tool_calls_followed_up (P := sample_platform) broker_down
      "http://mcp-server:8081" chat_settings "{chat}".
Proof.
  intros H.
  apply (H [CatalogFetch "http://mcp-server:8081/mcp/tools?tenant=default"]
           first_request
           [BrokerInvoke "http://mcp-server:8081/mcp/call" (JStr "maximo.queryOS")
                         (JObj [("raw", JStr "{os:")]) "default"]
           sample_assistant).
  - reflexivity.
  - reflexivity.
  - reflexivity.
  - reflexivity.
  - discriminate.
  - reflexivity.
Qed.

(** C2.  When the provider configuration resolved for a chat request has an
    empty credential, the turn ends with status 400 and the error code
    [missing_api_key], and no call has been made: no catalog fetch, no
    completion, no tool invocation.  The completion helper itself refuses
    to call a provider without a credential. *)
Theorem missing_credential_no_calls {P : Platform} (w : world agent_call)
        (MCP_URL_DEFAULT : string) (s : value) (body : string)
        (parsed : value) (provider : string) (cfg : provider_cfg) :
  parse_body body = Ok parsed ->
  requested_provider parsed = Ok provider ->
  providerConfig (JStr provider) s = Ok cfg ->
  truthy (cfg_key cfg) = false ->
  run w (agent_chat MCP_URL_DEFAULT s body) []
  = ([], Ok (json 400 [("error", JStr "missing_api_key");
                       ("detail", JStr ("Missing " ++ provider ++ " API key"))]))
  /\ forall model temperature messages tools made,
      run w (openaiCompatChat cfg model temperature messages tools) made
      = (made, Throw ("missing_api_key:" ++ cfg_provider cfg)).
Proof.
  intros Hparse Hprov Hcfg Hkey. split.
  - unfold agent_chat. rewrite Hparse. cbn [lift iobind].
    rewrite Hprov. cbn [lift iobind]. rewrite Hcfg. cbn [lift iobind].
    rewrite Hkey. reflexivity.
  - intros. unfold openaiCompatChat. rewrite Hkey. reflexivity.
Qed.

Lemma missing_credential_no_calls_witness :
  run scripted
      (@agent_chat sample_platform "http://mcp-server:8081" keyless_settings "{chat}") []
  = ([], Ok (json 400 [("error", JStr "missing_api_key");
                       ("detail", JStr "Missing openai API key")])).
Proof.
  apply (@missing_credential_no_calls sample_platform scripted
           "http://mcp-server:8081" keyless_settings "{chat}"
           (JObj [("provider", JStr "OpenAI"); ("system", JStr "be brief");
                  ("text", JStr " show all assets ")])
           "openai"
           {| cfg_provider := "openai"; cfg_key := JStr "";
              cfg_base := "https://api.openai.com" |});
    reflexivity.
Defined.




(** * Further properties of the two servers *)

(** ** Backend base URLs *)

Lemma eqb_length (s1 s2 : string) :
  String.eqb s1 s2 = true -> String.length s1 = String.length s2.
Proof. intros H. apply String.eqb_eq in H. now subst. Qed.

Lemma append_length (s1 s2 : string) :
  String.length (s1 ++ s2) = (String.length s1 + String.length s2)%nat.
Proof. induction s1 as [|c s1 IH]; simpl; [reflexivity | now rewrite IH]. Qed.

Lemma append_assoc (s1 s2 s3 : string) : (s1 ++ s2) ++ s3 = s1 ++ s2 ++ s3.
Proof. induction s1 as [|c s1 IH]; simpl; [reflexivity | now rewrite IH]. Qed.

Lemma append_nonempty (s1 s2 : string) : s2 <> "" -> s1 ++ s2 <> "".
Proof. destruct s1; simpl; [auto | discriminate]. Qed.

Lemma eqb_longer (c : ascii) (p suffix : string) :
  String.eqb (String c (p ++ suffix)) suffix = false.
Proof.
  destruct (String.eqb (String c (p ++ suffix)) suffix) eqn:E; [|reflexivity].
  apply eqb_length in E. simpl in E. rewrite append_length in E. lia.
Qed.

Lemma replace_suffix_app (suffix by_ p : string) :
  replace_suffix suffix by_ (p ++ suffix) = p ++ by_.
Proof.
  induction p as [|c p IH].
  - cbn [append]. destruct suffix; cbn [replace_suffix];
      now rewrite String.eqb_refl.
  - cbn [append replace_suffix]. rewrite eqb_longer. now rewrite IH.
Qed.

Lemma ends_with_app (suffix p : string) : ends_with suffix (p ++ suffix) = true.
Proof.
  induction p as [|c p IH].
  - cbn [append]. destruct suffix; cbn [ends_with];
      now rewrite String.eqb_refl.
  - cbn [append ends_with]. now rewrite eqb_longer.
Qed.

Lemma ends_with_inv (suffix s : string) :
  ends_with suffix s = true -> exists p, s = p ++ suffix.
Proof.
  induction s as [|c s IH]; cbn [ends_with].
  - destruct (String.eqb "" suffix) eqn:E; [|discriminate].
    apply String.eqb_eq in E. subst. now exists "".
  - destruct (String.eqb (String c s) suffix) eqn:E.
    + apply String.eqb_eq in E. subst. now exists "".
    + intros H. destruct (IH H) as (p & ->). now exists (String c p).
Qed.

Lemma replace_suffix_keeps (suffix s : string) :
  ends_with suffix s = false -> forall by_, replace_suffix suffix by_ s = s.
Proof.
  induction s as [|c s IH]; cbn [ends_with replace_suffix]; intros H by_.
  - now destruct (String.eqb "" suffix).
  - destruct (String.eqb (String c s) suffix); [discriminate|].
    now rewrite IH.
Qed.

Lemma replace_suffix_head (p : ascii -> bool) (suffix s : string) :
  head_fails p s = true -> head_fails p (replace_suffix suffix "" s) = true.
Proof.
  destruct s as [|c s]; cbn [replace_suffix head_fails].
  - now destruct (String.eqb "" suffix).
  - now destruct (String.eqb (String c s) suffix).
Qed.

Lemma trim_end_app (p q : string) :
  trim_end q = q -> q <> "" -> trim_end (p ++ q) = p ++ q.
Proof.
  intros Hq Hne. induction p as [|c p IH]; [exact Hq|].
  cbn [append]. rewrite trim_end_cons; rewrite IH; [reflexivity|].
  now apply append_nonempty.
Qed.

Lemma trim_fixed (s : string) :
  head_fails is_ws s = true -> trim_end s = s -> trim s = s.
Proof. intros Hh He. unfold trim. now rewrite (trim_start_fixed s Hh). Qed.

Lemma head_fails_app (p : ascii -> bool) (s q : string) :
  s <> "" -> head_fails p s = true -> head_fails p (s ++ q) = true.
Proof. destruct s; [congruence | auto]. Qed.

(** A non-empty string that ends with [/maximo] and does not start with
    white space is left as it is by the normalization. *)
Lemma normMaximoBase_fixed (p : string) :
  head_fails is_ws (p ++ "/maximo") = true ->
  normMaximoBase (JStr (p ++ "/maximo")) = Ok (p ++ "/maximo").
Proof.
  intros Hhead. unfold normMaximoBase, js_or.
  assert (Hne : p ++ "/maximo" <> "") by (apply append_nonempty; discriminate).
  cbn [truthy]. apply String.eqb_neq in Hne. rewrite Hne. cbn [negb js_String rbind].
  rewrite (trim_fixed _ Hhead) by (apply trim_end_app; [reflexivity | discriminate]).
  rewrite (replace_suffix_keeps "/" (p ++ "/maximo")).
  - rewrite Hne. now rewrite ends_with_app.
  - clear. induction p as [|c p IH]; [reflexivity|].
    cbn [append ends_with].
    destruct (String.eqb (String c (p ++ "/maximo")) "/") eqn:E; [|exact IH].
    apply eqb_length in E. simpl in E. rewrite append_length in E.
    simpl in E. lia.
Qed.

Lemma normMaximoBase_shape (u : value) (b : string) :
  normMaximoBase u = Ok b ->
  b = "" \/ (exists p, b = p ++ "/maximo" /\ head_fails is_ws b = true).
Proof.
  unfold normMaximoBase. intros H.
  apply rbind_Ok in H. destruct H as (s0 & _ & H).
  set (s := replace_suffix "/" "" (trim s0)) in *.
  assert (Hhead : head_fails is_ws s = true).
  { apply replace_suffix_head. apply trim_end_head, trim_start_head. }
  destruct (String.eqb s "") eqn:E0; [injection H as <-; now left|].
  apply String.eqb_neq in E0. right.
  destruct (ends_with "/maximo" s) eqn:E; injection H as <-.
  - destruct (ends_with_inv _ _ E) as (p & Hp). exists p. now split.
  - exists s. split; [reflexivity | now apply head_fails_app].
Qed.

(** X1.  Normalizing a backend base URL twice gives the same string as
    normalizing it once. *)
Theorem normMaximoBase_idempotent (u : value) (b : string) :
  normMaximoBase u = Ok b -> normMaximoBase (JStr b) = Ok b.
Proof.
  intros H. destruct (normMaximoBase_shape u b H) as [->|(p & -> & Hhead)].
  - reflexivity.
  - now apply normMaximoBase_fixed.
Qed.

Lemma normMaximoBase_idempotent_witness :
  normMaximoBase (JStr "https://mas.example.com/maximo")
  = Ok "https://mas.example.com/maximo".
Proof.
  apply (normMaximoBase_idempotent (JStr "  https://mas.example.com/ ")).
  reflexivity.
Defined.

(** X2.  The API base of a backend is its normalized base followed by
    [/api]; it is empty exactly when the normalized base is. *)
Theorem maximoApiBase_extends_base (u : value) (a : string) :
  maximoApiBase u = Ok a ->
  exists b,
    normMaximoBase u = Ok b /\ normal_base b
    /\ (b = "" -> a = "") /\ (b <> "" -> a = b ++ "/api").
Proof.
  unfold maximoApiBase. intros H.
  apply rbind_Ok in H. destruct H as (b & Hb & H). injection H as <-.
  exists b. split; [exact Hb|].
  destruct (normMaximoBase_shape u b Hb) as [->|(p & -> & _)].
  - split; [now left|]. split; [reflexivity | congruence].
  - split; [right; now exists p|].
    assert (Hne : p ++ "/maximo" <> "") by (apply append_nonempty; discriminate).
    split; [congruence|]. intros _.
    apply String.eqb_neq in Hne. rewrite Hne.
    rewrite (replace_suffix_app "/maximo" "/maximo/api" p).
    now rewrite append_assoc.
Qed.

Lemma maximoApiBase_extends_base_witness :
  exists b,
    normMaximoBase (JStr "mas.example.com/") = Ok b /\ normal_base b
    /\ (b = "" -> "mas.example.com/maximo/api" = "")
    /\ (b <> "" -> "mas.example.com/maximo/api" = b ++ "/api").
Proof.
  apply (maximoApiBase_extends_base (JStr "mas.example.com/")). reflexivity.
Defined.

Lemma upper_ascii_twice (c : ascii) : upper_ascii (upper_ascii c) = upper_ascii c.
Proof. destruct c as [[] [] [] [] [] [] [] []]; reflexivity. Qed.

Lemma lower_ascii_twice (c : ascii) : lower_ascii (lower_ascii c) = lower_ascii c.
Proof. destruct c as [[] [] [] [] [] [] [] []]; reflexivity. Qed.

Lemma lower_upper_ascii (c : ascii) : lower_ascii (upper_ascii c) = lower_ascii c.
Proof. destruct c as [[] [] [] [] [] [] [] []]; reflexivity. Qed.

Lemma toUpperCase_twice (s : string) : toUpperCase (toUpperCase s) = toUpperCase s.
Proof.
  induction s as [|c s IH]; [reflexivity|].
  unfold toUpperCase in *. cbn [map_string]. now rewrite upper_ascii_twice, IH.
Qed.

Lemma toLowerCase_twice (s : string) : toLowerCase (toLowerCase s) = toLowerCase s.
Proof.
  induction s as [|c s IH]; [reflexivity|].
  unfold toLowerCase in *. cbn [map_string]. now rewrite lower_ascii_twice, IH.
Qed.

Lemma toLowerCase_toUpperCase (s : string) :
  ascii_text s = true -> toLowerCase (toUpperCase s) = toLowerCase s.
Proof.
  intros _.
  induction s as [|c s IH]; [reflexivity|].
  unfold toLowerCase, toUpperCase in *. cbn [map_string].
  now rewrite lower_upper_ascii, IH.
Qed.

Lemma toLowerCase_empty (s : string) : toLowerCase s = "" -> s = "".
Proof. destruct s; [reflexivity | discriminate]. Qed.

(** X3.  A resolved tenant is in normal form: its site is in upper case,
    its base URL is empty or ends with [/maximo] and is left unchanged by
    the normalization, and its API base is the base URL followed by [/api],
    empty when the base URL is. *)
Theorem resolveTenant_normalized
        (env : environment) (settings tenantId : value) (r : resolved_tenant) :
  resolveTenant env settings tenantId = Ok r ->
  toUpperCase (rt_site r) = rt_site r
  /\ normal_base (rt_baseUrl r)
  /\ normMaximoBase (JStr (rt_baseUrl r)) = Ok (rt_baseUrl r)
  /\ (rt_baseUrl r = "" -> rt_apiBase r = "")
  /\ (rt_baseUrl r <> "" -> rt_apiBase r = rt_baseUrl r ++ "/api").
Proof.
  intros H.
  destruct (resolveTenant_inv _ _ _ _ H)
    as (t & site0 & _ & Hbase & Hapi & _ & _ & Hsite & _).
  split; [rewrite Hsite; apply toUpperCase_twice|].
  destruct (normMaximoBase_shape _ _ Hbase) as [E|(p & E & Hhead)].
  - rewrite Hapi, E. repeat split; try congruence. now left.
  - assert (Hne : rt_baseUrl r <> "").
    { rewrite E. apply append_nonempty. discriminate. }
    split; [right; now exists p|]. split.
    + rewrite E in Hhead |- *. now apply normMaximoBase_fixed.
    + split; [congruence|]. intros _. rewrite Hapi.
      apply String.eqb_neq in Hne. rewrite Hne, E.
      rewrite (replace_suffix_app "/maximo" "/maximo/api" p).
      now rewrite append_assoc.
Qed.

Lemma resolveTenant_normalized_witness :
  normMaximoBase (JStr "https://acme.example.com/maximo")
  = Ok "https://acme.example.com/maximo".
Proof.
  destruct (resolveTenant_normalized secret_env
              (settings_with [fallback_tenant; acme] global_maximo)
              (JStr "acme") _ eq_refl) as (_ & _ & H & _).
  exact H.
Defined.

(** ** What a handler may do *)

Section HandlerLogic.
Context {C : Type}.

Lemma returns_only_bind {A B : Type} (Q : B -> Prop) (m : io C A) (k : A -> io C B) :
  (forall a, returns_only Q (k a)) -> returns_only Q (iobind m k).
Proof. intros Hk. induction m as [a|e|c k' IH]; simpl; auto. Qed.

Lemma returns_only_run {A : Type} (Q : A -> Prop) (p : io C A) :
  returns_only Q p ->
  forall (w : world C) made a, snd (run w p made) = Ok a -> Q a.
Proof.
  induction p as [a0|e|c k IH]; simpl; intros H w made a Hrun.
  - now injection Hrun as <-.
  - discriminate Hrun.
  - exact (IH _ (H _) w _ a Hrun).
Qed.

Lemma calls_only_bind {A B : Type} (Q : C -> Prop) (m : io C A) (k : A -> io C B) :
  calls_only Q m -> (forall a, calls_only Q (k a)) -> calls_only Q (iobind m k).
Proof.
  intros Hm Hk. induction m as [a|e|c k' IH]; simpl in *; auto.
  destruct Hm as (Hc & Hrest). split; auto.
Qed.

Lemma calls_only_lift {A : Type} (Q : C -> Prop) (r : result A) :
  calls_only Q (@lift C A r).
Proof. now destruct r. Qed.

Lemma calls_only_run {A : Type} (Q : C -> Prop) (p : io C A) :
  calls_only Q p ->
  forall (w : world C) made,
  exists new, fst (run w p made) = (made ++ new)%list /\ Forall Q new.
Proof.
  induction p as [a0|e|c k IH]; simpl; intros H w made.
  - exists []. now rewrite app_nil_r.
  - exists []. now rewrite app_nil_r.
  - destruct H as (Hc & Hk).
    destruct (IH (w made c) (Hk (w made c)) w (made ++ [c])%list)
      as (new & -> & Hnew).
    exists (c :: new). rewrite <- app_assoc. split; [reflexivity|].
    now constructor.
Qed.

Lemma calls_only_guarded (Q : C -> Prop) (code : string) (p : io C http_response) :
  calls_only Q p -> calls_only Q (guarded code p).
Proof.
  induction p as [a|e|c k IH]; simpl; auto.
  intros (Hc & Hk). split; auto.
Qed.

Lemma never_raises_guarded (code : string) (p : io C http_response) :
  never_raises (guarded code p).
Proof. induction p as [a|e|c k IH]; simpl; auto. Qed.

Lemma returns_only_guarded (Q : http_response -> Prop) (code : string)
      (p : io C http_response) :
  returns_only Q p ->
  (forall e, Q (json 500 [("error", JStr code); ("detail", JStr e)])) ->
  returns_only Q (guarded code p).
Proof.
  intros Hp He. induction p as [a|e|c k IH]; simpl in *; auto.
Qed.

Lemma never_raises_run {A : Type} (p : io C A) :
  never_raises p ->
  forall (w : world C) made, exists a, snd (run w p made) = Ok a.
Proof.
  induction p as [a0|e|c k IH]; simpl; intros H w made.
  - eauto.
  - contradiction.
  - apply IH, H.
Qed.

End HandlerLogic.

(** ** The chat route *)

Section ChatExtras.
Context {P : Platform}.

Lemma returns_only_reply_with (content : value) :
  returns_only chat_response (reply_with content).
Proof.
  unfold reply_with. apply returns_only_bind. intros reply. constructor.
Qed.

(** X4.  A chat turn never fails the process: whatever the request, the
    settings and the answers of the network, it ends with a response, which
    is a reply with status 200, one of the two rejections with status 400
    (no credential, no text), or a [server_error] with status 500. *)
Theorem agent_chat_answers (w : world agent_call)
        (MCP_URL_DEFAULT : string) (s : value) (body : string) :
  exists resp,
    snd (run w (agent_chat MCP_URL_DEFAULT s body) []) = Ok resp
    /\ chat_response resp.
Proof.
  destruct (never_raises_run (agent_chat MCP_URL_DEFAULT s body)
              (never_raises_guarded _ _) w []) as (resp & Hresp).
  exists resp. split; [exact Hresp|].
  apply (returns_only_run chat_response (agent_chat MCP_URL_DEFAULT s body))
    with (w := w) (made := @nil agent_call); [|exact Hresp].
  unfold agent_chat. apply returns_only_guarded; [|intros e; constructor].
  do 3 (apply returns_only_bind; intros ?).
  destruct (negb (truthy (cfg_key a1))); [constructor|].
  do 3 (apply returns_only_bind; intros ?).
  destruct (String.eqb a4 ""); [constructor|].
  do 4 (apply returns_only_bind; intros ?).
  cbn zeta.
  destruct (tool_calls_of (js_or (first_message a8) (JObj []))).
  - apply returns_only_reply_with.
  - do 2 (apply returns_only_bind; intros ?). apply returns_only_reply_with.
Qed.

(** X5.  A chat request whose text is missing or blank never reaches the
    network, and is never answered with status 200. *)
Theorem blank_text_no_calls (w : world agent_call)
        (MCP_URL_DEFAULT : string) (s : value) (body : string) (parsed : value) :
  parse_body body = Ok parsed ->
  trimmed (prop parsed "text") = Ok "" ->
  fst (run w (agent_chat MCP_URL_DEFAULT s body) []) = []
  /\ exists resp,
      snd (run w (agent_chat MCP_URL_DEFAULT s body) []) = Ok resp
      /\ http_status resp <> 200%Z.
Proof.
  intros Hparse Htext. unfold agent_chat. rewrite run_guarded.
  rewrite Hparse. cbn [lift iobind].
  destruct (requested_provider parsed) as [provider|];
    [|cbn; split; [reflexivity | eexists; split; [reflexivity | discriminate]]].
  cbn [lift iobind].
  destruct (providerConfig (JStr provider) s) as [cfg|];
    [|cbn; split; [reflexivity | eexists; split; [reflexivity | discriminate]]].
  cbn [lift iobind].
  destruct (negb (truthy (cfg_key cfg)));
    [cbn; split; [reflexivity | eexists; split; [reflexivity | discriminate]]|].
  destruct (trimmed (prop parsed "model")) as [model|];
    [|cbn; split; [reflexivity | eexists; split; [reflexivity | discriminate]]].
  cbn [lift iobind].
  destruct (trimmed (prop parsed "system")) as [system|];
    [|cbn; split; [reflexivity | eexists; split; [reflexivity | discriminate]]].
  cbn [lift iobind]. rewrite Htext.
  cbn; split; [reflexivity | eexists; split; [reflexivity | discriminate]].
Qed.

End ChatExtras.

Lemma blank_text_no_calls_witness :
  fst (run scripted
           (@agent_chat sample_platform "http://mcp-server:8081" chat_settings "{}") [])
  = [].
Proof.
  destruct (@blank_text_no_calls sample_platform scripted
              "http://mcp-server:8081" chat_settings "{}" (JObj []))
    as (H & _); [reflexivity | reflexivity | exact H].
Defined.


Lemma requested_provider_lower (parsed : value) (p : string) :
  requested_provider parsed = Ok p -> toLowerCase p = p.
Proof.
  unfold requested_provider. intros H.
  apply rbind_Ok in H. destruct H as (x & _ & H).
  apply rbind_Ok in H. destruct H as (s & _ & H).
  injection H as <-. apply toLowerCase_twice.
Qed.

(** X6.  A chat request that names a provider other than openai, mistral
    and deepseek is answered with status 400 and [missing_api_key], and no
    call is made, whatever keys are configured. *)
Theorem unknown_provider_no_calls {P : Platform} (w : world agent_call)
        (MCP_URL_DEFAULT : string) (s : value) (body : string)
        (parsed : value) (provider : string) :
  parse_body body = Ok parsed ->
  requested_provider parsed = Ok provider ->
  provider <> "" -> known_provider provider = false ->
  nullish s = false ->
  run w (agent_chat MCP_URL_DEFAULT s body) []
  = ([], Ok (json 400 [("error", JStr "missing_api_key");
                       ("detail", JStr ("Missing " ++ provider ++ " API key"))])).
Proof.
  intros Hparse Hprov Hne Hknown Hs.
  assert (Hcfg : providerConfig (JStr provider) s
                 = Ok {| cfg_provider := provider; cfg_key := JStr "";
                         cfg_base := "" |}).
  { unfold providerConfig, js_or, get. cbn [truthy].
    pose proof Hne as Hne'. apply String.eqb_neq in Hne'. rewrite Hne'.
    cbn [negb js_String rbind].
    rewrite (requested_provider_lower _ _ Hprov), Hs. cbn [rbind].
    unfold known_provider in Hknown. rewrite !orb_false_iff in Hknown.
    destruct Hknown as ((-> & ->) & ->). reflexivity. }
  unfold agent_chat. rewrite Hparse. cbn [lift iobind].
  rewrite Hprov. cbn [lift iobind]. rewrite Hcfg. reflexivity.
Qed.

Lemma unknown_provider_no_calls_witness :
  run scripted
      (@agent_chat extra_platform "http://mcp-server:8081" chat_settings "{claude}") []
  = ([], Ok (json 400 [("error", JStr "missing_api_key");
                       ("detail", JStr "Missing anthropic API key")])).
Proof.
  apply (@unknown_provider_no_calls extra_platform scripted
           "http://mcp-server:8081" chat_settings "{claude}"
           (JObj [("provider", JStr "Anthropic"); ("text", JStr "hello")])
           "anthropic"); try reflexivity.
  discriminate.
Defined.

(** X7.  Provider names made of ASCII characters are matched without
    regard to case: such a name in upper case resolves to the configuration
    of the name itself.  (Beyond ASCII the two case mappings of JavaScript
    do not cancel, and the statement is not made.) *)
Theorem providerConfig_ignores_case (p : string) (s : value) :
  ascii_text p = true ->
  providerConfig (JStr (toUpperCase p)) s = providerConfig (JStr p) s.
Proof.
  intros Hascii.
  destruct p as [|c p]; [reflexivity|].
  unfold providerConfig.
  replace (js_or (JStr (toUpperCase (String c p))) (JStr "openai"))
    with (JStr (toUpperCase (String c p))) by reflexivity.
  replace (js_or (JStr (String c p)) (JStr "openai"))
    with (JStr (String c p)) by reflexivity.
  cbn [js_String rbind]. now rewrite (toLowerCase_toUpperCase _ Hascii).
Qed.

Lemma providerConfig_ignores_case_witness :
  ascii_text "Mistral" = true
  /\ providerConfig (JStr (toUpperCase "Mistral")) keyless_settings
     = providerConfig (JStr "Mistral") keyless_settings.
Proof.
  split; [reflexivity|].
  apply (providerConfig_ignores_case "Mistral" keyless_settings). reflexivity.
Defined.

Lemma slice0_prefix (n : nat) (s : string) : is_prefix (slice0 n s) s.
Proof.
  revert s. induction n as [|n IH]; intros s.
  - exists s. now destruct s.
  - destruct s as [|c s]; [now exists ""|].
    destruct (IH s) as (rest & Hrest). exists rest.
    cbn [slice0 append]. now rewrite <- Hrest.
Qed.

Lemma slice0_length (n : nat) (s : string) :
  (String.length (slice0 n s) <= n)%nat.
Proof.
  revert s. induction n as [|n IH]; intros s.
  - destruct s; simpl; lia.
  - destruct s as [|c s]; simpl; [lia|]. specialize (IH s). lia.
Qed.

Section ToolExtras.
Context {P : Platform}.

Lemma calls_only_exec_tools (mcpUrl tenant : string) (toolCalls follow : list value) :
  calls_only offers_no_tools (exec_tools mcpUrl tenant toolCalls follow).
Proof.
  revert follow. induction toolCalls as [|tc rest IH]; intros follow; [exact I|].
  cbn [exec_tools]. unfold fetchJson. cbn [iobind calls_only].
  split; [exact I|]. intros [msg|status text]; [exact I|].
  cbn [iobind]. apply calls_only_bind; [apply calls_only_lift|].
  intros id. apply IH.
Qed.

Lemma calls_only_plain_completion (cfg : provider_cfg) (model : string)
      (temperature : option value) (messages : list value) :
  calls_only offers_no_tools
    (openaiCompatChat cfg model temperature messages None).
Proof.
  unfold openaiCompatChat. destruct (negb (truthy (cfg_key cfg))); [exact I|].
  apply calls_only_bind; [apply calls_only_lift|]. intros _.
  apply calls_only_bind; [apply calls_only_lift|]. intros key.
  unfold fetchJson. cbn [iobind calls_only]. split; [reflexivity|].
  intros [msg|status text]; [exact I|]. cbn [iobind].
  now destruct (_ || _).
Qed.

(** X8.  When tool orchestration is switched off in the settings, a chat
    turn never fetches the catalog of the broker and never offers tools to
    the provider: none of its calls is a catalog request, and no completion
    request has a [tools] field.  The switch does not gate the tool loop: a
    provider that asks for tools unprompted is still served
    ([ToolsOffExamples.unprompted_tool_calls]). *)
Theorem tools_disabled_none_offered (w : world agent_call)
        (MCP_URL_DEFAULT : string) (s : value) (body : string) :
  truthy (oget (prop s "mcp") "enableTools") = false ->
  Forall offers_no_tools (fst (run w (agent_chat MCP_URL_DEFAULT s body) [])).
Proof.
  intros Hoff.
  destruct (calls_only_run offers_no_tools (agent_chat MCP_URL_DEFAULT s body))
    with (w := w) (made := @nil agent_call) as (new & -> & Hnew); [|exact Hnew].
  unfold agent_chat. apply calls_only_guarded.
  do 3 (apply calls_only_bind; [apply calls_only_lift|]; intros ?).
  destruct (negb (truthy (cfg_key a1))); [exact I|].
  do 3 (apply calls_only_bind; [apply calls_only_lift|]; intros ?).
  destruct (String.eqb a4 ""); [exact I|].
  do 2 (apply calls_only_bind; [apply calls_only_lift|]; intros ?).
  rewrite Hoff. cbn [fetch_tools andb iobind].
  apply calls_only_bind; [apply calls_only_plain_completion|]. intros out1.
  cbn zeta. destruct (tool_calls_of (js_or (first_message out1) (JObj []))).
  - unfold reply_with. apply calls_only_bind; [apply calls_only_lift|].
    intros reply. exact I.
  - apply calls_only_bind; [apply calls_only_exec_tools|]. intros follow.
    apply calls_only_bind; [apply calls_only_plain_completion|]. intros out2.
    unfold reply_with. apply calls_only_bind; [apply calls_only_lift|].
    intros reply. exact I.
Qed.

(** X9.  A catalog that cannot be used does not stop the turn: when the
    broker answers the catalog request with a status outside 200..299, with
    a body that cannot be decoded, or with a document whose [tools] field is
    not an array, the turn goes on with an empty list of tools. *)
Theorem unusable_catalog_no_tools (w : world agent_call)
        (mcpUrl tenant : string) (made : list agent_call)
        (status : Z) (text : string) :
  mcpUrl <> "" ->
  w made (CatalogFetch (mcpUrl ++ "/mcp/tools?tenant=" ++ encodeURIComponent tenant))
  = Response status text ->
  ((status < 200)%Z \/ (299 < status)%Z \/ JSON_parse text = None
   \/ exists j, JSON_parse text = Some j /\ isArray (prop j "tools") = false) ->
  run w (fetch_tools true mcpUrl tenant) made
  = ((made ++ [CatalogFetch (mcpUrl ++ "/mcp/tools?tenant="
                            ++ encodeURIComponent tenant)])%list,
     Ok []).
Proof.
  intros Hurl Hw Hbad. unfold fetch_tools.
  apply String.eqb_neq in Hurl. rewrite Hurl. cbn [negb andb].
  rewrite run_bind, run_fetchJson, Hw. cbn beta iota.
  cbn [f_ok f_json]. rewrite run_lift. f_equal.
  assert (Hraw : (if (200 <=? status)%Z && (status <=? 299)%Z
                     && truthy match JSON_parse text with
                               | Some j => j
                               | None => JNull
                               end
                     && isArray (prop match JSON_parse text with
                                      | Some j => j
                                      | None => JNull
                                      end "tools")
                  then prop match JSON_parse text with
                            | Some j => j
                            | None => JNull
                            end "tools"
                  else JArr []) = JArr []).
  { destruct Hbad as [H|[H|[H|(j & H & Harr)]]].
    - apply Z.leb_gt in H. now rewrite H.
    - apply Z.leb_gt in H. rewrite H. now rewrite andb_false_r.
    - rewrite H. cbn [truthy]. now rewrite andb_false_r.
    - rewrite H, Harr. now rewrite andb_false_r. }
  now rewrite Hraw.
Qed.

(** X10.  With a credential, a completion either stops before the provider
    is called, because the temperature or the credential of the request
    cannot be converted and the conversion throws, or calls the provider
    once; when the provider then answers with a status outside 200..299, the
    completion throws an error that carries the status and an excerpt of the
    body: a prefix of it of at most 300 characters. *)
Theorem failed_completion_excerpt (w : world agent_call)
        (cfg : provider_cfg) (model : string) (temperature : option value)
        (messages : list value) (tools : option (list value))
        (made : list agent_call) (status : Z) (text : string) :
  truthy (cfg_key cfg) = true ->
  (forall c, w made c = Response status text) ->
  (status < 200)%Z \/ (299 < status)%Z ->
  (exists e, run w (openaiCompatChat cfg model temperature messages tools) made
             = (made, Throw e)
             /\ (number_of_temperature temperature = Throw e
                 \/ (number_of_temperature temperature = Ok tt
                     /\ js_String (cfg_key cfg) = Throw e)))
  \/ exists c excerpt,
      number_of_temperature temperature = Ok tt
      /\ is_completion c = true
      /\ run w (openaiCompatChat cfg model temperature messages tools) made
         = ((made ++ [c])%list,
            Throw ("AI request failed (" ++ NilZero.string_of_int (Z.to_int status)
                   ++ "). " ++ excerpt))
      /\ is_prefix excerpt text
      /\ (String.length excerpt <= 300)%nat.
Proof.
  intros Hkey Hw Hbad. unfold openaiCompatChat. rewrite Hkey. cbn [negb].
  rewrite run_bind, run_lift.
  destruct (number_of_temperature temperature) as [[]|e];
    [|left; exists e; split; [reflexivity | now left]].
  cbn beta iota. rewrite run_bind, run_lift.
  destruct (js_String (cfg_key cfg)) as [key|e];
    [|left; exists e; split; [reflexivity | now right]].
  right. eexists (Completion _ _ _). exists (slice0 300 text).
  rewrite run_bind, run_fetchJson, Hw. cbn beta iota. cbn [f_ok f_status f_text].
  assert (Hok : (200 <=? status)%Z && (status <=? 299)%Z = false).
  { destruct Hbad as [H|H]; apply Z.leb_gt in H; rewrite H;
      [reflexivity | apply andb_false_r]. }
  rewrite Hok. cbn [negb orb run].
  split; [reflexivity|]. split; [reflexivity|]. split; [reflexivity|].
  split; [apply slice0_prefix | apply slice0_length].
Qed.

(** X11.  When the broker answers and the tool-call requests are records,
    the loop invokes the broker exactly once for each tool-call request, in
    the order of the requests, each time with the name and the decoded
    arguments of the request and the tenant of the turn. *)
Theorem exec_tools_one_invoke_each (w : world agent_call)
        (mcpUrl tenant : string) (toolCalls follow : list value)
        (made : list agent_call) :
  broker_answers w -> tool_call_records toolCalls ->
  fst (run w (exec_tools mcpUrl tenant toolCalls follow) made)
  = (made ++ List.map (invoke_of mcpUrl tenant) toolCalls)%list.
Proof.
  intros Hw Hrec. revert follow made.
  induction Hrec as [|tc rest Htc _ IH]; intros follow made.
  - simpl. now rewrite app_nil_r.
  - rewrite run_exec_tools_cons. cbn zeta.
    fold (invoke_of mcpUrl tenant tc).
    destruct (Hw made (invoke_of mcpUrl tenant tc) eq_refl)
      as (status & text & ->).
    unfold get. rewrite Htc. rewrite IH. cbn [List.map].
    now rewrite <- app_assoc.
Qed.

End ToolExtras.

Lemma tools_disabled_none_offered_witness :
  Forall offers_no_tools
    (fst (run scripted
              (@agent_chat sample_platform "http://mcp-server:8081"
                           settings_without_tools "{chat}") [])).
Proof.
  apply (@tools_disabled_none_offered sample_platform). reflexivity.
Defined.

Lemma unusable_catalog_no_tools_witness :
  run (fun _ _ => Response 503 "busy")
      (@fetch_tools sample_platform true "http://mcp-server:8081" "default") []
  = ([CatalogFetch "http://mcp-server:8081/mcp/tools?tenant=default"], Ok []).
Proof.
  apply (@unusable_catalog_no_tools sample_platform (fun _ _ => Response 503 "busy")
           "http://mcp-server:8081" "default" [] 503 "busy").
  - discriminate.
  - reflexivity.
  - right. left. reflexivity.
Defined.

Lemma failed_completion_excerpt_witness :
  exists excerpt,
    snd (run (fun _ _ => Response 401 "invalid key")
             (@openaiCompatChat sample_platform
                {| cfg_provider := "openai"; cfg_key := JStr "sk-test";
                   cfg_base := "https://api.openai.com" |}
                "" (Some (JNum 1)) sample_messages None) [])
    = Throw ("AI request failed (401). " ++ excerpt)
    /\ is_prefix excerpt "invalid key".
Proof.
  destruct (@failed_completion_excerpt sample_platform
              (fun _ _ => Response 401 "invalid key")
              {| cfg_provider := "openai"; cfg_key := JStr "sk-test";
                 cfg_base := "https://api.openai.com" |}
              "" (Some (JNum 1)) sample_messages None [] 401 "invalid key")
    as [(e & _ & [He|(_ & He)])|(c & excerpt & _ & _ & Hrun & Hpre & _)].
  - reflexivity.
  - reflexivity.
  - right. reflexivity.
  - discriminate He.
  - discriminate He.
  - exists excerpt. rewrite Hrun. split; [reflexivity | exact Hpre].
Defined.

Module ToolsOffExamples.
(** With tool orchestration switched off: no catalog request and no tools
    offered, yet the tool calls the provider asks for are invoked. *)
Example unprompted_tool_calls :
  fst (run scripted
           (@agent_chat sample_platform "http://mcp-server:8081"
                        settings_without_tools "{chat}") [])
  = [Completion "https://api.openai.com/v1/chat/completions" "Bearer sk-test"
       {| cb_model := "gpt-4o-mini"; cb_temperature := None;
          cb_messages := sample_messages; cb_tools := None |};
     BrokerInvoke "http://mcp-server:8081/mcp/call" (JStr "maximo.queryOS")
                  (JObj [("raw", JStr "{os:")]) "default";
     BrokerInvoke "http://mcp-server:8081/mcp/call" (JStr "maximo.listOS")
                  (JObj []) "default";
     follow_up_request].
Proof. reflexivity. Qed.

(** A temperature that cannot be converted to a number stops the
    completion before the provider is called. *)
Example temperature_cannot_convert :
  run scripted
      (@openaiCompatChat sample_platform
         {| cfg_provider := "openai"; cfg_key := JStr "sk-test";
            cfg_base := "https://api.openai.com" |}
         "" (Some (JObj [("toString", JNum 1)])) sample_messages None) []
  = ([], Throw "TypeError: Cannot convert object to primitive value").
Proof. reflexivity. Qed.
End ToolsOffExamples.

Lemma exec_tools_one_invoke_each_witness :
  fst (run scripted
           (@exec_tools sample_platform "http://mcp-server:8081" "default"
                        [broken_call; bare_call] sample_messages) [])
  = [BrokerInvoke "http://mcp-server:8081/mcp/call" (JStr "maximo.queryOS")
                  (JObj [("raw", JStr "{os:")]) "default";
     BrokerInvoke "http://mcp-server:8081/mcp/call" (JStr "maximo.listOS")
                  (JObj []) "default"].
Proof.
  apply (@exec_tools_one_invoke_each sample_platform scripted
           "http://mcp-server:8081" "default" [broken_call; bare_call]
           sample_messages []).
  - intros made c Hc. destruct c; try discriminate Hc. do 2 eexists. reflexivity.
  - repeat constructor.
Defined.

(** ** The catalog of the MCP server *)

Module CatalogExamples.
Example native_catalog :
  mcpToOpenAITools MCP_NATIVE_TOOLS
  = Ok [mk_tool "maximo.listOS" "List object structures (/os)." listOS_schema;
        mk_tool "maximo.queryOS" "Query an object structure with OSLC params."
                queryOS_schema].
Proof. reflexivity. Qed.

Example nameless_dropped :
  mcpToOpenAITools (JArr [JObj [("description", JStr "no name")];
                          JObj [("name", JStr "t")]])
  = Ok [mk_tool "t" "" open_schema].
Proof. reflexivity. Qed.

Example null_record_throws :
  exists msg, mcpToOpenAITools (JArr [JNull]) = Throw msg.
Proof. eexists. reflexivity. Qed.
End CatalogExamples.

Lemma mcp_tool_shape (t tool : value) :
  mcp_tool t = Ok tool ->
  exists name description parameters,
    tool = mk_tool name description parameters /\ js_object parameters = true.
Proof.
  unfold mcp_tool. intros H.
  apply rbind_Ok in H. destruct H as (n & _ & H).
  apply rbind_Ok in H. destruct H as (name & _ & H).
  apply rbind_Ok in H. destruct H as (description & _ & H).
  injection H as <-. do 3 eexists. split; [reflexivity|].
  apply js_object_schema_or_default.
Qed.

Lemma convert_tools_named (mapped : list value) :
  Forall (fun tool => exists name description parameters,
              tool = mk_tool name description parameters
              /\ js_object parameters = true) mapped ->
  convert_tools
    (List.filter (fun x => truthy (prop (prop x "function") "name")) mapped)
  = Ok (List.filter (fun x => truthy (prop (prop x "function") "name")) mapped).
Proof.
  induction 1 as [|tool l (n & d & p & -> & Hp) _ IH]; [reflexivity|].
  cbn [List.filter].
  destruct (truthy (prop (prop (mk_tool n d p) "function") "name")) eqn:E;
    [|exact IH].
  cbn [convert_tools].
  rewrite (convert_tool_mk_tool n d p); [|now apply truthy_JStr|exact Hp].
  cbn [rbind]. now rewrite IH.
Qed.

(** X12.  What the MCP server publishes as its catalog passes through the
    normalizer of the agent unchanged: the two sides agree on the canonical
    shape. *)
Theorem published_catalog_is_canonical (tools : value) (out : list value) :
  mcpToOpenAITools tools = Ok out -> toOpenAITools (JArr out) = Ok out.
Proof.
  unfold mcpToOpenAITools, toOpenAITools. intros H.
  apply rbind_Ok in H. destruct H as (mapped & Hmap & H). injection H as <-.
  apply convert_tools_named.
  eapply map_result_Forall; [|exact Hmap].
  apply mcp_tool_shape.
Qed.

Lemma published_catalog_is_canonical_witness :
  exists out,
    mcpToOpenAITools MCP_NATIVE_TOOLS = Ok out
    /\ toOpenAITools (JArr out) = Ok out /\ List.length out = 2%nat.
Proof.
  eexists. split; [reflexivity|]. split; [|reflexivity].
  apply (published_catalog_is_canonical MCP_NATIVE_TOOLS). reflexivity.
Defined.

(** ** The tool route of the MCP server *)

Section McpExtras.
Context {P : Platform}.

Lemma run_fetchJson_any {C : Type} (w : world C) (c : C) (made : list C) :
  run w (fetchJson c) made
  = ((made ++ [c])%list,
     match w made c with
     | Rejected msg => Throw msg
     | Response status text =>
         Ok {| f_ok := (200 <=? status)%Z && (status <=? 299)%Z;
               f_status := status; f_text := text;
               f_json := match JSON_parse text with
                         | Some j => j
                         | None => JNull
                         end |}
     end).
Proof. unfold fetchJson. simpl. now destruct (w made c). Qed.

Lemma queryOS_url_inv (tenant : resolved_tenant) (args : value) (os url : string) :
  queryOS_url tenant args = Ok (inr (os, url)) ->
  exists where0 select orderBy pageSize,
    trimmed (prop args "os") = Ok os /\ os <> ""
    /\ param (params_in args) "oslc.where" = Ok where0
    /\ param (params_in args) "oslc.select" = Ok select
    /\ param (params_in args) "oslc.orderBy" = Ok orderBy
    /\ param (params_in args) "oslc.pageSize" = Ok pageSize
    /\ url = rt_apiBase tenant ++ "/os/" ++ encodeURIComponent os ++ "?"
             ++ URLSearchParams_toString
                  (set_params
                     [("oslc.where",
                       if negb (String.eqb where0 "") then where0
                       else if negb (String.eqb (rt_site tenant) "")
                            then "siteid=" ++ dquote ++ rt_site tenant ++ dquote
                            else "");
                      ("oslc.select", select); ("oslc.orderBy", orderBy);
                      ("oslc.pageSize", pageSize)]).
Proof.
  unfold queryOS_url, trimmed. fold (js_object (prop args "params")).
  fold (params_in args). intros H.
  apply rbind_Ok in H. destruct H as (os0 & Hos & H). rewrite Hos. cbn [rbind].
  destruct (String.eqb (trim os0) "") eqn:E; [discriminate H|].
  apply rbind_Ok in H. destruct H as (where0 & Hw & H).
  apply rbind_Ok in H. destruct H as (select & Hs & H).
  apply rbind_Ok in H. destruct H as (orderBy & Ho & H).
  apply rbind_Ok in H. destruct H as (pageSize & Hp & H).
  injection H as <- <-.
  exists where0, select, orderBy, pageSize.
  repeat split; try assumption. now apply String.eqb_neq.
Qed.

Lemma queryOS_calls (w : world backend_call) (tenant : resolved_tenant)
      (args : value) :
  fst (run w (queryOS tenant args) []) = []
  \/ exists url,
      is_prefix (rt_apiBase tenant ++ "/os") url
      /\ fst (run w (queryOS tenant args) []) = [BackendGet url (rt_apiKey tenant)].
Proof.
  unfold queryOS. rewrite run_bind, run_lift.
  destruct (queryOS_url tenant args) as [[answer|[os url]]|] eqn:Hurl;
    [now left| |now left].
  right. exists url. split.
  - destruct (queryOS_url_inv _ _ _ _ Hurl)
      as (w0 & sel & ord & pg & _ & _ & _ & _ & _ & _ & ->).
    exists ("/" ++ encodeURIComponent os ++ "?"
            ++ URLSearchParams_toString
                 (set_params
                    [("oslc.where",
                      if negb (String.eqb w0 "") then w0
                      else if negb (String.eqb (rt_site tenant) "")
                           then "siteid=" ++ dquote ++ rt_site tenant ++ dquote
                           else "");
                     ("oslc.select", sel); ("oslc.orderBy", ord);
                     ("oslc.pageSize", pg)])).
    now rewrite append_assoc.
  - cbn beta iota. rewrite run_bind, run_fetchJson_any.
    destruct (w [] _); [reflexivity|]. cbn beta iota.
    now destruct (_ || _).
Qed.

Lemma listOS_calls (w : world backend_call) (tenant : resolved_tenant) :
  fst (run w (listOS tenant) [])
  = [BackendGet (rt_apiBase tenant ++ "/os") (rt_apiKey tenant)].
Proof.
  unfold listOS. cbn zeta. rewrite run_bind, run_fetchJson_any.
  destruct (w [] _); [reflexivity|]. cbn beta iota.
  now destruct (_ || _).
Qed.

(** X13.  A tool invocation makes at most one call, and only to the
    backend of the tenant it resolved: the call is sent under the API base of
    that tenant, which is not empty, and carries the credential of that
    tenant, which is not empty either.  Without a base URL or a credential,
    without a tool name, or for an unknown tool, no call is made. *)
Theorem mcp_call_reaches_own_backend (w : world backend_call)
        (env : environment) (settings : value) (body : string) :
  fst (run w (mcp_call env settings body) []) = []
  \/ exists parsed tenant url,
      parse_body body = Ok parsed
      /\ resolveTenant env settings (prop parsed "tenant") = Ok tenant
      /\ rt_apiBase tenant <> ""
      /\ truthy (rt_apiKey tenant) = true
      /\ is_prefix (rt_apiBase tenant ++ "/os") url
      /\ fst (run w (mcp_call env settings body) [])
         = [BackendGet url (rt_apiKey tenant)].
Proof.
  unfold mcp_call. rewrite run_guarded. cbn [fst].
  rewrite run_bind, run_lift.
  destruct (parse_body body) as [parsed|] eqn:Hparse; [|now left].
  cbn beta iota. rewrite run_bind, run_lift.
  destruct (n <- get parsed "name";; js_String (js_or n (JStr "")))
    as [name0|]; [|now left].
  cbn beta iota. rewrite run_bind, run_lift.
  destruct (resolveTenant env settings (prop parsed "tenant"))
    as [tenant|] eqn:Hten; [|now left].
  cbn beta iota.
  destruct (String.eqb (trim name0) ""); [now left|].
  destruct (String.eqb (rt_apiBase tenant) "") eqn:Hbase; [now left|].
  destruct (truthy (rt_apiKey tenant)) eqn:Hkey; [|now left].
  cbn [negb orb]. apply String.eqb_neq in Hbase.
  destruct (String.eqb (trim name0) "maximo.listOS").
  { right. exists parsed, tenant, (rt_apiBase tenant ++ "/os").
    repeat split; try assumption.
    - exists "". clear. induction (rt_apiBase tenant ++ "/os"); simpl; congruence.
    - apply listOS_calls. }
  destruct (String.eqb (trim name0) "maximo.queryOS"); [|now left].
  destruct (queryOS_calls w tenant (js_or (prop parsed "args") (JObj [])))
    as [H|(url & Hpre & H)]; [now left|].
  right. exists parsed, tenant, url. repeat split; assumption.
Qed.

(** X14.  A request for a tool other than [maximo.listOS] and
    [maximo.queryOS] is answered with status 404 and [unknown_tool], with the
    name as it was read, and no backend is called. *)
Theorem unknown_tool_not_found (w : world backend_call)
        (env : environment) (settings : value) (body : string)
        (parsed : value) (name0 : string) (tenant : resolved_tenant) :
  parse_body body = Ok parsed ->
  (n <- get parsed "name" ;; js_String (js_or n (JStr ""))) = Ok name0 ->
  resolveTenant env settings (prop parsed "tenant") = Ok tenant ->
  rt_apiBase tenant <> "" -> truthy (rt_apiKey tenant) = true ->
  trim name0 <> "" ->
  trim name0 <> "maximo.listOS" -> trim name0 <> "maximo.queryOS" ->
  run w (mcp_call env settings body) []
  = ([], Ok (json 404 [("error", JStr "unknown_tool");
                       ("name", JStr (trim name0))])).
Proof.
  intros Hparse Hname Hten Hbase Hkey H0 H1 H2.
  unfold mcp_call. rewrite Hparse. cbn [lift iobind].
  rewrite Hname. cbn [lift iobind]. rewrite Hten. cbn [lift iobind].
  apply String.eqb_neq in Hbase, H0, H1, H2.
  rewrite H0, Hbase, Hkey, H1, H2. reflexivity.
Qed.

(** X15.  When the backend answers a query with a status outside 200..299
    or with a body that does not decode to a usable document, the MCP server
    answers [maximo_failed] with the status of the backend (500 when that is
    0), the URL it called and an excerpt of the body: a prefix of it of at
    most 800 characters.  A body that cannot be used under a 2xx status is
    thus reported under that 2xx status. *)
Theorem queryOS_backend_failure (w : world backend_call)
        (tenant : resolved_tenant) (args : value) (made : list backend_call)
        (os url : string) (status : Z) (text : string) :
  queryOS_url tenant args = Ok (inr (os, url)) ->
  w made (BackendGet url (rt_apiKey tenant)) = Response status text ->
  ((status < 200)%Z \/ (299 < status)%Z
   \/ truthy (match JSON_parse text with Some j => j | None => JNull end) = false) ->
  exists excerpt,
    run w (queryOS tenant args) made
    = ((made ++ [BackendGet url (rt_apiKey tenant)])%list,
       Ok (backend_failure status excerpt url))
    /\ is_prefix excerpt text /\ (String.length excerpt <= 800)%nat.
Proof.
  intros Hurl Hw Hbad. exists (slice0 800 text).
  split; [|split; [apply slice0_prefix | apply slice0_length]].
  unfold queryOS. rewrite run_bind, run_lift, Hurl. cbn beta iota.
  rewrite run_bind, run_fetchJson_any, Hw. cbn beta iota.
  cbn [f_ok f_json f_status f_text].
  assert (Hfail : negb ((200 <=? status)%Z && (status <=? 299)%Z)
                  || negb (truthy match JSON_parse text with
                                  | Some j => j
                                  | None => JNull
                                  end) = true).
  { destruct Hbad as [H|[H|H]].
    - apply Z.leb_gt in H. now rewrite H.
    - apply Z.leb_gt in H. rewrite H. now rewrite andb_false_r.
    - rewrite H. apply orb_true_r. }
  rewrite Hfail. reflexivity.
Qed.

End McpExtras.

Lemma unknown_tool_not_found_witness :
  run refusing
      (@mcp_call mcp_platform secret_env (settings_with [acme] global_maximo)
                 "{delete}") []
  = ([], Ok (json 404 [("error", JStr "unknown_tool");
                       ("name", JStr "maximo.deleteOS")])).
Proof.
  apply (@unknown_tool_not_found mcp_platform refusing secret_env
           (settings_with [acme] global_maximo) "{delete}" unknown_tool_body
           " maximo.deleteOS "
           {| rt_id := "acme";
              rt_baseUrl := "https://acme.example.com/maximo";
              rt_apiBase := "https://acme.example.com/maximo/api";
              rt_apiKey := JStr "ENVKEY"; rt_site := "BEDFORD";
              rt_org := JStr "EAGLENA" |});
    try reflexivity; discriminate.
Defined.

Lemma queryOS_backend_failure_witness :
  exists excerpt,
    run refusing
        (@queryOS mcp_platform
           {| rt_id := "acme";
              rt_baseUrl := "https://acme.example.com/maximo";
              rt_apiBase := "https://acme.example.com/maximo/api";
              rt_apiKey := JStr "ENVKEY"; rt_site := "";
              rt_org := JStr "" |}
           (JObj [("os", JStr "mxapiwo")])) []
    = ([BackendGet "https://acme.example.com/maximo/api/os/mxapiwo?" (JStr "ENVKEY")],
       Ok (backend_failure 401 excerpt
             "https://acme.example.com/maximo/api/os/mxapiwo?"))
    /\ is_prefix excerpt "unauthorized".
Proof.
  destruct (@queryOS_backend_failure mcp_platform refusing
              {| rt_id := "acme";
                 rt_baseUrl := "https://acme.example.com/maximo";
                 rt_apiBase := "https://acme.example.com/maximo/api";
                 rt_apiKey := JStr "ENVKEY"; rt_site := "";
                 rt_org := JStr "" |}
              (JObj [("os", JStr "mxapiwo")]) [] "mxapiwo"
              "https://acme.example.com/maximo/api/os/mxapiwo?" 401 "unauthorized")
    as (excerpt & Hrun & Hpre & _).
  - reflexivity.
  - reflexivity.
  - right. left. reflexivity.
  - exists excerpt. split; [exact Hrun | exact Hpre].
Defined.

Lemma NoDup_filter_keys {A B : Type} (f : A * B -> bool) (l : list (A * B)) :
  NoDup (List.map fst l) -> NoDup (List.map fst (List.filter f l)).
Proof.
  induction l as [|x l IH]; simpl; intros H; [constructor|].
  inversion H as [|? ? Hnot Hrest]; subst.
  destruct (f x); simpl; [|now apply IH].
  constructor; [|now apply IH].
  intros Hin. apply Hnot. apply in_map_iff in Hin.
  destruct Hin as (y & Hy & Hin). apply filter_In in Hin.
  apply in_map_iff. exists y. tauto.
Qed.

(** X16.  The URL of a backend query is the API base of the tenant, the
    object structure (which is not empty) and the query parameters.  Only
    the four OSLC keys occur, none twice and none with an empty value.  The
    filter is the one of the request when it gives one; otherwise it is the
    equality on the site of the tenant when the tenant has a site, and there
    is no filter at all when it has none. *)
Theorem queryOS_parameters {P : Platform} (tenant : resolved_tenant)
        (args : value) (os url : string) :
  queryOS_url tenant args = Ok (inr (os, url)) ->
  exists params where0,
    url = rt_apiBase tenant ++ "/os/" ++ encodeURIComponent os ++ "?"
          ++ URLSearchParams_toString params
    /\ os <> ""
    /\ (forall k v, In (k, v) params -> In k query_keys /\ v <> "")
    /\ NoDup (List.map fst params)
    /\ param (params_in args) "oslc.where" = Ok where0
    /\ (where0 <> "" -> In ("oslc.where", where0) params)
    /\ (where0 = "" -> rt_site tenant <> "" ->
        In ("oslc.where", "siteid=" ++ dquote ++ rt_site tenant ++ dquote) params)
    /\ (where0 = "" -> rt_site tenant = "" ->
        forall v, ~ In ("oslc.where", v) params).
Proof.
  intros H.
  destruct (queryOS_url_inv _ _ _ _ H)
    as (where0 & select & orderBy & pageSize & _ & Hos & Hw & _ & _ & _ & ->).
  eexists. exists where0. split; [reflexivity|]. split; [exact Hos|].
  split; [|split; [|split; [exact Hw|]]].
  - intros k v Hin. unfold set_params in Hin. apply filter_In in Hin.
    destruct Hin as (Hin & Hv). cbn [snd] in Hv.
    apply negb_true_iff, String.eqb_neq in Hv. split; [|exact Hv].
    unfold query_keys. simpl in Hin |- *.
    destruct Hin as [E|[E|[E|[E|[]]]]]; injection E as <- _; auto.
  - unfold set_params. apply NoDup_filter_keys. cbn [List.map fst].
    repeat constructor; simpl; intuition discriminate.
  - split; [|split].
    + intros Hne. apply String.eqb_neq in Hne. unfold set_params.
      apply filter_In. rewrite Hne. cbn [negb snd]. rewrite Hne.
      split; [now left | reflexivity].
    + intros -> Hsite. apply String.eqb_neq in Hsite. unfold set_params.
      apply filter_In. rewrite Hsite. cbn [String.eqb negb snd].
      split; [now left|]. apply negb_true_iff, String.eqb_neq.
      unfold dquote. discriminate.
    + intros -> Hsite v Hin. unfold set_params in Hin.
      apply filter_In in Hin. destruct Hin as (Hin & Hv). cbn [snd] in Hv.
      rewrite Hsite in Hin. cbn [String.eqb negb] in Hin.
      apply negb_true_iff, String.eqb_neq in Hv.
      simpl in Hin. destruct Hin as [E|[E|[E|[E|[]]]]];
        try discriminate E. injection E as E. now apply Hv.
Qed.

Lemma queryOS_parameters_witness :
  exists params where0,
    ("https://acme.example.com/maximo/api/os/mxapiwo?oslc.where=siteid="
     ++ dquote ++ "BEDFORD" ++ dquote)
    = "https://acme.example.com/maximo/api" ++ "/os/" ++ "mxapiwo" ++ "?"
      ++ @URLSearchParams_toString mcp_platform params
    /\ param (params_in (JObj [("os", JStr " mxapiwo ")])) "oslc.where" = Ok where0
    /\ In ("oslc.where", "siteid=" ++ dquote ++ "BEDFORD" ++ dquote) params.
Proof.
  destruct (@queryOS_parameters mcp_platform
              {| rt_id := "acme";
                 rt_baseUrl := "https://acme.example.com/maximo";
                 rt_apiBase := "https://acme.example.com/maximo/api";
                 rt_apiKey := JStr "ENVKEY"; rt_site := "BEDFORD";
                 rt_org := JStr "" |}
              (JObj [("os", JStr " mxapiwo ")]) "mxapiwo"
              ("https://acme.example.com/maximo/api/os/mxapiwo?oslc.where=siteid="
               ++ dquote ++ "BEDFORD" ++ dquote) eq_refl)
    as (params & where0 & Hurl & _ & _ & _ & Hw & _ & Hsite & _).
  exists params, where0. split; [exact Hurl|]. split; [exact Hw|].
  apply Hsite; [|discriminate].
  vm_compute in Hw. now injection Hw as <-.
Defined.

(** X17.  Whatever value is given as ordering, the token returned has no
    white space around it and is empty or marked with [+] or [-]; it is
    empty only when the ordering is blank, and converting it again changes
    nothing. *)
Theorem normalizeOrderBy_marked (orderBy : value) (t : string) :
  normalizeOrderBy orderBy = Ok t ->
  trim t = t
  /\ (t = "" \/ prefixed t = true)
  /\ (t = "" -> exists s, js_String (js_or orderBy (JStr "")) = Ok s /\ trim s = "")
  /\ normalizeOrderBy (JStr t) = Ok t.
Proof.
  unfold normalizeOrderBy at 1. intros H.
  apply rbind_Ok in H. destruct H as (s & Hs & H). injection H as <-.
  destruct (order_token_shape s) as (Htrim & Hshape).
  split; [exact Htrim|]. split; [exact Hshape|]. split.
  - intros H0. exists s. split; [exact Hs|].
    unfold order_token in H0.
    destruct (String.eqb (trim s) "") eqn:E; [now apply String.eqb_eq|].
    destruct (startsWith "+" (trim s) || startsWith "-" (trim s)).
    + apply String.eqb_neq in E. contradiction.
    + destruct (match_order (trim s)) as [[field dir]|];
        [destruct (String.eqb (toLowerCase dir) "desc")|]; discriminate H0.
  - rewrite normalizeOrderBy_string. f_equal. apply order_token_twice.
Qed.

Lemma normalizeOrderBy_marked_witness :
  normalizeOrderBy (JStr "+7") = Ok "+7".
Proof.
  destruct (normalizeOrderBy_marked (JNum 7) "+7" eq_refl) as (_ & _ & _ & H).
  exact H.
Defined.

(** ** Environment overrides *)

Module OverrideExamples.
Example deployed :
  applyEnvOverrides deployed_env (JObj stored_settings)
  = Some (Ok (JObj
       [("ui", JObj []); ("tenants", JArr [acme]);
        ("maximo", JObj [("baseUrl", JStr "https://env.example.com");
                         ("defaultSite", JStr "texas");
                         ("apiKey", JStr "ENVKEY")]);
        ("mcp", JObj [("url", JStr "http://mcp-server:8081");
                      ("enableTools", JBool false)]);
        ("ai", JObj [("openai_key", JStr "sk-env");
                     ("mistral_key", JStr "m-file")])])).
Proof. reflexivity. Qed.

Example empty_file :
  applyEnvOverrides deployed_env (JObj [])
  = Some (Ok (JObj
       [("ai", JObj [("openai_key", JStr "sk-env")]);
        ("maximo", JObj [("baseUrl", JStr "https://env.example.com");
                         ("apiKey", JStr "ENVKEY")]);
        ("mcp", JObj [("enableTools", JBool false)]);
        ("tenants", JArr [])])).
Proof. reflexivity. Qed.

Example null_file :
  exists msg, applyEnvOverrides deployed_env JNull = Some (Throw msg).
Proof. eexists. reflexivity. Qed.
End OverrideExamples.

Lemma section_field_set_same (f g : list (string * value)) (sec k : string) (v : value) :
  section_field (set_field sec (JObj (set_field k v g)) f) sec k = Some v.
Proof.
  unfold section_field. rewrite lookup_set_field_same.
  apply lookup_set_field_same.
Qed.

Lemma section_field_set_other (f g : list (string * value))
      (sec k sec' k' : string) (v : value) :
  lookup sec f = Some (JObj g) -> (sec', k') <> (sec, k) ->
  section_field (set_field sec (JObj (set_field k v g)) f) sec' k'
  = section_field f sec' k'.
Proof.
  intros Hsec Hne. unfold section_field.
  destruct (String.eqb_spec sec' sec) as [->|Hs].
  - rewrite lookup_set_field_same, Hsec.
    apply lookup_set_field_other. congruence.
  - now rewrite lookup_set_field_other.
Qed.

Lemma sections_ready_set (f : list (string * value)) (sec : string) (g : list (string * value)) :
  sections_ready f -> sections_ready (set_field sec (JObj g) f).
Proof.
  intros H sec' Hin. destruct (String.eqb_spec sec' sec) as [->|Hs].
  - exists g. apply lookup_set_field_same.
  - rewrite lookup_set_field_other by assumption. now apply H.
Qed.

Lemma override_ready (f : list (string * value)) (sec k : string) (v : value) :
  sections_ready f -> In sec override_sections ->
  exists g, lookup sec f = Some (JObj g)
            /\ override (JObj f) (sec, k, Some v)
               = Some (Ok (JObj (set_field sec (JObj (set_field k v g)) f))).
Proof.
  intros Hready Hin. destruct (Hready sec Hin) as (g & Hg).
  exists g. split; [exact Hg|].
  unfold override, prop. now rewrite Hg.
Qed.

(** The overrides on a settings object whose sections are objects: every
    rule that has a value sets its field, and the other fields keep their
    values. *)
Lemma apply_overrides_ready (rules : list (string * string * option value)) :
  Forall (fun rule => In (fst (fst rule)) override_sections) rules ->
  NoDup (List.map rule_key rules) ->
  forall f, sections_ready f ->
  exists f',
    apply_overrides (JObj f) rules = Some (Ok (JObj f'))
    /\ sections_ready f'
    /\ (forall key, ~ In key override_sections -> lookup key f' = lookup key f)
    /\ (forall sec k, (forall st, In (sec, k, st) rules -> st = None) ->
                      section_field f' sec k = section_field f sec k)
    /\ (forall sec k v, In (sec, k, Some v) rules ->
                        section_field f' sec k = Some v).
Proof.
  induction 1 as [|[[sec k] st] rules Hsec _ IH]; intros Hnd f Hready.
  - exists f. repeat split; auto. intros sec k v [].
  - cbn [List.map] in Hnd. inversion Hnd as [|? ? Hfresh Hnd']; subst.
    cbn [fst] in Hsec. cbn [apply_overrides].
    destruct st as [v|].
    + destruct (override_ready f sec k v Hready Hsec) as (g & Hg & ->).
      cbn [mbind].
      destruct (IH Hnd' _ (sections_ready_set f sec (set_field k v g) Hready))
        as (f' & Hrun & Hready' & Hkeys & Hframe & Hset).
      exists f'. split; [exact Hrun|]. split; [exact Hready'|].
      split; [|split].
      * intros key Hkey. rewrite (Hkeys key Hkey).
        apply lookup_set_field_other. intros ->. contradiction.
      * intros sec' k' Hnone. rewrite Hframe.
        -- apply section_field_set_other; [exact Hg|].
           intros E. injection E as -> ->.
           specialize (Hnone (Some v) (or_introl eq_refl)). discriminate Hnone.
        -- intros st Hin. apply Hnone. now right.
      * intros sec' k' v' [E|Hin]; [|now apply Hset].
        injection E as <- <- <-. rewrite Hframe.
        -- apply section_field_set_same.
        -- intros st Hin. exfalso. apply Hfresh.
           apply in_map_iff. exists (sec, k, st). split; [reflexivity | exact Hin].
    + cbn [override mbind].
      destruct (IH Hnd' f Hready) as (f' & Hrun & Hready' & Hkeys & Hframe & Hset).
      exists f'. split; [exact Hrun|]. split; [exact Hready'|].
      split; [exact Hkeys|]. split.
      * intros sec' k' Hnone. apply Hframe. intros st Hin. apply Hnone. now right.
      * intros sec' k' v' [E|Hin]; [discriminate E | now apply Hset].
Qed.

Lemma rule_key_unique (rules : list (string * string * option value))
      (sec k : string) (st1 st2 : option value) :
  NoDup (List.map rule_key rules) ->
  In (sec, k, st1) rules -> In (sec, k, st2) rules -> st1 = st2.
Proof.
  induction rules as [|r rules IH]; intros Hnd H1 H2; [contradiction|].
  cbn [List.map] in Hnd. inversion Hnd as [|? ? Hfresh Hnd']; subst.
  destruct H1 as [->|H1], H2 as [E|H2].
  - now injection E.
  - exfalso. apply Hfresh. apply in_map_iff. now exists (sec, k, st2).
  - subst r. exfalso. apply Hfresh. apply in_map_iff. now exists (sec, k, st1).
  - now apply IH.
Qed.

Lemma plain_section_default (v : value) :
  plain_section v ->
  exists g, js_or v (JObj []) = JObj g
            /\ forall k, lookup k g = match v with
                                      | JObj f => lookup k f
                                      | _ => None
                                      end.
Proof.
  intros [Hrec|Hfalse].
  - destruct v; try discriminate Hrec. exists fields. now split.
  - exists []. unfold js_or. rewrite Hfalse. split; [reflexivity|].
    intros k. destruct v; try reflexivity. discriminate Hfalse.
Qed.

Lemma overrides_sections (env : AppEnv.t) :
  Forall (fun rule => In (fst (fst rule)) override_sections) (overrides env).
Proof.
  unfold overrides.
  repeat (apply Forall_cons; [simpl; tauto|]). apply Forall_nil.
Qed.

Lemma overrides_keys (env : AppEnv.t) : NoDup (List.map rule_key (overrides env)).
Proof.
  cbn. repeat constructor; simpl; intuition discriminate.
Qed.

(** The overlay of the environment on plain settings. *)
Lemma applyEnvOverrides_overlay (env : AppEnv.t) (fields : list (string * value)) :
  plain_section (prop (JObj fields) "ai") ->
  plain_section (prop (JObj fields) "maximo") ->
  plain_section (prop (JObj fields) "mcp") ->
  exists out,
    applyEnvOverrides env (JObj fields) = Some (Ok (JObj out))
    /\ (forall sec k v, In (sec, k, Some v) (overrides env) ->
                        section_field out sec k = Some v)
    /\ (forall sec k, In sec override_sections ->
                      (forall st, In (sec, k, st) (overrides env) -> st = None) ->
                      section_field out sec k = section_field fields sec k)
    /\ sections_ready out
    /\ (exists items, lookup "tenants" out = Some (JArr items)
                      /\ forall l, lookup "tenants" fields = Some (JArr l) -> items = l)
    /\ (forall key, ~ In key ("tenants" :: override_sections) ->
                    lookup key out = lookup key fields).
Proof.
  intros Hai Hmax Hmcp.
  destruct (plain_section_default _ Hai) as (ga & Ea & Hga).
  unfold applyEnvOverrides, default_section, get.
  cbn [nullish assign_prop mbind]. rewrite Ea. cbn [mbind].
  set (f1 := set_field "ai" (JObj ga) fields).
  assert (E1 : prop (JObj f1) "maximo" = prop (JObj fields) "maximo").
  { unfold prop, f1. now rewrite lookup_set_field_other by discriminate. }
  rewrite E1. destruct (plain_section_default _ Hmax) as (gm & Em & Hgm).
  rewrite Em. cbn [mbind].
  set (f2 := set_field "maximo" (JObj gm) f1).
  assert (E2 : prop (JObj f2) "mcp" = prop (JObj fields) "mcp").
  { unfold prop, f2, f1. now rewrite !lookup_set_field_other by discriminate. }
  rewrite E2. destruct (plain_section_default _ Hmcp) as (gc & Ec & Hgc).
  rewrite Ec. cbn [mbind].
  set (f3 := set_field "mcp" (JObj gc) f2).
  set (T := if isArray (prop (JObj f3) "tenants")
            then prop (JObj f3) "tenants" else JArr []).
  set (f4 := set_field "tenants" T f3).
  assert (Hready : sections_ready f4).
  { intros sec Hin. unfold f4, f3, f2, f1. simpl in Hin.
    destruct Hin as [<-|[<-|[<-|[]]]];
      rewrite ?lookup_set_field_other by discriminate;
      rewrite ?lookup_set_field_same; eauto. }
  destruct (apply_overrides_ready (overrides env) (overrides_sections env)
              (overrides_keys env) f4 Hready)
    as (out & Hrun & Hready' & Hkeys & Hframe & Hset).
  exists out. split; [exact Hrun|]. split; [exact Hset|]. split; [|split; [exact Hready'|split]].
  - intros sec k Hin Hnone. rewrite (Hframe sec k Hnone).
    unfold section_field, f4, f3, f2, f1. unfold prop in Hga, Hgm, Hgc.
    simpl in Hin. destruct Hin as [<-|[<-|[<-|[]]]];
      rewrite ?lookup_set_field_other by discriminate;
      rewrite ?lookup_set_field_same.
    + rewrite Hga. destruct (lookup "ai" fields) as [[]|]; reflexivity.
    + rewrite Hgm. destruct (lookup "maximo" fields) as [[]|]; reflexivity.
    + rewrite Hgc. destruct (lookup "mcp" fields) as [[]|]; reflexivity.
  - assert (Ht : prop (JObj f3) "tenants" = prop (JObj fields) "tenants").
    { unfold prop, f3, f2, f1. now rewrite !lookup_set_field_other by discriminate. }
    assert (Hout : lookup "tenants" out = Some T).
    { rewrite Hkeys by (simpl; intuition discriminate).
      apply lookup_set_field_same. }
    unfold T in Hout. rewrite Ht in Hout. unfold prop in Hout.
    destruct (lookup "tenants" fields) as [[| | | | |items|]|] eqn:E;
      cbn [isArray] in Hout;
      try (exists []; split; [exact Hout | intros l Hl; discriminate Hl]).
    exists items. split; [exact Hout|]. intros l Hl. now injection Hl.
  - intros key Hkey. simpl in Hkey.
    rewrite Hkeys by (simpl; intuition).
    unfold f4, f3, f2, f1.
    rewrite !lookup_set_field_other; [reflexivity| | | |];
      intros ->; intuition.
Qed.

(** X18.  On a settings object whose [ai], [maximo] and [mcp] sections are
    objects or missing, the overlay of the environment returns a settings
    object in which every variable that is set and not empty has replaced
    its field, every other field of the three sections has the value of the
    file, the three sections are objects, the registry is an array (that of
    the file when it has one), and nothing else has changed. *)
Theorem applyEnvOverrides_env_wins (env : AppEnv.t) (fields : list (string * value)) :
  plain_section (prop (JObj fields) "ai") ->
  plain_section (prop (JObj fields) "maximo") ->
  plain_section (prop (JObj fields) "mcp") ->
  exists out,
    applyEnvOverrides env (JObj fields) = Some (Ok (JObj out))
    /\ (forall sec k v, In (sec, k, Some v) (overrides env) ->
                        section_field out sec k = Some v)
    /\ (forall sec k, In sec override_sections ->
                      (forall st, In (sec, k, st) (overrides env) -> st = None) ->
                      section_field out sec k = section_field fields sec k)
    /\ sections_ready out
    /\ (exists items, lookup "tenants" out = Some (JArr items)
                      /\ forall l, lookup "tenants" fields = Some (JArr l) -> items = l)
    /\ (forall key, ~ In key ("tenants" :: override_sections) ->
                    lookup key out = lookup key fields).
Proof. apply applyEnvOverrides_overlay. Qed.

Lemma applyEnvOverrides_env_wins_witness :
  exists out,
    applyEnvOverrides deployed_env (JObj stored_settings) = Some (Ok (JObj out))
    /\ section_field out "ai" "openai_key" = Some (JStr "sk-env")
    /\ section_field out "ai" "mistral_key" = Some (JStr "m-file").
Proof.
  destruct (applyEnvOverrides_env_wins deployed_env stored_settings)
    as (out & Hrun & Hset & Hkeep & _).
  - now left.
  - now left.
  - now left.
  - exists out. split; [exact Hrun|]. split.
    + apply Hset. simpl. auto.
    + rewrite (Hkeep "ai" "mistral_key").
      * reflexivity.
      * simpl. auto.
      * intros st Hin. simpl in Hin.
        repeat (destruct Hin as [E|Hin]; [now injection E|]). contradiction.
Defined.

(** X19.  A provider key given in the environment is the credential the
    provider is called with, whatever key the settings file holds. *)
Theorem env_key_reaches_provider (env : AppEnv.t) (fields : list (string * value))
        (p key : string) :
  plain_section (prop (JObj fields) "ai") ->
  plain_section (prop (JObj fields) "maximo") ->
  plain_section (prop (JObj fields) "mcp") ->
  env_provider_key env p = Some key -> key <> "" ->
  exists out,
    applyEnvOverrides env (JObj fields) = Some (Ok out)
    /\ forall cfg, providerConfig (JStr p) out = Ok cfg -> cfg_key cfg = JStr key.
Proof.
  intros Hai Hmax Hmcp Henv Hkey.
  destruct (applyEnvOverrides_overlay env fields Hai Hmax Hmcp)
    as (out & Hrun & Hset & _ & Hready & _).
  exists (JObj out). split; [exact Hrun|].
  destruct (Hready "ai") as (g & Hg); [simpl; auto|].
  assert (Hkey' : String.eqb key "" = false) by now apply String.eqb_neq.
  unfold env_provider_key in Henv.
  intros cfg Hcfg.
  assert (Hstep : forall field x,
             lookup field g = Some (JStr key) ->
             (let (k, base) :=
                (js_or (prop (js_or (prop (JObj out) "ai") (JObj [])) field) (JStr ""), x)
              in base0 <- js_String (js_or base (JStr "")) ;;
                 Ok {| cfg_provider := p; cfg_key := k;
                       cfg_base := replace_suffix "/" "" (trim base0) |}) = Ok cfg ->
             cfg_key cfg = JStr key).
  { intros field x Hv H. unfold prop in H. rewrite Hg in H.
    unfold js_or in H. cbn [truthy] in H. rewrite Hv in H.
    cbn [truthy] in H. rewrite Hkey' in H. cbn [negb] in H.
    apply rbind_Ok in H. destruct H as (b & _ & H). now injection H as <-. }
  assert (Hrule : forall field,
             In ("ai", field, Some (JStr key)) (overrides env) ->
             lookup field g = Some (JStr key)).
  { intros field Hin. specialize (Hset "ai" field (JStr key) Hin).
    unfold section_field in Hset. now rewrite Hg in Hset. }
  unfold providerConfig, get in Hcfg. cbn [nullish] in Hcfg.
  destruct (String.eqb p "openai") eqn:E1;
    [|destruct (String.eqb p "mistral") eqn:E2;
      [|destruct (String.eqb p "deepseek") eqn:E3; [|discriminate Henv]]];
    match goal with
    | H : String.eqb p _ = true |- _ => apply String.eqb_eq in H; subst p
    end.
  - change (js_or (JStr "openai") (JStr "openai")) with (JStr "openai") in Hcfg.
    cbn [js_String rbind] in Hcfg.
    change (toLowerCase "openai") with "openai" in Hcfg. cbv zeta in Hcfg.
    change (String.eqb "openai" "openai") with true in Hcfg. cbv iota in Hcfg.
    eapply (Hstep "openai_key"); [|exact Hcfg].
    apply Hrule. simpl. left. unfold env_setting. now rewrite Henv, Hkey'.
  - change (js_or (JStr "mistral") (JStr "openai")) with (JStr "mistral") in Hcfg.
    cbn [js_String rbind] in Hcfg.
    change (toLowerCase "mistral") with "mistral" in Hcfg. cbv zeta in Hcfg.
    change (String.eqb "mistral" "openai") with false in Hcfg.
    change (String.eqb "mistral" "mistral") with true in Hcfg. cbv iota in Hcfg.
    eapply (Hstep "mistral_key"); [|exact Hcfg].
    apply Hrule. simpl. do 2 right. left. unfold env_setting.
    now rewrite Henv, Hkey'.
  - change (js_or (JStr "deepseek") (JStr "openai")) with (JStr "deepseek") in Hcfg.
    cbn [js_String rbind] in Hcfg.
    change (toLowerCase "deepseek") with "deepseek" in Hcfg. cbv zeta in Hcfg.
    change (String.eqb "deepseek" "openai") with false in Hcfg.
    change (String.eqb "deepseek" "mistral") with false in Hcfg.
    change (String.eqb "deepseek" "deepseek") with true in Hcfg. cbv iota in Hcfg.
    eapply (Hstep "deepseek_key"); [|exact Hcfg].
    apply Hrule. simpl. do 4 right. left. unfold env_setting.
    now rewrite Henv, Hkey'.
Qed.

Lemma env_key_reaches_provider_witness :
  exists out,
    applyEnvOverrides deployed_env (JObj stored_settings) = Some (Ok out)
    /\ forall cfg, providerConfig (JStr "openai") out = Ok cfg ->
                   cfg_key cfg = JStr "sk-env".
Proof.
  apply (env_key_reaches_provider deployed_env stored_settings "openai" "sk-env").
  - now left.
  - now left.
  - now left.
  - reflexivity.
  - discriminate.
Defined.

(** ** The models route *)

Module ModelsExamples.
Example no_key :
  run (fun _ _ => Rejected "unreachable")
      (@api_models sample_platform keyless_settings "{chat}") []
  = ([], Ok (json 200 [("models", curated_openai);
                       ("warning", JStr "missing_api_key")])).
Proof. reflexivity. Qed.

Example provider_down :
  run (fun _ _ => Response 503 "busy")
      (@api_models sample_platform chat_settings "{chat}") []
  = ([ModelsFetch "https://api.openai.com/v1/models" "Bearer sk-test"],
     Ok (json 200 [("models", curated_openai);
                   ("warning", JStr "models_failed_503")])).
Proof. reflexivity. Qed.
End ModelsExamples.

(** ** The guard of the static files *)

Module GuardExamples.
Example climbs : remove_dotdot "/../../etc/passwd" = "///etc/passwd".
Proof. reflexivity. Qed.
Example four_dots : remove_dotdot "/....//x" = "///x".
Proof. reflexivity. Qed.
Example three_dots : remove_dotdot "/.../x" = "/./x".
Proof. reflexivity. Qed.
End GuardExamples.

Lemma remove_dotdot_head (c : ascii) (s : string) :
  Ascii.eqb c "." = false ->
  remove_dotdot (String c s) = String c (remove_dotdot s).
Proof. intros H. destruct s; simpl; [reflexivity | now rewrite H]. Qed.

Lemma remove_dotdot_pair (c c' : ascii) (s : string) :
  remove_dotdot (String c (String c' s))
  = if Ascii.eqb c "." && Ascii.eqb c' "." then remove_dotdot s
    else String c (remove_dotdot (String c' s)).
Proof. reflexivity. Qed.

Lemma has_dotdot_pair (c c' : ascii) (s : string) :
  has_dotdot (String c (String c' s))
  = (Ascii.eqb c "." && Ascii.eqb c' ".") || has_dotdot (String c' s).
Proof. reflexivity. Qed.

Lemma has_dotdot_cons (c : ascii) (s : string) :
  Ascii.eqb c "." = false -> has_dotdot (String c s) = has_dotdot s.
Proof. intros H. destruct s; simpl; [reflexivity | now rewrite H]. Qed.

Lemma remove_dotdot_clean_pair (s : string) :
  has_dotdot (remove_dotdot s) = false
  /\ forall c, has_dotdot (remove_dotdot (String c s)) = false.
Proof.
  induction s as [|c' s (IH & IHc)].
  - split; [reflexivity|]. intros c. reflexivity.
  - split; [apply IHc|]. intros c.
    rewrite remove_dotdot_pair.
    destruct (Ascii.eqb c "." && Ascii.eqb c' ".") eqn:E; [exact IH|].
    destruct (Ascii.eqb c ".") eqn:Ec.
    + cbn [andb] in E.
      rewrite (remove_dotdot_head c' s E), has_dotdot_pair.
      rewrite E, andb_false_r. cbn [orb].
      rewrite <- (remove_dotdot_head c' s E). apply IHc.
    + rewrite has_dotdot_cons by exact Ec. apply IHc.
Qed.

(** X20.  After the guard of the static files, a path has no two dots in a
    row: removing the pairs of dots once cannot bring two dots together. *)
Theorem remove_dotdot_clean (p : string) : has_dotdot (remove_dotdot p) = false.
Proof. apply remove_dotdot_clean_pair. Qed.





(** ** The direct query *)

Module DirectQueryExamples.
Example seven_columns :
  columns = ["assetnum"; "description"; "siteid"; "location"; "status";
             "assettype"; "changedate"].
Proof. reflexivity. Qed.

Example two_assets :
  run (fun _ _ => Response 200 "{assets}")
      (@maximo_query assets_platform direct_settings "{}") []
  = ([BackendGet
        ("https://mas.example.com/maximo/api/os/mxapiasset?oslc.where=siteid="
         ++ dquote ++ "BEDFORD" ++ dquote
         ++ "&oslc.select=" ++ default_select
         ++ "&oslc.orderBy=-changedate&oslc.pageSize=100")
        (JStr "KEY")],
     Ok (json 200
           [("summary", JStr "Retrieved 2 row(s) from Maximo.");
            ("table",
             JObj [("title", JStr "Results · mxapiasset");
                   ("columns", JArr (List.map JStr columns));
                   ("rows",
                    JArr [JObj [("assetnum", JStr "1001"); ("description", JStr "");
                                ("siteid", JStr ""); ("location", JStr "");
                                ("status", JStr ""); ("assettype", JStr "");
                                ("changedate", JStr "")];
                          JObj [("assetnum", JStr ""); ("description", JStr "");
                                ("siteid", JStr ""); ("location", JStr "");
                                ("status", JStr ""); ("assettype", JStr "");
                                ("changedate", JStr "")]])])])).
Proof. reflexivity. Qed.
End DirectQueryExamples.

Lemma table_row_complete (o : value) : complete_row (table_row o).
Proof.
  unfold complete_row, table_row. eexists. split; [reflexivity|]. split.
  - rewrite List.map_map. cbn [fst]. apply List.map_id.
  - apply Forall_map. apply Forall_forall. intros c _. cbn [snd].
    unfold js_coalesce. now destruct (nullish (oget o c)) eqn:E.
Qed.

Lemma table_rows_complete (json_ : value) :
  Forall complete_row (table_rows json_)
  /\ List.length (table_rows json_) = List.length (members json_).
Proof.
  unfold table_rows. split; [|apply List.length_map].
  apply Forall_map. apply Forall_forall. intros o _. apply table_row_complete.
Qed.

(** X22.  The direct query calls the backend only when both a base URL and
    a credential are configured.  Each of its answers either carries an
    [error] or has status 200 and a table in which every row has a value for
    each of the seven columns, in their order, with the empty string where
    the record has none; the table has a row for each member of the answer
    of the backend, even one that is not a record, and the summary gives
    their number. *)
Theorem maximo_query_table {P : Platform} (w : world backend_call)
        (s : value) (body : string) :
  (forall resp, snd (run w (maximo_query s body) []) = Ok resp ->
                (exists e, prop (http_body resp) "error" = JStr e)
                \/ (http_status resp = 200%Z /\ complete_table resp))
  /\ (truthy (oget (prop s "maximo") "baseUrl") = false
      \/ truthy (oget (prop s "maximo") "apiKey") = false ->
      fst (run w (maximo_query s body) []) = []).
Proof.
  split.
  - intros resp Hrun.
    apply (returns_only_run
             (fun resp => (exists e, prop (http_body resp) "error" = JStr e)
                          \/ (http_status resp = 200%Z /\ complete_table resp))
             (maximo_query s body)) with (w := w) (made := @nil backend_call);
      [|exact Hrun].
    unfold maximo_query.
    apply returns_only_guarded; [|intros e; left; eexists; reflexivity].
    do 2 (apply returns_only_bind; intros ?). cbn zeta.
    destruct (_ || _); [left; eexists; reflexivity|].
    do 4 (apply returns_only_bind; intros ?).
    unfold fetchJson. cbn [iobind returns_only].
    intros [msg|status text]; [exact I|]. cbn [iobind].
    destruct (_ || _).
    + left. eexists. reflexivity.
    + right. split; [reflexivity|].
      eexists. split; [reflexivity|].
      split; [apply table_rows_complete | reflexivity].
  - intros Hmissing. unfold maximo_query. rewrite run_guarded. cbn [fst].
    rewrite run_bind, run_lift.
    destruct (parse_body body) as [parsed|e]; [|reflexivity]. cbn beta iota.
    rewrite run_bind, run_lift.
    destruct (get s "maximo") as [maximo|e] eqn:Hget; [|reflexivity].
    apply get_Ok in Hget. destruct Hget as (_ & ->). cbn beta iota zeta.
    destruct Hmissing as [H|H]; rewrite H; cbn [negb orb];
      [|rewrite orb_true_r]; reflexivity.
Qed.

Lemma maximo_query_table_witness :
  ((exists e,
       prop (http_body
               (json 200
                  [("summary", JStr "Retrieved 0 row(s) from Maximo.");
                   ("table",
                    JObj [("title", JStr "Results · mxapiasset");
                          ("columns", JArr (List.map JStr columns));
                          ("rows", JArr [])])])) "error" = JStr e)
   \/ (http_status
         (json 200
            [("summary", JStr "Retrieved 0 row(s) from Maximo.");
             ("table",
              JObj [("title", JStr "Results · mxapiasset");
                    ("columns", JArr (List.map JStr columns));
                    ("rows", JArr [])])]) = 200%Z
       /\ complete_table
            (json 200
               [("summary", JStr "Retrieved 0 row(s) from Maximo.");
                ("table",
                 JObj [("title", JStr "Results · mxapiasset");
                       ("columns", JArr (List.map JStr columns));
                       ("rows", JArr [])])])))
  /\ fst (run (fun _ _ => Response 200 "{assets}")
              (@maximo_query assets_platform
                 (JObj [("maximo", JObj [("baseUrl", JStr "https://mas.example.com")])])
                 "{}") [])
     = [].
Proof.
  split.
  - apply (proj1 (@maximo_query_table assets_platform
                    (fun _ _ => Response 200 "{}") direct_settings "{}")).
    reflexivity.
  - apply (proj2 (@maximo_query_table assets_platform
                    (fun _ _ => Response 200 "{assets}")
                    (JObj [("maximo", JObj [("baseUrl", JStr "https://mas.example.com")])])
                    "{}")).
    right. reflexivity.
Defined.

(** ** Saving, then resolving *)

Lemma saved_tenant_record (t : value) : saved_tenant t -> tenant_record t.
Proof.
  intros (id & label & base & org & site & -> & _).
  repeat split; reflexivity.
Qed.

Lemma saved_tenant_has_id (id : string) (t : value) :
  saved_tenant t -> has_id id t = true -> prop t "id" = JStr id.
Proof.
  intros (id' & label & base & org & site & -> & _). unfold has_id.
  change (prop _ "id") with (JStr id'). cbn [js_String].
  intros H. apply String.eqb_eq in H. now subst.
Qed.

(** X23.  After a save that carries a tenant list, every registry entry
    written is one the resolution can read, and looking up the id of a
    written entry gives the first written entry with that id: it does not
    fall back to the entry [default] or to the empty record. *)
Theorem saved_tenants_resolve
        (cur : list (string * value)) (payload : value)
        (written : list (string * value)) (items : list value) :
  saveSettingsFromUI cur payload = Ok written ->
  js_object payload = true -> prop payload "tenants" = JArr items ->
  Forall tenant_record (registry (JObj written))
  /\ forall t id,
      In t (registry (JObj written)) -> prop t "id" = JStr id ->
      exists found,
        choose_tenant (registry (JObj written)) id = Ok found
        /\ List.find (has_id id) (registry (JObj written)) = Some found
        /\ prop found "id" = JStr id.
Proof.
  intros Hsave Hobj Hitems.
  destruct (saveSettingsFromUI_tenants cur payload written items Hsave Hobj Hitems)
    as (kept & Hlookup & Hkept).
  assert (Hreg : registry (JObj written) = kept).
  { unfold registry, prop. now rewrite Hlookup. }
  rewrite Hreg.
  assert (Hrec : Forall tenant_record kept).
  { eapply Forall_impl; [|exact Hkept]. apply saved_tenant_record. }
  split; [exact Hrec|].
  intros t id Hin Hid.
  rewrite (choose_tenant_first_of id kept Hrec). unfold first_of.
  destruct (List.find (has_id id) kept) as [found|] eqn:Hfind.
  - exists found. split; [reflexivity|]. split; [reflexivity|].
    apply List.find_some in Hfind. destruct Hfind as (Hin' & Hhas).
    apply saved_tenant_has_id; [|exact Hhas].
    rewrite Forall_forall in Hkept. now apply Hkept.
  - exfalso. apply (List.find_none _ _ Hfind) in Hin.
    unfold has_id in Hin. rewrite Hid in Hin. cbn [js_String] in Hin.
    now rewrite String.eqb_refl in Hin.
Qed.

Lemma saved_tenants_resolve_witness :
  exists written,
    saveSettingsFromUI seeded_file
      (JObj [("tenants",
              JArr [JObj [("id", JStr "north"); ("site", JStr "bedford")];
                    JObj [("label", JStr "no id")];
                    JObj [("id", JStr "north"); ("site", JStr "texas")]])])
    = Ok written
    /\ Forall tenant_record (registry (JObj written)).
Proof.
  eexists. split; [reflexivity|].
  eapply (saved_tenants_resolve seeded_file
            (JObj [("tenants",
                    JArr [JObj [("id", JStr "north"); ("site", JStr "bedford")];
                          JObj [("label", JStr "no id")];
                          JObj [("id", JStr "north"); ("site", JStr "texas")]])]));
    reflexivity.
Defined.

(** ** Saving: how a section is merged *)

Lemma lookup_assign_fields (src target : list (string * value)) (x : string) :
  NoDup (List.map fst src) ->
  lookup x (assign target (JObj src))
  = match lookup x src with
    | Some v => Some v
    | None => lookup x target
    end.
Proof.
  unfold assign. cbn [own_entries]. revert target.
  induction src as [|[k v] rest IH]; intros target Hnd; [reflexivity|].
  cbn [List.fold_left fst snd lookup]. cbn [List.map fst] in Hnd.
  inversion Hnd as [|? ? Hnotin Hrest]; subst.
  rewrite (IH _ Hrest).
  destruct (String.eqb x k) eqn:E.
  - apply String.eqb_eq in E. subst x.
    assert (Hnone : lookup k rest = None).
    { clear - Hnotin. induction rest as [|[k' v'] rest IH]; [reflexivity|].
      cbn [lookup]. cbn [List.map fst] in Hnotin.
      destruct (String.eqb k k') eqn:E.
      - apply String.eqb_eq in E. subst. exfalso. apply Hnotin. now left.
      - apply IH. intros H. apply Hnotin. now right. }
    rewrite Hnone. apply lookup_set_field_same.
  - apply String.eqb_neq in E.
    now rewrite (lookup_set_field_other x k v target E).
Qed.

Lemma lookup_spread2 (cf pf : list (string * value)) (x : string) :
  NoDup (List.map fst cf) -> NoDup (List.map fst pf) ->
  lookup x (own_entries (spread2 (JObj cf) (JObj pf)))
  = match lookup x pf with
    | Some v => Some v
    | None => lookup x cf
    end.
Proof.
  intros Hc Hp. unfold spread2. cbn [own_entries].
  rewrite (lookup_assign_fields pf _ x Hp).
  rewrite (lookup_assign_fields cf [] x Hc).
  cbn [lookup]. now destruct (lookup x cf).
Qed.

Lemma lookup_remove_other (k x : string) (fields : list (string * value)) :
  x <> k -> lookup x (remove_field k fields) = lookup x fields.
Proof.
  intros Hneq. unfold remove_field.
  induction fields as [|[k' v] rest IH]; [reflexivity|].
  cbn [List.filter fst lookup].
  destruct (String.eqb k' k) eqn:E; cbn [negb].
  - apply String.eqb_eq in E. subst k'.
    apply String.eqb_neq in Hneq. now rewrite Hneq.
  - cbn [lookup]. now rewrite IH.
Qed.

Lemma merge_section_other (k k' : string) (v : value) (payload : value)
      (next : list (string * value)) :
  k <> k' ->
  merge_section k payload (set_field k' v next) = merge_section k payload next.
Proof.
  intros Hneq. unfold merge_section, prop.
  now rewrite (lookup_set_field_other k k' v next Hneq).
Qed.

(** The section a save writes, for a section the request carries. *)
Lemma saved_section (cur : list (string * value)) (payload : value)
      (written : list (string * value)) (k : string) :
  saveSettingsFromUI cur payload = Ok written ->
  js_object payload = true -> js_object (prop payload k) = true ->
  In k ["ui"; "maximo"; "mcp"] ->
  lookup k written
  = Some (if String.eqb k "maximo"
          then JObj (remove_field "apiKey" (own_entries (merge_section k payload cur)))
          else merge_section k payload cur).
Proof.
  intros Hsave Hobj Hsec Hk. unfold saveSettingsFromUI in Hsave.
  rewrite Hobj in Hsave. cbv zeta in Hsave.
  assert (Hlast : forall n3,
             match prop payload "tenants" with
             | JArr items =>
                 cleaned <- map_result clean_tenant items ;;
                 Ok (set_field "tenants"
                       (JArr (List.filter (fun t => truthy (prop t "id")) cleaned)) n3)
             | _ => Ok n3
             end = Ok written ->
             lookup k written = lookup k n3).
  { intros n3 H.
    assert (Hneq : k <> "tenants").
    { cbn in Hk. intros ->. destruct Hk as [H0|[H0|[H0|[]]]]; discriminate H0. }
    destruct (prop payload "tenants") as [| | | | |items|];
      try (injection H as <-; reflexivity).
    destruct (map_result clean_tenant items); [|discriminate H].
    cbn in H. injection H as <-. now apply lookup_set_field_other. }
  apply Hlast in Hsave. rewrite Hsave. clear Hlast Hsave.
  cbn in Hk. destruct Hk as [<-|[<-|[<-|[]]]].
  - rewrite Hsec. cbn [String.eqb Ascii.eqb Bool.eqb].
    destruct (js_object (prop payload "mcp"));
      [rewrite lookup_set_field_other by discriminate|];
      (destruct (js_object (prop payload "maximo"));
       [rewrite lookup_set_field_other by discriminate|]);
      apply lookup_set_field_same.
  - rewrite Hsec. cbn [String.eqb Ascii.eqb Bool.eqb].
    destruct (js_object (prop payload "mcp"));
      [rewrite lookup_set_field_other by discriminate|];
      rewrite lookup_set_field_same;
      (destruct (js_object (prop payload "ui"));
       [rewrite merge_section_other by discriminate|]); reflexivity.
  - rewrite Hsec. cbn [String.eqb Ascii.eqb Bool.eqb].
    rewrite lookup_set_field_same.
    destruct (js_object (prop payload "maximo"));
      [rewrite merge_section_other by discriminate|];
      (destruct (js_object (prop payload "ui"));
       [rewrite merge_section_other by discriminate|]); reflexivity.
Qed.

(** X24.  A save merges a section of the request into the stored one field
    by field: a field of the request replaces the stored field of that name,
    and a stored field the request does not name is kept.  This holds for
    the sections [ui], [maximo] and [mcp], with the one exception that the
    merged [maximo] section has no field [apiKey]. *)
Theorem saveSettingsFromUI_merges
        (cur : list (string * value)) (payload : value)
        (written : list (string * value)) (k x : string)
        (cf pf : list (string * value)) :
  saveSettingsFromUI cur payload = Ok written ->
  js_object payload = true ->
  In k ["ui"; "maximo"; "mcp"] ->
  prop payload k = JObj pf -> NoDup (List.map fst pf) ->
  js_or (prop (JObj cur) k) (JObj []) = JObj cf -> NoDup (List.map fst cf) ->
  section_field written k x
  = if String.eqb k "maximo" && String.eqb x "apiKey" then None
    else match lookup x pf with
         | Some v => Some v
         | None => lookup x cf
         end.
Proof.
  intros Hsave Hobj Hk Hpf Hndp Hcf Hndc.
  assert (Hsec : js_object (prop payload k) = true) by now rewrite Hpf.
  unfold section_field.
  rewrite (saved_section cur payload written k Hsave Hobj Hsec Hk).
  unfold merge_section. rewrite Hcf, Hpf.
  destruct (String.eqb k "maximo"); cbn [andb].
  - destruct (String.eqb x "apiKey") eqn:E.
    + apply String.eqb_eq in E. subst x. apply lookup_remove_field.
    + apply String.eqb_neq in E. rewrite (lookup_remove_other _ _ _ E).
      now apply lookup_spread2.
  - change (lookup x (own_entries (spread2 (JObj cf) (JObj pf)))
            = match lookup x pf with Some v => Some v | None => lookup x cf end).
    now apply lookup_spread2.
Qed.

Lemma saveSettingsFromUI_merges_witness :
  saveSettingsFromUI (initial_settings "http://broker:8081")
    (JObj [("mcp", JObj [("enableTools", JBool true)])])
  = Ok [("ui", JObj []); ("tenants", JArr []); ("maximo", JObj []);
        ("mcp", JObj [("url", JStr "http://broker:8081");
                      ("enableTools", JBool true)])]
  /\ section_field
       [("ui", JObj []); ("tenants", JArr []); ("maximo", JObj []);
        ("mcp", JObj [("url", JStr "http://broker:8081");
                      ("enableTools", JBool true)])]
       "mcp" "url"
     = Some (JStr "http://broker:8081").
Proof.
  split; [reflexivity|].
  apply (saveSettingsFromUI_merges
           (initial_settings "http://broker:8081")
           (JObj [("mcp", JObj [("enableTools", JBool true)])])
           _ "mcp" "url"
           [("url", JStr "http://broker:8081"); ("enableTools", JBool false)]
           [("enableTools", JBool true)]).
  - reflexivity.
  - reflexivity.
  - simpl. tauto.
  - reflexivity.
  - repeat constructor. simpl. tauto.
  - reflexivity.
  - repeat constructor; simpl; intuition discriminate.
Defined.
